(** * QUETRIX question-paper builder: the paper model, the structural sync
      engine and the generation pipeline of [src/App.tsx].

    The React component keeps its model in [useState] cells and changes it
    through event handlers.  Each handler is embedded as a function on an
    explicit state record; what the handler reads from its environment
    (fresh question identifiers, the replies of the remote service, the
    platform's JSON reader) is an explicit argument. *)

From Stdlib Require Import ZArith QArith Qround Ascii String.
From stdpp Require Import base list strings pretty gmap.

Local Open Scope string_scope.

(** ** JavaScript values *)

Module Js.

#[local] Set Warnings "-register-all".

(** The values a parsed JSON document (or a property read) can yield.
    Numbers are kept to integers: the code only tests them for
    truthiness. An object is the list of its own properties, keys
    distinct, as [JSON.parse] leaves them. *)
Inductive value : Type :=
| Undefined
| Null
| Bool (b : bool)
| Num (n : Z)
| Str (s : string)
| Arr (items : list value)
| Obj (props : list (string * value)).

(** [ToBoolean]: what [if (v)], [!v] and [v || w] test. *)
Definition truthy (v : value) : bool :=
  match v with
  | Undefined | Null => false
  | Bool b => b
  | Num n => negb (n =? 0)%Z
  | Str s => negb (String.eqb s "")
  | Arr _ | Obj _ => true
  end.

(** [a || b] *)
Definition or (a b : value) : value := if truthy a then a else b.

Fixpoint assoc (k : string) (props : list (string * value)) : value :=
  match props with
  | [] => Undefined
  | (k', v) :: rest => if String.eqb k k' then v else assoc k rest
  end.

(** [v.k] for a property name [k] that no prototype defines (the code
    reads [candidates], [content], [parts], [text], [options], [bloom]
    and [co] only), on a value that is neither [null] nor [undefined]. *)
Definition get (v : value) (k : string) : value :=
  match v with
  | Obj props => assoc k props
  | _ => Undefined
  end.

(** [v[i]] for a number [i], on a value that is neither [null] nor
    [undefined]: an element, a character, or the property named by the
    decimal numeral. *)
Definition at_index (v : value) (i : nat) : value :=
  match v with
  | Arr items => default Undefined (items !! i)
  | Str s => match String.get i s with
             | Some c => Str (String c EmptyString)
             | None => Undefined
             end
  | Obj props => assoc (pretty i) props
  | _ => Undefined
  end.

Definition nullish (v : value) : bool :=
  match v with Undefined | Null => true | _ => false end.

(** [v?.k] and [v?.[i]] *)
Definition opt_get (v : value) (k : string) : value :=
  if nullish v then Undefined else get v k.
Definition opt_index (v : value) (i : nat) : value :=
  if nullish v then Undefined else at_index v i.

(** [s.replace(/pat/g, '')] for a literal, non-empty pattern: every
    occurrence found scanning left to right is dropped. [skip] counts the
    characters of a match still to be dropped. *)
Fixpoint remove_from (pat : string) (skip : nat) (s : string) : string :=
  match s with
  | EmptyString => EmptyString
  | String c rest =>
      match skip with
      | S k => remove_from pat k rest
      | O => if String.prefix pat s
             then remove_from pat (String.length pat - 1) rest
             else String c (remove_from pat 0 rest)
      end
  end.
Definition remove_all (pat s : string) : string := remove_from pat 0 s.

(** White space of [String.prototype.trim], within ASCII. *)
Definition is_space (c : ascii) : bool :=
  let n := nat_of_ascii c in
  (n =? 32)%nat || ((9 <=? n)%nat && (n <=? 13)%nat).

Fixpoint trim_start (s : list ascii) : list ascii :=
  match s with
  | c :: rest => if is_space c then trim_start rest else s
  | [] => []
  end.

Definition trim (s : string) : string :=
  string_of_list_ascii
    (rev (trim_start (rev (trim_start (list_ascii_of_string s))))).

End Js.

(** ** Numbers and the texts of number inputs *)

Definition digit_of (c : ascii) : option Z :=
  let n := nat_of_ascii c in
  if ((48 <=? n)%nat && (n <=? 57)%nat)%bool then Some (Z.of_nat (n - 48)) else None.

(** The value of the longest prefix of decimal digits, continuing from
    [acc]; [None] while no digit has been read. *)
Fixpoint digits_prefix (acc : option Z) (s : string) : option Z :=
  match s with
  | EmptyString => acc
  | String c rest =>
      match digit_of c with
      | Some d => digits_prefix (Some (10 * default 0%Z acc + d)%Z) rest
      | None => acc
      end
  end.

Fixpoint skip_space (s : string) : string :=
  match s with
  | String c rest => if Js.is_space c then skip_space rest else s
  | EmptyString => EmptyString
  end.

(** [parseInt(s, 10)]; [None] is [NaN]. Exact while the value is below
    2^53. *)
Definition parseInt10 (s : string) : option Z :=
  match skip_space s with
  | String "-" rest => Z.opp <$> digits_prefix None rest
  | String "+" rest => digits_prefix None rest
  | t => digits_prefix None t
  end.

Fixpoint all_digits (s : string) : bool :=
  match s with
  | EmptyString => true
  | String c rest => match digit_of c with Some _ => all_digits rest | None => false end
  end.

(** [Number(s)] on a text of decimal digits only (the empty text gives
    0), exact while the value is below 2^53; [None] for any other text,
    which this model does not cover. *)
Definition Number_ (s : string) : option Z :=
  if all_digits s then Some (default 0%Z (digits_prefix None s)) else None.

(** A digit of a hexadecimal numeral. *)
Definition hex_digit_of (c : ascii) : option Z :=
  let n := nat_of_ascii c in
  if ((48 <=? n)%nat && (n <=? 57)%nat)%bool then Some (Z.of_nat (n - 48))
  else if ((97 <=? n)%nat && (n <=? 102)%nat)%bool then Some (Z.of_nat (n - 87))
  else if ((65 <=? n)%nat && (n <=? 70)%nat)%bool then Some (Z.of_nat (n - 55))
  else None.

(** A decimal digit below [radix]. *)
Definition digit_below (radix : Z) (c : ascii) : option Z :=
  match digit_of c with
  | Some d => if (d <? radix)%Z then Some d else None
  | None => None
  end.

(** The value of the longest prefix of digits of a radix, continuing from
    [acc]; [None] while no digit has been read. *)
Fixpoint radix_prefix (digit : ascii -> option Z) (radix : Z) (acc : option Z)
    (s : string) : option Z :=
  match s with
  | EmptyString => acc
  | String c rest =>
      match digit c with
      | Some d =>
          radix_prefix digit radix (Some (radix * default 0%Z acc + d)%Z) rest
      | None => acc
      end
  end.

(** [parseInt(s)] without a radix: leading white space and one sign are
    skipped, a [0x] or [0X] prefix selects radix 16 and anything else
    radix 10, and the longest prefix of digits is read. [None] is [NaN],
    the result when no digit is found; a negative zero is not told from
    zero. Exact while the value is below 2^53. *)
Definition parseInt_text (s : string) : option Z :=
  let t := skip_space s in
  let '(negative, body) :=
    match t with
    | String c rest =>
        if Ascii.eqb c "-" then (true, rest)
        else if Ascii.eqb c "+" then (false, rest)
        else (false, t)
    | EmptyString => (false, t)
    end in
  let mathInt :=
    match body with
    | String c (String x rest) =>
        if (Ascii.eqb c "0" && (Ascii.eqb x "x" || Ascii.eqb x "X"))%bool
        then radix_prefix hex_digit_of 16 None rest
        else digits_prefix None body
    | _ => digits_prefix None body
    end in
  (fun n => if negative then (- n)%Z else n) <$> mathInt.

(** A number as the counts are computed with: [NaN] or a finite value,
    kept exact. A double agrees with the exact value in the comparisons
    and differences below while the numeral has at most 15 significant
    digits; infinite values are not represented. *)
Inductive number : Type :=
| NotANumber
| Finite (q : Q).

(** The longest prefix of decimal digits: its value continuing from
    [acc], its length, and what follows it. *)
Fixpoint read_digits (acc : Z) (s : string) : Z * nat * string :=
  match s with
  | String c rest =>
      match digit_of c with
      | Some d =>
          let '(v, n, r) := read_digits (10 * acc + d)%Z rest in (v, S n, r)
      | None => (acc, O, s)
      end
  | EmptyString => (acc, O, s)
  end.

(** [m * 10^e] *)
Definition scale10 (m e : Z) : Q :=
  if (0 <=? e)%Z then inject_Z (m * 10 ^ e)
  else Qmake m (Z.to_pos (10 ^ (- e))).

(** The exponent part that ends a decimal literal: nothing, or [e] or
    [E], an optional sign and at least one digit. *)
Definition read_exponent (s : string) : option Z :=
  match s with
  | EmptyString => Some 0%Z
  | String c rest =>
      if (Ascii.eqb c "e" || Ascii.eqb c "E")%bool then
        let '(negative, body) :=
          match rest with
          | String c' rest' =>
              if Ascii.eqb c' "-" then (true, rest')
              else if Ascii.eqb c' "+" then (false, rest')
              else (false, rest)
          | EmptyString => (false, rest)
          end in
        let '(x, n, r) := read_digits 0 body in
        if ((0 <? n)%nat && String.eqb r "")%bool
        then Some (if negative then (- x)%Z else x)
        else None
      else None
  end.

(** An unsigned decimal literal: digits, an optional point with optional
    digits after it, and an optional exponent, with at least one digit
    before the exponent. *)
Definition decimal_literal (s : string) : option Q :=
  let '(i, n1, r1) := read_digits 0 s in
  let '(m, n2, r2) :=
    match r1 with
    | String c rest => if Ascii.eqb c "." then read_digits i rest else (i, O, r1)
    | EmptyString => (i, O, r1)
    end in
  if (n1 + n2 =? 0)%nat then None
  else (fun e => scale10 m (e - Z.of_nat n2)) <$> read_exponent r2.

Definition signed_literal (negative : bool) (s : string) : number :=
  match decimal_literal s with
  | Some q => Finite (if negative then (- q)%Q else q)
  | None => NotANumber
  end.

(** A numeral written with digits of a radix only, at least one. *)
Fixpoint radix_literal (digit : ascii -> option Z) (radix : Z) (acc : option Z)
    (s : string) : option Z :=
  match s with
  | EmptyString => acc
  | String c rest =>
      match digit c with
      | Some d =>
          radix_literal digit radix (Some (radix * default 0%Z acc + d)%Z) rest
      | None => None
      end
  end.

(** The prefix [0x], [0o] or [0b] (in either case) of a numeral: the
    digits and the radix it selects, and the text after it. *)
Definition radix_of (s : string) : option ((ascii -> option Z) * Z * string) :=
  match s with
  | String c (String x rest) =>
      if Ascii.eqb c "0" then
        if (Ascii.eqb x "x" || Ascii.eqb x "X")%bool
        then Some (hex_digit_of, 16%Z, rest)
        else if (Ascii.eqb x "o" || Ascii.eqb x "O")%bool
        then Some (digit_below 8, 8%Z, rest)
        else if (Ascii.eqb x "b" || Ascii.eqb x "B")%bool
        then Some (digit_below 2, 2%Z, rest)
        else None
      else None
  | _ => None
  end.

(** The number that a text is coerced to by [<], [>], [-], [*] and
    [slice]: the trimmed text is empty (0), a signed decimal literal, or
    an unsigned numeral with a radix prefix; any other text is [NaN].
    The literal [Infinity], which a number input never delivers, is not
    covered: it is read as [NaN] here. *)
Definition StringToNumber (s : string) : number :=
  match Js.trim s with
  | EmptyString => Finite 0
  | String c rest =>
      if Ascii.eqb c "-" then signed_literal true rest
      else if Ascii.eqb c "+" then signed_literal false rest
      else
        match radix_of (String c rest) with
        | Some (digit, radix, body) =>
            match radix_literal digit radix None body with
            | Some n => Finite (inject_Z n)
            | None => NotANumber
            end
        | None => signed_literal false (String c rest)
        end
  end.

(** [a < b] on numbers: false when an operand is [NaN]. *)
Definition lessThan (a b : number) : bool :=
  match a, b with
  | Finite p, Finite q => negb (Qle_bool q p)
  | _, _ => false
  end.

(** [a <= b] on numbers. *)
Definition atMost (a b : number) : bool :=
  match a, b with
  | Finite p, Finite q => Qle_bool p q
  | _, _ => false
  end.

(** [a - b], [a * b] and [a + b] on numbers. *)
Definition numMinus (a b : number) : number :=
  match a, b with
  | Finite p, Finite q => Finite (p - q)
  | _, _ => NotANumber
  end.

Definition numTimes (a b : number) : number :=
  match a, b with
  | Finite p, Finite q => Finite (p * q)
  | _, _ => NotANumber
  end.

Definition numPlus (a b : number) : number :=
  match a, b with
  | Finite p, Finite q => Finite (p + q)
  | _, _ => NotANumber
  end.

(** How often the body of [for (let i = 0; i < needed; i++)] runs: once
    for every whole number from 0 that is below [needed]. *)
Definition tripCount (needed : number) : nat :=
  match needed with
  | Finite q => Z.to_nat (Qceiling q)
  | NotANumber => O
  end.

(** The integer that [slice] makes of its argument: [NaN] becomes 0 and
    a fraction is cut toward zero. *)
Definition ToIntegerOrInfinity (n : number) : Z :=
  match n with
  | Finite q => if Qle_bool 0 q then Qfloor q else Qceiling q
  | NotANumber => 0%Z
  end.

(** The length of an array, as a number. *)
Definition lengthOf {A} (xs : list A) : number :=
  Finite (inject_Z (Z.of_nat (length xs))).

(** ** The paper model *)

(** [section.type]: the three values the type selector offers. *)
Inductive SectionType : Type := mcq | subjective | fillblank.

Global Instance SectionType_eq_dec : EqDecision SectionType.
Proof. solve_decision. Defined.

(** A question. [q_id] is [Date.now() + Math.random()]; the other fields
    hold whatever the handlers stored, which after a bulk fill is any
    value of the reply. *)
Record Question : Type := mkQuestion {
  q_id : Q;
  text : Js.value;
  options : Js.value;
  image : Js.value;
  co : Js.value;
  bloom : Js.value
}.

(** What a numeric field of a section holds: a whole number written by
    the code (a default, the literal of a new section, or what [parseInt]
    returned), the [NaN] that [parseInt] returns for a text without
    leading digits, or the text of the number input (the empty text or a
    floating-point numeral), stored as typed. *)
Inductive NumberField : Type :=
| Whole (n : Z)
| NoNumber
| Typed (text : string).

Record PaperSection : Type := mkSection {
  s_id : Z;
  title : string;
  desc : string;
  type : SectionType;
  qCount : NumberField;
  attemptCount : NumberField;
  marksPerQ : NumberField;
  questions : list Question
}.

Definition set_attemptCount (v : NumberField) (s : PaperSection) : PaperSection :=
  mkSection (s_id s) (title s) (desc s) (type s) (qCount s) v (marksPerQ s)
            (questions s).

Definition set_questions (qs : list Question) (s : PaperSection) : PaperSection :=
  mkSection (s_id s) (title s) (desc s) (type s) (qCount s) (attemptCount s)
            (marksPerQ s) qs.

(** The [(field, value)] pairs the blueprint form passes to
    [updateSection]; [value] is [e.target.value], the text of the input
    or the value of the selected type. *)
Inductive FieldValue : Type :=
| Title (value : string)
| Type_ (value : SectionType)
| QCount (value : string)
| AttemptCount (value : string)
| MarksPerQ (value : string).

(** [{ ...s, [field]: value }] *)
Definition assign (s : PaperSection) (fv : FieldValue) : PaperSection :=
  match fv with
  | Title v => mkSection (s_id s) v (desc s) (type s) (qCount s)
                         (attemptCount s) (marksPerQ s) (questions s)
  | Type_ v => mkSection (s_id s) (title s) (desc s) v (qCount s)
                         (attemptCount s) (marksPerQ s) (questions s)
  | QCount v => mkSection (s_id s) (title s) (desc s) (type s) (Typed v)
                          (attemptCount s) (marksPerQ s) (questions s)
  | AttemptCount v => set_attemptCount (Typed v) s
  | MarksPerQ v => mkSection (s_id s) (title s) (desc s) (type s) (qCount s)
                             (attemptCount s) (Typed v) (questions s)
  end.

(** [parseInt(v)]: [v] is turned into text and that text is read. The
    text of a whole number is its decimal numeral (below 10^21) and the
    text of [NaN] has no digit. *)
Definition parseInt (v : NumberField) : NumberField :=
  match v with
  | Whole n => Whole n
  | NoNumber => NoNumber
  | Typed text =>
      match parseInt_text text with
      | Some n => Whole n
      | None => NoNumber
      end
  end.

(** The number a field is coerced to by arithmetic and comparison. *)
Definition toNumber (v : NumberField) : number :=
  match v with
  | Whole n => Finite (inject_Z n)
  | NoNumber => NotANumber
  | Typed text => StringToNumber text
  end.

(** The body of the [map] callback of [updateSection], for the section
    whose id matches. *)
Definition updateSection_at (fv : FieldValue) (s : PaperSection) : PaperSection :=
  let updated := assign s fv in
  if decide (type updated = mcq) then
    set_attemptCount (parseInt (qCount updated)) updated
  else
    match fv with
    | QCount value =>
        if lessThan (toNumber (parseInt (Typed value))) (toNumber (attemptCount s))
        then set_attemptCount (parseInt (Typed value)) updated
        else updated
    | _ => updated
    end.

Definition updateSection (id : Z) (fv : FieldValue) (prev : list PaperSection)
  : list PaperSection :=
  (fun s => if decide (s_id s ≠ id) then s else updateSection_at fv s) <$> prev.

Definition defaultSections : list PaperSection :=
  [ mkSection 1 "Q1" "Multiple Choice Questions" mcq (Whole 6) (Whole 6) (Whole 1) [];
    mkSection 2 "Q2" "Short Notes / Answer" subjective
              (Whole 4) (Whole 2) (Whole 3) [] ].

(** ** Metadata and the component state *)

Record Metadata : Type := mkMeta {
  universityName : string;
  schoolName : string;
  branch : string;
  semester : string;
  specializations : string;
  academicYear : string;
  examType : string;
  courseCode : string;
  courseName : string;
  examDate : string;
  startTime : string;
  endTime : string;
  instructions : string
}.

(** [meta[field]] for a property name given as a string. *)
Definition meta_get (m : Metadata) (field : string) : Js.value :=
  if String.eqb field "universityName" then Js.Str (universityName m)
  else if String.eqb field "schoolName" then Js.Str (schoolName m)
  else if String.eqb field "branch" then Js.Str (branch m)
  else if String.eqb field "semester" then Js.Str (semester m)
  else if String.eqb field "specializations" then Js.Str (specializations m)
  else if String.eqb field "academicYear" then Js.Str (academicYear m)
  else if String.eqb field "examType" then Js.Str (examType m)
  else if String.eqb field "courseCode" then Js.Str (courseCode m)
  else if String.eqb field "courseName" then Js.Str (courseName m)
  else if String.eqb field "examDate" then Js.Str (examDate m)
  else if String.eqb field "startTime" then Js.Str (startTime m)
  else if String.eqb field "endTime" then Js.Str (endTime m)
  else if String.eqb field "instructions" then Js.Str (instructions m)
  else Js.Undefined.

Inductive Tab : Type := blueprint | builder | preview.

Global Instance Tab_eq_dec : EqDecision Tab.
Proof. solve_decision. Defined.

(** The [useState] cells the modelled handlers read or write. *)
Record AppState : Type := mkState {
  meta : Metadata;
  sections : list PaperSection;
  activeTab : Tab;
  activeSectionId : Z;
  validationError : option string;
  aiLoadingState : bool * option Z;
  showLowContextWarning : bool;
  pendingMagicSectionId : option Z;
  alerts : list string
}.

Definition setSections (v : list PaperSection) (st : AppState) : AppState :=
  mkState (meta st) v (activeTab st) (activeSectionId st) (validationError st)
          (aiLoadingState st) (showLowContextWarning st)
          (pendingMagicSectionId st) (alerts st).

Definition setActiveTab (v : Tab) (st : AppState) : AppState :=
  mkState (meta st) (sections st) v (activeSectionId st) (validationError st)
          (aiLoadingState st) (showLowContextWarning st)
          (pendingMagicSectionId st) (alerts st).

Definition setActiveSectionId (v : Z) (st : AppState) : AppState :=
  mkState (meta st) (sections st) (activeTab st) v (validationError st)
          (aiLoadingState st) (showLowContextWarning st)
          (pendingMagicSectionId st) (alerts st).

Definition setValidationError (v : option string) (st : AppState) : AppState :=
  mkState (meta st) (sections st) (activeTab st) (activeSectionId st) v
          (aiLoadingState st) (showLowContextWarning st)
          (pendingMagicSectionId st) (alerts st).

Definition setAiLoadingState (v : bool * option Z) (st : AppState) : AppState :=
  mkState (meta st) (sections st) (activeTab st) (activeSectionId st)
          (validationError st) v (showLowContextWarning st)
          (pendingMagicSectionId st) (alerts st).

Definition setShowLowContextWarning (v : bool) (st : AppState) : AppState :=
  mkState (meta st) (sections st) (activeTab st) (activeSectionId st)
          (validationError st) (aiLoadingState st) v
          (pendingMagicSectionId st) (alerts st).

Definition setPendingMagicSectionId (v : option Z) (st : AppState) : AppState :=
  mkState (meta st) (sections st) (activeTab st) (activeSectionId st)
          (validationError st) (aiLoadingState st) (showLowContextWarning st)
          v (alerts st).

(** [alert(msg)]: the messages shown so far, oldest first. *)
Definition alert (msg : string) (st : AppState) : AppState :=
  mkState (meta st) (sections st) (activeTab st) (activeSectionId st)
          (validationError st) (aiLoadingState st) (showLowContextWarning st)
          (pendingMagicSectionId st) (alerts st ++ [msg]).

(** How a handler ends: it returns, or a [TypeError] escapes it after the
    state updates made so far. *)
Inductive completion : Type :=
| Returns (st : AppState)
| Throws (st : AppState).

Definition state_of (c : completion) : AppState :=
  match c with Returns st | Throws st => st end.

(** ** Adding and deleting sections *)

(** [Math.max(0, ...xs)] *)
Definition Math_max0 (xs : list Z) : Z := foldr Z.max 0%Z xs.

Definition addSection (st : AppState) : AppState :=
  let newId := (Math_max0 (s_id <$> sections st) + 1)%Z in
  let newSection :=
    mkSection newId ("Q" ++ pretty (length (sections st) + 1)%nat)
              "Subjective Questions" subjective (Whole 3) (Whole 3) (Whole 5) [] in
  let st' := setSections (sections st ++ [newSection]) st in
  if decide (activeTab st = builder) then setActiveSectionId newId st' else st'.

Definition deleteSection (id : Z) (st : AppState) : completion :=
  if (1 <? length (sections st))%nat then
    let newSections := filter (fun s => s_id s ≠ id) (sections st) in
    let st' := setSections newSections st in
    if decide (activeSectionId st = id) then
      match newSections with
      | first :: _ => Returns (setActiveSectionId (s_id first) st')
      | [] => Throws st'
      end
    else Returns st'
  else Returns st.

(** The blueprint actions that add or remove sections. *)
Inductive SectionOp : Type :=
| Add
| Delete (id : Z).

Definition applyOp (st : AppState) (op : SectionOp) : AppState :=
  match op with
  | Add => addSection st
  | Delete id => state_of (deleteSection id st)
  end.

Definition runOps (ops : list SectionOp) (st : AppState) : AppState :=
  foldl applyOp st ops.

(** ** The blueprint-to-builder transition *)

Definition requiredFields : list string :=
  [ "schoolName"; "branch"; "semester"; "academicYear";
    "examType"; "courseCode"; "courseName"; "examDate"; "startTime";
    "endTime"; "specializations" ].

Definition missing (m : Metadata) : list string :=
  List.filter (fun field => negb (Js.truthy (meta_get m field))) requiredFields.

Definition validationMessage : string :=
  "Please fill in all required fields marked with *".

Definition defaultOptions : Js.value :=
  Js.Arr [Js.Str "Option A"; Js.Str "Option B"; Js.Str "Option C";
          Js.Str "Option D"].

(** The question literal pushed by the growth loop; [id] is the value of
    [Date.now() + Math.random()] at that push. *)
Definition newQuestion (id : Q) (section : PaperSection) : Question :=
  mkQuestion id (Js.Str "")
             (if decide (type section = mcq) then defaultOptions else Js.Arr [])
             Js.Null (Js.Str "CO1") (Js.Str "R").

(** [for (let i = 0; i < needed; i++) currentQs.push({...})]: [ids n] is
    the [n]-th identifier drawn during the transition and [k] the number
    drawn so far. *)
Fixpoint pushQuestions (ids : nat -> Q) (section : PaperSection)
    (needed : nat) (k : nat) (currentQs : list Question)
  : list Question * nat :=
  match needed with
  | O => (currentQs, k)
  | S n => pushQuestions ids section n (S k)
                         (currentQs ++ [newQuestion (ids k) section])
  end.

(** [xs.slice(0, end)] for an integer [end]: a negative [end] counts from
    the end of the array. *)
Definition slice0 {A} (xs : list A) (e : Z) : list A :=
  let len := Z.of_nat (length xs) in
  let stop := if (e <? 0)%Z then Z.max (len + e) 0 else Z.min e len in
  take (Z.to_nat stop) xs.

(** The [map] callback of [initializeBuilder]. The comparisons, the
    difference and [slice] coerce [section.qCount] to a number. *)
Definition reconcile (ids : nat -> Q) (section : PaperSection) (k : nat)
  : PaperSection * nat :=
  let currentQs := questions section in
  if lessThan (lengthOf currentQs) (toNumber (qCount section)) then
    let needed := numMinus (toNumber (qCount section)) (lengthOf currentQs) in
    let '(qs, k') := pushQuestions ids section (tripCount needed) k currentQs in
    (set_questions qs section, k')
  else if lessThan (toNumber (qCount section)) (lengthOf currentQs) then
    (set_questions
       (slice0 currentQs (ToIntegerOrInfinity (toNumber (qCount section))))
       section, k)
  else (set_questions currentQs section, k).

Fixpoint reconcileAll (ids : nat -> Q) (secs : list PaperSection) (k : nat)
  : list PaperSection :=
  match secs with
  | [] => []
  | section :: rest =>
      let '(section', k') := reconcile ids section k in
      section' :: reconcileAll ids rest k'
  end.

(** [xs.find(p)], as the option of its result. *)
Definition find_section (id : Z) (secs : list PaperSection) : option PaperSection :=
  List.find (fun s => bool_decide (s_id s = id)) secs.

Definition initializeBuilder (ids : nat -> Q) (st : AppState) : completion :=
  match missing (meta st) with
  | _ :: _ => Returns (setValidationError (Some validationMessage) st)
  | [] =>
      let st1 := setValidationError None st in
      let newSections := reconcileAll ids (sections st) 0 in
      let st2 := setActiveTab builder (setSections newSections st1) in
      match find_section (activeSectionId st) newSections with
      | Some _ => Returns st2
      | None =>
          match newSections with
          | first :: _ => Returns (setActiveSectionId (s_id first) st2)
          | [] => Throws st2
          end
      end
  end.

(** The required fields as the form marks them, each non-empty. *)
Definition requiredFilled (m : Metadata) : Prop :=
  schoolName m ≠ "" ∧ branch m ≠ "" ∧ semester m ≠ "" ∧ academicYear m ≠ ""
  ∧ examType m ≠ "" ∧ courseCode m ≠ "" ∧ courseName m ≠ ""
  ∧ examDate m ≠ "" ∧ startTime m ≠ "" ∧ endTime m ≠ ""
  ∧ specializations m ≠ "".

(** ** The generation transport: [callGemini] *)

(** What a [catch] clause can receive: the error the code itself raises on
    a non-success status, a [TypeError] of a property read on [null], or a
    rejection of the platform ([fetch] or [response.json()]). *)
Inductive error : Type :=
| ApiError (status : Z)
| TypeError
| PlatformError (reason : string).

(** The outcome of [response.json()]. *)
Inductive body : Type :=
| Unreadable (err : error)
| Json (data : Js.value).

(** The outcome of one [fetch]: it rejects, or it yields a response with a
    status and a body. *)
Inductive FetchOutcome : Type :=
| Fails (err : error)
| Responds (status : Z) (b : body).

(** [response.ok]: the status is in the range 200 to 299. *)
Definition ok (status : Z) : bool := (200 <=? status)%Z && (status <=? 299)%Z.

(** [data.candidates?.[0]?.content?.parts?.[0]?.text], for [data] that is
    neither [null] nor [undefined]. *)
Definition candidatePath (data : Js.value) : Js.value :=
  let candidates := Js.get data "candidates" in
  let parts := Js.opt_get (Js.opt_get (Js.opt_index candidates 0) "content") "parts" in
  Js.opt_get (Js.opt_index parts 0) "text".

(** [data.candidates?.[0]?.content?.parts?.[0]?.text || ""]; reading
    [candidates] of [null] raises a [TypeError]. *)
Definition candidateText (data : Js.value) : error + Js.value :=
  if Js.nullish data then inl TypeError
  else inr (Js.or (candidatePath data) (Js.Str "")).

(** The body of the [try] block for a given outcome of the [fetch]: the
    value returned, or the error handed to the [catch] clause. *)
Definition attempt (r : FetchOutcome) : error + Js.value :=
  match r with
  | Fails err => inl err
  | Responds status b =>
      if negb (ok status) then inl (ApiError status)
      else match b with
           | Unreadable err => inl err
           | Json data => candidateText data
           end
  end.

Definition delays : list Z := [1000; 2000; 4000]%Z.

(** What the caller and the clock observe of a call. *)
Inductive event : Type :=
| Fetch (i : nat)
| Wait (ms : Z).

Inductive settled : Type :=
| Resolved (v : Js.value)
| Rejected (err : error).

(** The [for] loop from index [i] on; [env i] is the outcome of the
    [fetch] of iteration [i]. [fuel] bounds the iterations. *)
Fixpoint attemptsFrom (env : nat -> FetchOutcome) (fuel : nat) (i : nat)
  : list event * settled :=
  match fuel with
  | O => ([], Resolved Js.Undefined)
  | S fuel' =>
      if (i <? length delays + 1)%nat then
        match attempt (env i) with
        | inr v => ([Fetch i], Resolved v)
        | inl err =>
            if (i =? length delays)%nat then ([Fetch i], Rejected err)
            else
              let '(trace, r) := attemptsFrom env fuel' (S i) in
              (Fetch i :: Wait (default 0%Z (delays !! i)) :: trace, r)
        end
      else ([], Resolved Js.Undefined)
  end.

Definition callGemini (env : nat -> FetchOutcome) : list event * settled :=
  attemptsFrom env (length delays + 1) 0.

(** ** Bulk fill: [executeMagicFill] *)

Definition generationFailed : string := "AI Generation failed. Try again.".

(** [rawText.replace(/```json/g, '').replace(/```/g, '').trim()] *)
Definition sanitize (rawText : string) : string :=
  Js.trim (Js.remove_all "```" (Js.remove_all "```json" rawText)).

(** The callback of [s.questions.map] in the state updater. *)
Definition mergeQuestion (s : PaperSection) (generatedData : Js.value)
    (idx : nat) (q : Question) : Question :=
  let item := Js.at_index generatedData idx in
  if Js.truthy item then
    mkQuestion (q_id q)
               (Js.get item "text")
               (if decide (type s = mcq)
                then Js.or (Js.get item "options") (options q)
                else Js.Arr [])
               (image q)
               (Js.or (Js.get item "co") (Js.Str "CO1"))
               (Js.or (Js.get item "bloom") (Js.Str "R"))
  else q.

(** [s.questions.map(...)]; [None] when [generatedData[idx]] raises a
    [TypeError] because the reply is [null]. *)
Definition mergeQuestions (s : PaperSection) (generatedData : Js.value)
  : option (list Question) :=
  if Js.nullish generatedData then
    match questions s with [] => Some [] | _ :: _ => None end
  else Some (imap (mergeQuestion s generatedData) (questions s)).

(** The updater passed to [setSections]. *)
Definition mergeSections (sectionId : Z) (generatedData : Js.value)
    (prev : list PaperSection) : option (list PaperSection) :=
  mapM (fun s => if decide (s_id s ≠ sectionId) then Some s
                 else (fun qs => set_questions qs s) <$> mergeQuestions s generatedData)
       prev.

Section Generation.

(** [JSON.parse]; [None] when it raises a [SyntaxError]. *)
Variable JSON_parse : string -> option Js.value.

(** The part of [executeMagicFill] after the [await]: [reply] is how
    [callGemini] settled and [st] the state at that moment. A [TypeError]
    inside the updater escapes the [try]. *)
Definition settleMagicFill (sectionId : Z) (reply : settled) (st : AppState)
  : completion :=
  let finally := fun st' =>
    setPendingMagicSectionId None (setAiLoadingState (false, None) st') in
  match reply with
  | Resolved (Js.Str rawText) =>
      match JSON_parse (sanitize rawText) with
      | Some generatedData =>
          match mergeSections sectionId generatedData (sections st) with
          | Some newSections => Returns (finally (setSections newSections st))
          | None => Throws (finally st)
          end
      | None => Returns (finally (alert generationFailed st))
      end
  | Resolved _ | Rejected _ => Returns (finally (alert generationFailed st))
  end.

(** A whole call with no other handler running during the [await]. *)
Definition executeMagicFill (sectionId : option Z) (env : nat -> FetchOutcome)
    (st : AppState) : completion :=
  match sectionId with
  | None => Returns st
  | Some id =>
      match find_section id (sections st) with
      | None => Returns st
      | Some _ =>
          let st1 := setShowLowContextWarning false
                       (setAiLoadingState (true, Some id) st) in
          settleMagicFill id (snd (callGemini env)) st1
      end
  end.

End Generation.

(** ** Derived values and builder navigation *)

(** [sections.reduce((acc, s) => acc + (s.attemptCount * s.marksPerQ), 0)] *)
Definition totalPaperMarks (secs : list PaperSection) : number :=
  foldl (fun acc s =>
           numPlus acc (numTimes (toNumber (attemptCount s))
                                (toNumber (marksPerQ s))))
        (Finite 0) secs.

(** [totalPaperMarks <= 30 ? ... : ...] *)
Definition examCategory (secs : list PaperSection) : string :=
  if atMost (totalPaperMarks secs) (Finite 30) then "INTERNAL / REMEDIAL"
  else "EXTERNAL / FINAL".

(** [sections.findIndex(s => s.id === id)], counting from [i]; -1 when no
    section matches. *)
Fixpoint findIndexFrom (id : Z) (secs : list PaperSection) (i : Z) : Z :=
  match secs with
  | [] => (-1)%Z
  | s :: rest => if decide (s_id s = id) then i else findIndexFrom id rest (i + 1)%Z
  end.

Definition findIndex (id : Z) (secs : list PaperSection) : Z :=
  findIndexFrom id secs 0.

(** [sections[i].id] for an integer [i]; [None] when the element is
    [undefined] and the read of [id] raises. *)
Definition idAt (secs : list PaperSection) (i : Z) : option Z :=
  if (i <? 0)%Z then None else s_id <$> secs !! Z.to_nat i.

(** The click handler of the Previous Section button. *)
Definition previousSection (st : AppState) : completion :=
  let currentIndex := findIndex (activeSectionId st) (sections st) in
  if (0 <? currentIndex)%Z then
    match idAt (sections st) (currentIndex - 1) with
    | Some id => Returns (setActiveSectionId id st)
    | None => Throws st
    end
  else Returns st.

(** The click handler of the Next Section button. *)
Definition nextSection (st : AppState) : completion :=
  let currentIndex := findIndex (activeSectionId st) (sections st) in
  if decide (currentIndex = (Z.of_nat (length (sections st)) - 1)%Z) then
    Returns (setActiveTab preview st)
  else
    match idAt (sections st) (currentIndex + 1) with
    | Some id => Returns (setActiveSectionId id st)
    | None => Throws st
    end.

(** The configuration of a section: everything but its questions. *)
Definition blueprintOf (s : PaperSection)
  : Z * string * string * SectionType * NumberField * NumberField * NumberField :=
  (s_id s, title s, desc s, type s, qCount s, attemptCount s, marksPerQ s).

(** The waits of a trace, added up. *)
Definition totalWait (trace : list event) : Z :=
  foldr (fun e acc => match e with Wait ms => (ms + acc)%Z | Fetch _ => acc end)
        0%Z trace.

(** What a bulk fill cannot change of a section: its configuration and,
    question by question, the id and the image. *)
Definition skeletonOf (s : PaperSection)
  : (Z * string * string * SectionType * NumberField * NumberField * NumberField)
    * list (Q * Js.value) :=
  (blueprintOf s, (fun q => (q_id q, image q)) <$> questions s).

(** ** Time and text helpers *)

(** [s.split(sep)] for a one-character separator. *)
Fixpoint split_on (sep : ascii) (s : string) : list string :=
  match s with
  | EmptyString => [EmptyString]
  | String c rest =>
      if Ascii.eqb c sep then EmptyString :: split_on sep rest
      else match split_on sep rest with
           | part :: parts => String c part :: parts
           | [] => [String c EmptyString]
           end
  end.

(** [s.padStart(targetLength, c)] for a one-character filler. *)
Definition padStart (targetLength : nat) (c : ascii) (s : string) : string :=
  string_of_list_ascii (replicate (targetLength - String.length s) c) ++ s.

(** [n.toString().padStart(2, '0')] *)
Definition pad2 (n : Z) : string := padStart 2 "0" (pretty n).

Definition formatTime12Hour (timeStr : string) : string :=
  if String.eqb timeStr "" then ""
  else
    let parts := split_on ":" timeStr in
    let hours := default "" (parts !! 0%nat) in
    let minutes := default "undefined" (parts !! 1%nat) in
    let h := parseInt10 hours in
    let suffix := match h with
                  | Some h => if (12 <=? h)%Z then "PM" else "AM"
                  | None => "AM"
                  end in
    let hour12 := match h with
                  | Some h => if (Z.rem h 12 =? 0)%Z then 12%Z else Z.rem h 12
                  | None => 12%Z
                  end in
    pretty hour12 ++ ":" ++ minutes ++ " " ++ suffix.

(** The numbers the time helpers compute with. *)
Inductive num : Type :=
| NaN
| Int (z : Z).

(** [const [h, m] = timeStr.split(':').map(Number)]; a missing second part
    is [undefined], which arithmetic turns into [NaN]. [None] when a part
    is outside the texts [Number_] covers. *)
Definition timeFields (timeStr : string) : option (num * num) :=
  match split_on ":" timeStr with
  | h :: m :: _ =>
      match Number_ h, Number_ m with
      | Some a, Some b => Some (Int a, Int b)
      | _, _ => None
      end
  | [h] => match Number_ h with Some a => Some (Int a, NaN) | None => None end
  | [] => None
  end.

(** The text built from [diffM], after the wrap. *)
Definition durationText (diffM : Z) : string :=
  let hours := (diffM / 60)%Z in
  let minutes := Z.rem diffM 60 in
  let s1 := if (0 <? hours)%Z then pretty hours ++ " Hr " else "" in
  let s2 := if (0 <? minutes)%Z then s1 ++ pretty minutes ++ " Mins" else s1 in
  if ((hours =? 0)%Z && (minutes =? 0)%Z)%bool then "" else Js.trim s2.

(** [None] only when a time text is outside the model of [Number_]. With
    a [NaN] operand every comparison fails and the result is the trimmed
    empty text. *)
Definition calculateDurationText (start end_ : string) : option string :=
  if (String.eqb start "" || String.eqb end_ "")%bool then Some ""
  else
    match timeFields start, timeFields end_ with
    | Some (Int startH, Int startM), Some (Int endH, Int endM) =>
        let diffM := ((endH * 60 + endM) - (startH * 60 + startM))%Z in
        let diffM := if (diffM <? 0)%Z then (diffM + 24 * 60)%Z else diffM in
        Some (durationText diffM)
    | Some _, Some _ => Some ""
    | _, _ => None
    end.

(** The [Date] is read as civil time of a day without a change of the
    zone offset: [setHours] and [setMinutes] carry over into hours and
    days, and the current date and second play no part. A [NaN] field
    makes the date invalid. [None] as for [timeFields]. *)
Definition addMinutesToTime (timeStr : string) (minutesToAdd : Z) : option string :=
  if String.eqb timeStr "" then Some ""
  else
    match timeFields timeStr with
    | Some (Int hours, Int mins) =>
        let total := (hours * 60 + (mins + minutesToAdd))%Z in
        let h := ((total / 60) mod 24)%Z in
        let m := (total mod 60)%Z in
        Some (pad2 h ++ ":" ++ pad2 m)
    | Some _ => Some "NaN:NaN"
    | None => None
    end.

(** [getDurationString] *)
Definition getDurationString (m : Metadata) : string :=
  if (String.eqb (startTime m) "" || String.eqb (endTime m) "")%bool then ""
  else formatTime12Hour (startTime m) ++ " to " ++ formatTime12Hour (endTime m).

(** [DURATION_OPTIONS], the minutes of each entry. *)
Definition DURATION_OPTIONS : list Z := [60; 90; 120; 150; 180]%Z.

Definition setEndTime (v : string) (m : Metadata) : Metadata :=
  mkMeta (universityName m) (schoolName m) (branch m) (semester m)
         (specializations m) (academicYear m) (examType m) (courseCode m)
         (courseName m) (examDate m) (startTime m) v (instructions m).

Definition setMeta (v : Metadata) (st : AppState) : AppState :=
  mkState v (sections st) (activeTab st) (activeSectionId st)
          (validationError st) (aiLoadingState st) (showLowContextWarning st)
          (pendingMagicSectionId st) (alerts st).

(** [None] as for [addMinutesToTime]. *)
Definition handleDurationSelect (minutes : Z) (st : AppState) : option AppState :=
  if String.eqb (startTime (meta st)) "" then
    Some (alert "Please select a Start Time first." st)
  else
    newEndTime ← addMinutesToTime (startTime (meta st)) minutes;
    Some (setMeta (setEndTime newEndTime (meta st)) st).

(** ** The print file name *)

(** A character of [a-zA-Z0-9]. *)
Definition is_alnum (c : ascii) : bool :=
  let n := nat_of_ascii c in
  ((48 <=? n)%nat && (n <=? 57)%nat)
  || ((65 <=? n)%nat && (n <=? 90)%nat)
  || ((97 <=? n)%nat && (n <=? 122)%nat).

Fixpoint map_chars (f : ascii -> ascii) (s : string) : string :=
  match s with
  | EmptyString => EmptyString
  | String c rest => String (f c) (map_chars f rest)
  end.

(** The [filename] that [handlePrint] puts into the page title:
    [replace(/[^a-zA-Z0-9]/g, '_')] and [replace(/ /g, '_')] rewrite
    character by character. *)
Definition printFilename (m : Metadata) : string :=
  let branch := if String.eqb (branch m) "" then "EXAM" else branch m in
  let sem := if String.eqb (semester m) "" then "" else "SEM" ++ semester m in
  let course := if String.eqb (courseName m) "" then "PAPER"
                else map_chars (fun c => if is_alnum c then c else "_"%char)
                               (courseName m) in
  let type := if String.eqb (examType m) "" then "TEST"
              else map_chars (fun c => if Ascii.eqb c " " then "_"%char else c)
                             (examType m) in
  branch ++ "_" ++ sem ++ "_" ++ course ++ "_" ++ type.

(** ** Editing and revising one question *)

Inductive QuestionField : Type := text_ | options_ | image_ | co_ | bloom_.

(** [{ ...q, [field]: value }] *)
Definition assignQuestion (q : Question) (field : QuestionField)
    (value : Js.value) : Question :=
  match field with
  | text_ => mkQuestion (q_id q) value (options q) (image q) (co q) (bloom q)
  | options_ => mkQuestion (q_id q) (text q) value (image q) (co q) (bloom q)
  | image_ => mkQuestion (q_id q) (text q) (options q) value (co q) (bloom q)
  | co_ => mkQuestion (q_id q) (text q) (options q) (image q) value (bloom q)
  | bloom_ => mkQuestion (q_id q) (text q) (options q) (image q) (co q) value
  end.

(** The [map] callback of [updateQuestion]. [None] when [qIndex] is past
    the end of the questions: there the array grows with holes and the new
    element has the one field only, which a list of question records does
    not represent. *)
Definition updateQuestion_at (qIndex : nat) (field : QuestionField)
    (value : Js.value) (s : PaperSection) : option PaperSection :=
  match questions s !! qIndex with
  | Some q => Some (set_questions (<[qIndex := assignQuestion q field value]> (questions s)) s)
  | None => None
  end.

(** The updater that [updateQuestion] passes to [setSections]. *)
Definition updateQuestion (sectionId : Z) (qIndex : nat) (field : QuestionField)
    (value : Js.value) (prev : list PaperSection) : option (list PaperSection) :=
  mapM (fun s => if decide (s_id s ≠ sectionId) then Some s
                 else updateQuestion_at qIndex field value s) prev.

(** The double quote character. *)
Definition dquote : ascii := ascii_of_nat 34.

Definition drop_first_if (c : ascii) (s : list ascii) : list ascii :=
  match s with
  | c' :: rest => if Ascii.eqb c' c then rest else s
  | [] => []
  end.

(** The first [replace] of the subjective branch: the pattern matches a
    double quote at the very start and a double quote at the very end,
    and a lone quote counts as the start. *)
Definition strip_quotes (s : string) : string :=
  string_of_list_ascii
    (rev (drop_first_if dquote (rev (drop_first_if dquote (list_ascii_of_string s))))).

(** The whole chain of the subjective branch: quotes, then every pair of
    asterisks, then [trim]. *)
Definition cleanText (responseText : string) : string :=
  Js.trim (Js.remove_all "**" (strip_quotes responseText)).

Definition improveFailed : string := "AI improvement failed. Please try again.".

Definition is_array (v : Js.value) : bool :=
  match v with Js.Arr _ => true | _ => false end.

(** What the [try] block of [handleImproveQuestion] comes to after the
    [await]. *)
Inductive improveStep : Type :=
| Updated (newSections : list PaperSection)
| Caught
| OutOfModel.

(** [section] is the section found before the [await]; [prev] the section
    list the updaters receive. Reading [data.text] of [null] and calling
    [replace] on a reply that is not a string raise inside the [try]. *)
Definition improveUpdates (JSON_parse : string -> option Js.value)
    (section : PaperSection) (sectionId : Z) (qIndex : nat) (reply : settled)
    (prev : list PaperSection) : improveStep :=
  match reply with
  | Resolved (Js.Str responseText) =>
      if decide (type section = mcq) then
        match JSON_parse (sanitize responseText) with
        | None => Caught
        | Some data =>
            if Js.nullish data then Caught
            else
              match updateQuestion sectionId qIndex text_ (Js.get data "text") prev with
              | None => OutOfModel
              | Some prev1 =>
                  if (Js.truthy (Js.get data "options")
                      && is_array (Js.get data "options"))%bool
                  then match updateQuestion sectionId qIndex options_
                               (Js.get data "options") prev1 with
                       | Some prev2 => Updated prev2
                       | None => OutOfModel
                       end
                  else Updated prev1
              end
        end
      else
        match updateQuestion sectionId qIndex text_
                (Js.Str (cleanText responseText)) prev with
        | Some prev1 => Updated prev1
        | None => OutOfModel
        end
  | Resolved _ | Rejected _ => Caught
  end.

(** The builder's state with the cell that marks a revision in flight. *)
Record BuilderState : Type := mkBuilder {
  app : AppState;
  improvingState : option (Z * nat * bool)
}.

Inductive improveResult : Type :=
| ImproveReturns (trace : list event) (b : BuilderState)
| ImproveThrows (b : BuilderState)
| ImproveOutOfModel.

(** A whole call with no other handler running during the [await]. The
    read of [question.text] sits before the [try]: on a missing question
    its [TypeError] escapes. *)
Definition handleImproveQuestion (JSON_parse : string -> option Js.value)
    (sectionId : Z) (qIndex : nat) (env : nat -> FetchOutcome)
    (b : BuilderState) : improveResult :=
  match find_section sectionId (sections (app b)) with
  | None => ImproveReturns [] b
  | Some section =>
      match questions section !! qIndex with
      | None => ImproveThrows b
      | Some question =>
          if negb (Js.truthy (text question)) then ImproveReturns [] b
          else
            let '(trace, reply) := callGemini env in
            match improveUpdates JSON_parse section sectionId qIndex reply
                    (sections (app b)) with
            | Updated newSections =>
                ImproveReturns trace (mkBuilder (setSections newSections (app b)) None)
            | Caught =>
                ImproveReturns trace (mkBuilder (alert improveFailed (app b)) None)
            | OutOfModel => ImproveOutOfModel
            end
      end
  end.

(** ** The low-context gate of the bulk fill *)

Section Gate.

Variable JSON_parse : string -> option Js.value.

(** [knowledgeContext] is the text of the knowledge bank, a cell of its
    own. *)
Definition initiateMagicFill (knowledgeContext : string) (sectionId : Z)
    (env : nat -> FetchOutcome) (st : AppState) : completion :=
  if String.eqb knowledgeContext "" then
    Returns (setShowLowContextWarning true
               (setPendingMagicSectionId (Some sectionId) st))
  else executeMagicFill JSON_parse (Some sectionId) env st.

(** The [onProceed] callback of the warning dialog. *)
Definition proceedAnyway (env : nat -> FetchOutcome) (st : AppState) : completion :=
  executeMagicFill JSON_parse (pendingMagicSectionId st) env st.

End Gate.

(** ** Durable state *)

(** [localStorage.getItem(key)] is a lookup in a finite map from keys to
    texts. [parse] stands for [JSON.parse] read at the type of the cell
    that receives the value; [None] is a [SyntaxError]. *)
Definition loadFromStorage {A : Type} (parse : string -> option A)
    (storage : gmap string string) (key : string) (defaultValue : A) : A :=
  match storage !! key with
  | Some saved =>
      if String.eqb saved "" then defaultValue
      else match parse saved with
           | Some v => v
           | None => defaultValue
           end
  | None => defaultValue
  end.

(** The model cells that are persisted, the prompt flag and the store. *)
Record Persisted : Type := mkPersisted {
  p_app : AppState;
  knowledgeContext : string;
  showRestorePrompt : bool;
  localStorage : gmap string string
}.

Section Persistence.

Variable stringifyMeta : Metadata -> string.
Variable parseMeta : string -> option Metadata.
Variable stringifySections : list PaperSection -> string.
Variable parseSections : string -> option (list PaperSection).
Variable stringifyKnowledge : string -> string.
Variable parseKnowledge : string -> option string.

(** The [defaultMeta] of the component; its academic year depends on the
    date. *)
Variable defaultMeta : Metadata.

(** The three auto-save effects, in the order written, for the state [p]
    of the render they belong to. *)
Definition autoSave (p : Persisted) : gmap string string :=
  if showRestorePrompt p then localStorage p
  else
    <["qpf_knowledge" := stringifyKnowledge (knowledgeContext p)]>
      (<["qpf_sections" := stringifySections (sections (p_app p))]>
         (<["qpf_meta" := stringifyMeta (meta (p_app p))]> (localStorage p))).

(** The effects of the first commit, run in the order written, each with
    the state [p] of the first render: the restore check only queues the
    new value of the flag, so the auto-save effects still see the old
    one. *)
Definition mountEffects (p : Persisted) : Persisted :=
  let hasData := match localStorage p !! "qpf_meta" with
                 | Some saved => negb (String.eqb saved "")
                 | None => false
                 end in
  mkPersisted (p_app p) (knowledgeContext p)
              (if hasData then true else showRestorePrompt p)
              (autoSave p).

(** The auto-save effects of a later render whose state is [p]. *)
Definition commitEffects (p : Persisted) : Persisted :=
  mkPersisted (p_app p) (knowledgeContext p) (showRestorePrompt p) (autoSave p).

Definition handleRestore (p : Persisted) : Persisted :=
  mkPersisted
    (setSections (loadFromStorage parseSections (localStorage p) "qpf_sections"
                                  defaultSections)
       (setMeta (loadFromStorage parseMeta (localStorage p) "qpf_meta" defaultMeta)
                (p_app p)))
    (loadFromStorage parseKnowledge (localStorage p) "qpf_knowledge" "")
    false (localStorage p).

(** [localStorage.clear()] *)
Definition handleDiscard (p : Persisted) : Persisted :=
  mkPersisted (p_app p) (knowledgeContext p) false ∅.

(** The texts written for the state [p] are not empty and read back as
    the values they were written from. *)
Definition codecFor (p : Persisted) : Prop :=
  stringifyMeta (meta (p_app p)) ≠ ""
  ∧ parseMeta (stringifyMeta (meta (p_app p))) = Some (meta (p_app p))
  ∧ stringifySections (sections (p_app p)) ≠ ""
  ∧ parseSections (stringifySections (sections (p_app p)))
    = Some (sections (p_app p))
  ∧ stringifyKnowledge (knowledgeContext p) ≠ ""
  ∧ parseKnowledge (stringifyKnowledge (knowledgeContext p))
    = Some (knowledgeContext p).

End Persistence.

(** ** Mixed text and formulas: [MixedTextRenderer] *)

(** The length of the longest prefix without a dollar sign: what the
    greedy [[^$]+] consumes. *)
Fixpoint dollar_free_run (s : string) : nat :=
  match s with
  | String c rest => if Ascii.eqb c "$" then O else S (dollar_free_run rest)
  | EmptyString => O
  end.

Fixpoint drop_chars (n : nat) (s : string) : string :=
  match n, s with
  | S k, String _ rest => drop_chars k rest
  | _, _ => s
  end.

(** A match of the pattern of [split] at the head of [s], as its length.
    The first alternative: two dollar signs, a non-empty run without
    dollar sign, two dollar signs; the second, tried when the first
    fails: one, such a run, one. A shorter run cannot help, since the
    character after it is not a dollar sign. *)
Definition match_block (s : string) : option nat :=
  match s with
  | String c1 (String c2 rest) =>
      let n := dollar_free_run rest in
      if (Ascii.eqb c1 "$" && Ascii.eqb c2 "$" && (0 <? n)%nat
          && String.prefix "$$" (drop_chars n rest))%bool
      then Some (n + 4)%nat else None
  | _ => None
  end.

Definition match_inline (s : string) : option nat :=
  match s with
  | String c1 rest =>
      let n := dollar_free_run rest in
      if (Ascii.eqb c1 "$" && (0 <? n)%nat
          && String.prefix "$" (drop_chars n rest))%bool
      then Some (n + 2)%nat else None
  | EmptyString => None
  end.

Definition match_math (s : string) : option nat :=
  match match_block s with
  | Some n => Some n
  | None => match_inline s
  end.

(** [text.split(/(...)/g)] with the one capture group: the texts between
    the matches and the matches, alternating. [skip] counts the
    characters of the current match still to be taken and [cur] holds, in
    reverse, the characters of the part being collected. *)
Fixpoint split_math_go (s : string) (skip : nat) (cur : list ascii) : list string :=
  match s with
  | EmptyString => [string_of_list_ascii (rev cur)]
  | String c rest =>
      match skip with
      | S (S k) => split_math_go rest (S k) (c :: cur)
      | S O => string_of_list_ascii (rev (c :: cur)) :: split_math_go rest 0 []
      | O =>
          match match_math s with
          | Some n => string_of_list_ascii (rev cur)
                      :: split_math_go rest (n - 1) [c]
          | None => split_math_go rest 0 (c :: cur)
          end
      end
  end.

Definition split_math (text : string) : list string := split_math_go text 0 [].

(** [part.endsWith(suffix)] *)
Definition endsWith (suffix part : string) : bool :=
  String.prefix (string_of_list_ascii (rev (list_ascii_of_string suffix)))
                (string_of_list_ascii (rev (list_ascii_of_string part))).

(** What one part is rendered as. *)
Inductive rendered : Type :=
| Katex (content : string) (block : bool)
| Span (part : string).

(** [part.slice(k, -k)] *)
Definition slice_both (k : nat) (part : string) : string :=
  String.substring k (String.length part - 2 * k) part.

Definition renderPart (part : string) : rendered :=
  if (String.prefix "$$" part && endsWith "$$" part)%bool
  then Katex (slice_both 2 part) true
  else if (String.prefix "$" part && endsWith "$" part)%bool
  then Katex (slice_both 1 part) false
  else Span part.

(** [None] is the [null] returned for an empty text. *)
Definition MixedTextRenderer (text : string) : option (list rendered) :=
  if String.eqb text "" then None else Some (renderPart <$> split_math text).

(** ** Vocabulary of the statements *)

(** The shape of a question made by the growth loop for [section]. *)
Definition isNewQuestion (section : PaperSection) (q : Question) : Prop :=
  text q = Js.Str ""
  ∧ options q = (if decide (type section = mcq)
                 then Js.Arr [Js.Str "Option A"; Js.Str "Option B";
                              Js.Str "Option C"; Js.Str "Option D"]
                 else Js.Arr [])
  ∧ image q = Js.Null
  ∧ co q = Js.Str "CO1"
  ∧ bloom q = Js.Str "R".

Definition isFetch (e : event) : bool :=
  match e with Fetch _ => true | Wait _ => false end.

(** A reply body that carries [text] as its candidate text. *)
Definition replyWith (text : Js.value) : Js.value :=
  Js.Obj [("candidates",
           Js.Arr [Js.Obj [("content",
                            Js.Obj [("parts", Js.Arr [Js.Obj [("text", text)]])])]])].

(** A time of day as the time input writes it. *)
Definition hhmm (h m : Z) : string := pad2 h ++ ":" ++ pad2 m.

(** The duration text expected for [d] minutes. *)
Definition durationSpec (d : Z) : string :=
  if (d =? 0)%Z then ""
  else if (d mod 60 =? 0)%Z then pretty (d / 60)%Z ++ " Hr"
  else if (d <? 60)%Z then pretty d ++ " Mins"
  else pretty (d / 60)%Z ++ " Hr " ++ pretty (d mod 60)%Z ++ " Mins".

Fixpoint has_char (c : ascii) (s : string) : bool :=
  match s with
  | EmptyString => false
  | String c' rest => Ascii.eqb c' c || has_char c rest
  end.

(** The facts about a two-digit numeral that the statements use, as a
    test that can be run. *)
Definition pad2_check (n : Z) : bool :=
  bool_decide (Number_ (pad2 n) = Some n)
  && bool_decide (parseInt10 (pad2 n) = Some n)
  && negb (has_char ":" (pad2 n))
  && negb (String.eqb (pad2 n) "").

Definition duration_check (d : Z) : bool :=
  String.eqb (durationText d) (durationSpec d).

Fixpoint all_chars (P : ascii -> bool) (s : string) : bool :=
  match s with
  | EmptyString => true
  | String c rest => P c && all_chars P rest
  end.

(** A character that is safe in a file name: [a-zA-Z0-9] or the
    underscore. *)
Definition is_safe (c : ascii) : bool := is_alnum c || Ascii.eqb c "_".

(** The question that a structured revision reply [data] makes of [q]. *)
Definition revisedQuestion (data : Js.value) (q : Question) : Question :=
  mkQuestion (q_id q) (Js.get data "text")
             (if is_array (Js.get data "options") then Js.get data "options"
              else options q)
             (image q) (co q) (bloom q).

(** The questions of all sections, in order. *)
Fixpoint allQuestions (secs : list PaperSection) : list Question :=
  match secs with
  | [] => []
  | s :: rest => questions s ++ allQuestions rest
  end.

(** The parts put together again. *)
Definition join (parts : list string) : string := foldr String.append "" parts.

(** The field holds the whole number [n]: a number written by the code,
    or a text typed in plain decimal digits. *)
Definition holdsWhole (v : NumberField) (n : Z) : Prop :=
  match v with
  | Whole m => m = n
  | NoNumber => False
  | Typed text =>
      all_digits text = true ∧ text ≠ "" ∧ digits_prefix None text = Some n
  end.

(** The field holds a whole number that is not negative. *)
Definition holdsCount (v : NumberField) : Prop :=
  ∃ n, (0 <= n)%Z ∧ holdsWhole v n.

(** [currentQs.length < section.qCount] and
    [currentQs.length > section.qCount], as the transition tests them. *)
Definition shorterThanCount (s : PaperSection) : bool :=
  lessThan (lengthOf (questions s)) (toNumber (qCount s)).

Definition longerThanCount (s : PaperSection) : bool :=
  lessThan (toNumber (qCount s)) (lengthOf (questions s)).

(** The question count is a whole number and the list has that length. *)
Definition fitsCount (s : PaperSection) : Prop :=
  ∃ n, holdsWhole (qCount s) n ∧ Z.of_nat (length (questions s)) = n.

(** [s.attemptCount <= s.qCount] *)
Definition withinCount (s : PaperSection) : bool :=
  atMost (toNumber (attemptCount s)) (toNumber (qCount s)).

(** A filled-in form and a start state, for the examples. *)
Definition sampleMeta : Metadata :=
  mkMeta "ITM (SLS) BARODA UNIVERSITY" "SOCSET" "CSE" "5" "AI" "2025-2026"
         "MST" "CS501" "Algorithms" "2025-11-03" "09:00" "10:30" "".

Definition sampleState (m : Metadata) : AppState :=
  mkState m defaultSections blueprint 1 None (false, None) false None [].

Definition sampleQuestion (n : Z) : Question :=
  mkQuestion (inject_Z n) (Js.Str "Define a heap.") (Js.Arr []) Js.Null
             (Js.Str "CO3") (Js.Str "AN").

(** A state whose sections hold questions, for the examples. *)
Definition filledSections : list PaperSection :=
  [ mkSection 1 "Q1" "Multiple Choice Questions" mcq (Whole 3) (Whole 3) (Whole 1)
      [ mkQuestion (inject_Z 1) (Js.Str "First stem") defaultOptions Js.Null
                   (Js.Str "CO3") (Js.Str "AN");
        mkQuestion (inject_Z 2) (Js.Str "Second stem") defaultOptions Js.Null
                   (Js.Str "CO2") (Js.Str "U");
        mkQuestion (inject_Z 3) (Js.Str "Third stem") defaultOptions Js.Null
                   (Js.Str "CO4") (Js.Str "E") ];
    mkSection 2 "Q2" "Short Notes / Answer" subjective
              (Whole 1) (Whole 1) (Whole 3) [sampleQuestion 4] ].

Definition filledState : AppState :=
  setSections filledSections (sampleState sampleMeta).

(** [s] between double quotes. *)
Definition quoted (s : string) : string :=
  String dquote (s ++ String dquote "").

Definition newline : string := String (ascii_of_nat 10) "".

(** A reply for the examples: the JSON text of a list of one question
    object and [null], in a code fence, and a reader that parses this
    text and raises on any other. *)
Definition sampleJson : string :=
  "[{" ++ quoted "text" ++ ":" ++ quoted "What is a heap?" ++ "},null]".

Definition sampleReply : string :=
  "```json" ++ newline ++ sampleJson ++ newline ++ "```".

Definition sampleParse (text : string) : option Js.value :=
  if String.eqb text sampleJson
  then Some (Js.Arr [Js.Obj [("text", Js.Str "What is a heap?")]; Js.Null])
  else None.

(** Identifiers drawn in increasing order. *)
Definition countingIds (n : nat) : Q := inject_Z (Z.of_nat n).

(** The default state after [text] was typed into the question count of
    section 2. *)
Definition typedInto (text : string) : AppState :=
  setSections (updateSection 2 (QCount text) defaultSections)
              (sampleState sampleMeta).

(** The state after the builder was opened on the default sections, the
    blueprint tab was opened again and [text] was typed into the question
    count of section 2. *)
Definition typedAfterBuild (text : string) : AppState :=
  let st := state_of (initializeBuilder countingIds (sampleState sampleMeta)) in
  setSections (updateSection 2 (QCount text) (sections st))
              (setActiveTab blueprint st).

(** A state whose lists do not fit the counts: section 1 has one question
    for a typed count of 3, section 2 has two questions for a count of
    1. *)
Definition unevenState : AppState :=
  setSections
    [ mkSection 1 "Q1" "Multiple Choice Questions" mcq
                (Typed "3") (Whole 3) (Whole 1) [sampleQuestion 1];
      mkSection 2 "Q2" "Short Notes / Answer" subjective
                (Whole 1) (Whole 1) (Whole 3)
                [sampleQuestion 2; sampleQuestion 3] ]
    (sampleState sampleMeta).

(** * Properties *)

(** ** The section setter *)

Lemma updateSection_lookup (id : Z) (fv : FieldValue) (prev : list PaperSection)
    (i : nat) (s : PaperSection) :
  prev !! i = Some s →
  updateSection id fv prev !! i
  = Some (if decide (s_id s ≠ id) then s else updateSection_at fv s).
Proof.
  intros Hi. unfold updateSection. by rewrite list_lookup_fmap, Hi.
Qed.

Lemma updateSection_length (id : Z) (fv : FieldValue) (prev : list PaperSection) :
  length (updateSection id fv prev) = length prev.
Proof. unfold updateSection. apply length_fmap. Qed.

Lemma updateSection_at_id (fv : FieldValue) (s : PaperSection) :
  s_id (updateSection_at fv s) = s_id s.
Proof.
  unfold updateSection_at.
  destruct fv; simpl; repeat case_decide; repeat case_match; reflexivity.
Qed.

(** *** Whole numbers and plain digits *)

Ltac by_ascii c :=
  destruct c as [[] [] [] [] [] [] [] []];
  vm_compute in *; try discriminate; try reflexivity.

Lemma lessThan_whole (a b : Z) :
  lessThan (Finite (inject_Z a)) (Finite (inject_Z b)) = (a <? b)%Z.
Proof.
  unfold lessThan, Qle_bool, inject_Z. simpl. rewrite !Z.mul_1_r.
  destruct (Z.leb_spec b a), (Z.ltb_spec a b); simpl; try reflexivity; lia.
Qed.

Lemma atMost_whole (a b : Z) :
  atMost (Finite (inject_Z a)) (Finite (inject_Z b)) = (a <=? b)%Z.
Proof.
  unfold atMost, Qle_bool, inject_Z. simpl. by rewrite !Z.mul_1_r.
Qed.

Lemma tripCount_whole (a b : Z) :
  tripCount (numMinus (Finite (inject_Z a)) (Finite (inject_Z b)))
  = Z.to_nat (a - b).
Proof.
  unfold tripCount, numMinus, Qceiling, Qfloor, Qminus, Qplus, Qopp, inject_Z.
  simpl. rewrite !Z.mul_1_r, Z.div_1_r. f_equal. lia.
Qed.

Lemma ToIntegerOrInfinity_whole (n : Z) :
  ToIntegerOrInfinity (Finite (inject_Z n)) = n.
Proof.
  unfold ToIntegerOrInfinity. rewrite Qfloor_Z, Qceiling_Z.
  by destruct (Qle_bool _ _).
Qed.

(** The trip count is that of the loop: the test [i < needed] holds for
    exactly the whole numbers [i] from 0 that are below the count. *)
Lemma tripCount_test (needed : number) (i : nat) :
  (i < tripCount needed)%nat
  ↔ lessThan (Finite (inject_Z (Z.of_nat i))) needed = true.
Proof.
  destruct needed as [| q]; simpl; [split; [lia | discriminate] |].
  rewrite negb_true_iff.
  pose proof (Qle_ceiling q) as Hup. pose proof (Qceiling_lt q) as Hlow.
  split.
  - intros Hi.
    destruct (Qle_bool q (inject_Z (Z.of_nat i))) eqn:Hle; [| reflexivity].
    apply Qle_bool_iff in Hle. exfalso.
    assert (inject_Z (Qceiling q - 1) < inject_Z (Z.of_nat i))%Q as Hlt
      by (eapply Qlt_le_trans; eassumption).
    rewrite <- Zlt_Qlt in Hlt. lia.
  - intros Hle.
    assert (inject_Z (Z.of_nat i) < q)%Q as Hlt.
    { apply Qnot_le_lt. intros H. apply Qle_bool_iff in H. congruence. }
    assert (inject_Z (Z.of_nat i) < inject_Z (Qceiling q))%Q as Hlt'
      by (eapply Qlt_le_trans; eassumption).
    rewrite <- Zlt_Qlt in Hlt'. lia.
Qed.

(** The two strict comparisons of the transition exclude each other. *)
Lemma lessThan_asym (a b : number) : lessThan a b = true → lessThan b a = false.
Proof.
  destruct a as [| p], b as [| q]; simpl; try done.
  intros Hlt. apply negb_true_iff in Hlt. apply negb_false_iff.
  apply Qle_bool_iff. destruct (Qlt_le_dec q p) as [Hqp | Hpq]; [| exact Hpq].
  apply Qlt_le_weak, Qle_bool_iff in Hqp. congruence.
Qed.

Lemma atMost_of_not_lessThan (p q : Q) :
  lessThan (Finite p) (Finite q) = false → atMost (Finite q) (Finite p) = true.
Proof. simpl. intros H. by apply negb_false_iff in H. Qed.

Lemma digit_not_space (c : ascii) (d : Z) :
  digit_of c = Some d → Js.is_space c = false.
Proof. intros H. by_ascii c. Qed.

Lemma digit_not_mark (c : ascii) (d : Z) :
  digit_of c = Some d →
  Ascii.eqb c "-" = false ∧ Ascii.eqb c "+" = false
  ∧ (Ascii.eqb c "x" || Ascii.eqb c "X")%bool = false
  ∧ (Ascii.eqb c "o" || Ascii.eqb c "O")%bool = false
  ∧ (Ascii.eqb c "b" || Ascii.eqb c "B")%bool = false
  ∧ Ascii.eqb c "." = false.
Proof. intros H. by_ascii c; repeat split. Qed.

Lemma all_digits_cons (c : ascii) (rest : string) :
  all_digits (String c rest) = true →
  ∃ d, digit_of c = Some d ∧ all_digits rest = true.
Proof. simpl. destruct (digit_of c) as [d |]; [eauto | discriminate]. Qed.

Lemma all_digits_no_space (t : string) :
  all_digits t = true →
  Forall (fun c => Js.is_space c = false) (list_ascii_of_string t).
Proof.
  induction t as [| c rest IH]; intros Hall; [constructor |].
  apply all_digits_cons in Hall as (d & Hd & Hrest). simpl.
  constructor; [by eapply digit_not_space | by apply IH].
Qed.

Lemma trim_start_id (l : list ascii) :
  Forall (fun c => Js.is_space c = false) l → Js.trim_start l = l.
Proof. intros [| c l' Hc _]; [done |]. simpl. by rewrite Hc. Qed.

Lemma trim_digits (t : string) : all_digits t = true → Js.trim t = t.
Proof.
  intros Hall. apply all_digits_no_space in Hall. unfold Js.trim.
  rewrite (trim_start_id _ Hall).
  rewrite (trim_start_id (rev _)) by (by apply List.Forall_rev).
  by rewrite rev_involutive, string_of_list_ascii_of_string.
Qed.

Lemma read_digits_all (t : string) (acc : Z) :
  all_digits t = true →
  ∃ v, digits_prefix (Some acc) t = Some v
       ∧ read_digits acc t = (v, String.length t, "").
Proof.
  revert acc. induction t as [| c rest IH]; intros acc Hall.
  - exists acc. by simpl.
  - apply all_digits_cons in Hall as (d & Hd & Hrest). simpl. rewrite Hd.
    destruct (IH (10 * acc + d)%Z Hrest) as (v & Hv & Hr).
    exists v. simpl. by rewrite Hv, Hr.
Qed.

Lemma digits_prefix_start (t : string) :
  t ≠ "" → all_digits t = true →
  digits_prefix None t = digits_prefix (Some 0%Z) t.
Proof.
  destruct t as [| c rest]; [done |]. intros _ Hall.
  apply all_digits_cons in Hall as (d & Hd & _). simpl. by rewrite Hd.
Qed.

Lemma digits_prefix_nonneg (t : string) (acc v : Z) :
  (0 <= acc)%Z → digits_prefix (Some acc) t = Some v → (0 <= v)%Z.
Proof.
  revert acc. induction t as [| c rest IH]; intros acc Hacc; simpl.
  - intros [= <-]. exact Hacc.
  - destruct (digit_of c) as [d |] eqn:Hd; [| intros [= <-]; exact Hacc].
    apply IH. unfold digit_of in Hd.
    destruct (_ && _)%bool; [| discriminate]. injection Hd as <-. lia.
Qed.

(** A text of plain digits is read as the same whole number by the
    numeric coercion and by [parseInt]. *)
Lemma StringToNumber_digits (t : string) (n : Z) :
  all_digits t = true → t ≠ "" → digits_prefix None t = Some n →
  StringToNumber t = Finite (inject_Z n).
Proof.
  intros Hall Hne Hn. unfold StringToNumber. rewrite (trim_digits t Hall).
  rewrite (digits_prefix_start t Hne Hall) in Hn.
  destruct (read_digits_all t 0 Hall) as (v & Hv & Hr).
  rewrite Hn in Hv. injection Hv as <-.
  destruct t as [| c rest]; [done |].
  pose proof Hall as Hall'.
  apply all_digits_cons in Hall' as (d & Hd & Hrest).
  destruct (digit_not_mark c d Hd) as (-> & -> & _).
  assert (radix_of (String c rest) = None) as ->.
  { unfold radix_of. destruct rest as [| x rest']; [done |].
    apply all_digits_cons in Hrest as (d' & Hd' & _).
    destruct (digit_not_mark x d' Hd') as (_ & _ & -> & -> & -> & _).
    by destruct (Ascii.eqb c "0"). }
  unfold signed_literal, decimal_literal. rewrite Hr. simpl.
  unfold scale10. simpl. do 2 f_equal. lia.
Qed.

Lemma parseInt_text_digits (t : string) (n : Z) :
  all_digits t = true → t ≠ "" → digits_prefix None t = Some n →
  parseInt_text t = Some n.
Proof.
  intros Hall Hne Hn. destruct t as [| c rest]; [done |].
  pose proof Hall as Hall'.
  apply all_digits_cons in Hall' as (d & Hd & Hrest).
  unfold parseInt_text. cbn [skip_space].
  rewrite (digit_not_space c d Hd).
  destruct (digit_not_mark c d Hd) as (-> & -> & _).
  destruct rest as [| x rest'].
  - by rewrite Hn.
  - apply all_digits_cons in Hrest as (d' & Hd' & _).
    destruct (digit_not_mark x d' Hd') as (_ & _ & -> & _).
    rewrite andb_false_r. by rewrite Hn.
Qed.

Lemma holdsWhole_toNumber (v : NumberField) (n : Z) :
  holdsWhole v n → toNumber v = Finite (inject_Z n).
Proof.
  destruct v as [m | | t]; simpl; [by intros -> | done |].
  intros (Hall & Hne & Hn). by apply StringToNumber_digits.
Qed.

Lemma holdsWhole_parseInt (v : NumberField) (n : Z) :
  holdsWhole v n → parseInt v = Whole n.
Proof.
  destruct v as [m | | t]; simpl; [by intros -> | done |].
  intros (Hall & Hne & Hn). by rewrite (parseInt_text_digits t n).
Qed.

Lemma holdsWhole_typed_nonneg (t : string) (n : Z) :
  holdsWhole (Typed t) n → (0 <= n)%Z.
Proof.
  intros (Hall & Hne & Hn). rewrite (digits_prefix_start t Hne Hall) in Hn.
  by apply (digits_prefix_nonneg t 0 n).
Qed.

(** *** The attempt count of a multiple-choice section *)

(** Whenever the updated section is multiple-choice, whatever the field,
    its attempt count is what [parseInt] reads from its question count. *)
Lemma updateSection_at_mcq (fv : FieldValue) (s : PaperSection) :
  type (updateSection_at fv s) = mcq →
  attemptCount (updateSection_at fv s) = parseInt (qCount (updateSection_at fv s)).
Proof.
  unfold updateSection_at.
  destruct (decide (type (assign s fv) = mcq)) as [Hm | Hn].
  - intros _. reflexivity.
  - intros Hty. exfalso. apply Hn.
    destruct fv; simpl in *; try exact Hty.
    destruct (lessThan _ _); exact Hty.
Qed.

(** C1 (the code departs from the claim): on the default sections, typing
    10 into the attempt count of section 2, a subjective section with four
    questions, is stored as typed; the resulting section has the attempt
    count 10 above the question count 4. *)
Theorem updateSection_attemptCount_unclamped :
  ∃ s', updateSection 2 (AttemptCount "10") defaultSections !! 1%nat = Some s'
        ∧ type s' = subjective
        ∧ qCount s' = Whole 4
        ∧ attemptCount s' = Typed "10"
        ∧ toNumber (qCount s') = Finite (inject_Z 4)
        ∧ toNumber (attemptCount s') = Finite (inject_Z 10)
        ∧ withinCount s' = false.
Proof.
  eexists. split; [reflexivity |]. simpl.
  repeat split; vm_compute; reflexivity.
Qed.

(** C2 as stated fails: on the default sections, typing 2.5 into the
    question count of section 1, a multiple-choice section, stores the
    text and sets the attempt count to what [parseInt] reads from it, 2;
    right after the mutation the attempt count is not the question
    count. *)
Lemma updateSection_mcq_fraction_truncated :
  ∃ s', updateSection 1 (QCount "2.5") defaultSections !! 0%nat = Some s'
        ∧ type s' = mcq
        ∧ qCount s' = Typed "2.5"
        ∧ attemptCount s' = Whole 2
        ∧ toNumber (qCount s') = Finite (25 # 10)
        ∧ toNumber (attemptCount s') = Finite (inject_Z 2)
        ∧ ¬ (inject_Z 2 == 25 # 10)%Q.
Proof.
  eexists. split; [reflexivity |]. simpl.
  repeat split; try (vm_compute; reflexivity). intros H. discriminate H.
Qed.

(** C2, amended: after [updateSection] changes the type or the question
    count of a section, the typed count is stored as it is, and a section
    that is then multiple-choice has as its attempt count what [parseInt]
    reads from its question count; that is the question count itself
    whenever the question count is a whole number or was typed in plain
    digits. Setting the type to multiple-choice sets the attempt count
    from the current question count, and on a multiple-choice section a
    new question count sets it from the new count. *)
Theorem updateSection_mcq_attempts_all (id : Z) (fv : FieldValue)
    (prev : list PaperSection) (i : nat) (s : PaperSection) :
  prev !! i = Some s →
  s_id s = id →
  ((∃ v, fv = Type_ v) ∨ (∃ v, fv = QCount v)) →
  ∃ s', updateSection id fv prev !! i = Some s'
        ∧ (type s' = mcq →
           attemptCount s' = parseInt (qCount s')
           ∧ ∀ n, holdsWhole (qCount s') n →
                  attemptCount s' = Whole n
                  ∧ toNumber (qCount s') = Finite (inject_Z n)
                  ∧ toNumber (attemptCount s') = toNumber (qCount s'))
        ∧ (fv = Type_ mcq →
           type s' = mcq ∧ qCount s' = qCount s
           ∧ attemptCount s' = parseInt (qCount s))
        ∧ (∀ v, type s = mcq → fv = QCount v →
           type s' = mcq ∧ qCount s' = Typed v
           ∧ attemptCount s' = parseInt (Typed v)).
Proof.
  intros Hi Hid _. exists (updateSection_at fv s). split.
  - rewrite (updateSection_lookup id fv prev i s Hi).
    destruct (decide (s_id s ≠ id)); [contradiction | reflexivity].
  - split; [| split].
    + intros Hty. pose proof (updateSection_at_mcq fv s Hty) as Hp.
      split; [exact Hp |]. intros n Hn.
      rewrite Hp, (holdsWhole_parseInt _ n Hn), (holdsWhole_toNumber _ n Hn).
      by repeat split.
    + intros ->. unfold updateSection_at. simpl. auto.
    + intros v Hty ->. unfold updateSection_at. simpl.
      destruct (decide (type s = mcq)); [simpl; auto | contradiction].
Qed.

Lemma updateSection_mcq_attempts_all_witness :
  ∃ s', updateSection 1 (QCount "8") defaultSections !! 0%nat = Some s'
        ∧ type s' = mcq
        ∧ qCount s' = Typed "8"
        ∧ attemptCount s' = Whole 8
        ∧ toNumber (qCount s') = Finite (inject_Z 8).
Proof.
  destruct (updateSection_mcq_attempts_all 1 (QCount "8") defaultSections 0
              (mkSection 1 "Q1" "Multiple Choice Questions" mcq
                         (Whole 6) (Whole 6) (Whole 1) []))
    as (s' & Hs' & Hmcq & _ & Hnew).
  - reflexivity.
  - reflexivity.
  - right. exists "8". reflexivity.
  - destruct (Hnew "8" eq_refl eq_refl) as (Hty & Hq & _).
    destruct (Hmcq Hty) as (_ & Hwhole).
    destruct (Hwhole 8%Z) as (Ha & Hn & _).
    { rewrite Hq. simpl. repeat split. discriminate. }
    exists s'. by repeat split.
Defined.

(** ** Section identifiers *)

Lemma Math_max0_nonneg (xs : list Z) : (0 <= Math_max0 xs)%Z.
Proof. induction xs as [| x xs IH]; simpl; lia. Qed.

Lemma Math_max0_upper (xs : list Z) (x : Z) :
  x ∈ xs → (x <= Math_max0 xs)%Z.
Proof.
  induction xs as [| y xs IH]; intros Hin.
  - by apply not_elem_of_nil in Hin.
  - apply elem_of_cons in Hin as [-> | Hin]; simpl; [lia |].
    specialize (IH Hin). lia.
Qed.

Lemma addSection_sections (st : AppState) :
  sections (addSection st)
  = (sections st
     ++ [mkSection (Math_max0 (s_id <$> sections st) + 1)
                   ("Q" ++ pretty (length (sections st) + 1)%nat)
                   "Subjective Questions" subjective (Whole 3) (Whole 3) (Whole 5) []])%list.
Proof. unfold addSection. by case_decide. Qed.

Lemma addSection_NoDup (st : AppState) :
  NoDup (s_id <$> sections st) → NoDup (s_id <$> sections (addSection st)).
Proof.
  intros Hnd. rewrite addSection_sections, fmap_app. simpl.
  apply NoDup_app. split; [exact Hnd |]. split.
  - intros x Hx Hin. apply list_elem_of_singleton in Hin.
    apply Math_max0_upper in Hx. lia.
  - apply NoDup_singleton.
Qed.

Lemma deleteSection_sublist (id : Z) (st : AppState) :
  sections (state_of (deleteSection id st)) `sublist_of` sections st.
Proof.
  unfold deleteSection.
  destruct (1 <? length (sections st))%nat; [| done].
  pose proof (sublist_filter (fun s => s_id s ≠ id) (sections st)) as Hsub.
  case_decide; [| exact Hsub].
  destruct (filter _ (sections st)) eqn:Hf; simpl; exact Hsub.
Qed.

Lemma deleteSection_NoDup (id : Z) (st : AppState) :
  NoDup (s_id <$> sections st) →
  NoDup (s_id <$> sections (state_of (deleteSection id st))).
Proof.
  intros Hnd. eapply sublist_NoDup; [exact Hnd |].
  apply fmap_sublist, deleteSection_sublist.
Qed.

Lemma runOps_NoDup (ops : list SectionOp) (st : AppState) :
  NoDup (s_id <$> sections st) → NoDup (s_id <$> sections (runOps ops st)).
Proof.
  revert st. induction ops as [| op ops IH]; intros st Hnd; [exact Hnd |].
  apply IH. destruct op; [by apply addSection_NoDup | by apply deleteSection_NoDup].
Qed.

(** C10: [addSection] appends one section whose id is one more than the
    maximum of 0 and the existing ids, hence at least 1 and above every
    existing id; and after any sequence of additions and deletions that
    starts from the default sections, the section ids are pairwise
    distinct. *)
Theorem addSection_id_fresh :
  (∀ st : AppState,
     ∃ new, sections (addSection st) = (sections st ++ [new])%list
            ∧ s_id new = (Math_max0 (s_id <$> sections st) + 1)%Z
            ∧ (1 <= s_id new)%Z
            ∧ Forall (fun s => (s_id s < s_id new)%Z) (sections st))
  ∧ (∀ (st : AppState) (ops : list SectionOp),
       NoDup (s_id <$> sections (runOps ops (setSections defaultSections st)))).
Proof.
  split.
  - intros st. eexists. split; [apply addSection_sections |]. simpl.
    split; [reflexivity |]. split.
    + pose proof (Math_max0_nonneg (s_id <$> sections st)). lia.
    + apply Forall_forall. intros s Hs.
      assert (s_id s ∈ s_id <$> sections st) as Hin
        by (apply list_elem_of_fmap; eauto).
      apply Math_max0_upper in Hin. lia.
  - intros st ops. apply runOps_NoDup. simpl.
    apply NoDup_cons. split.
    + intros Hin. apply list_elem_of_singleton in Hin. discriminate.
    + apply NoDup_singleton.
Qed.

(** ** Validation of the transition *)

Ltac required_field f m :=
  destruct (String.eqb_spec (f m) "") as [? | ?];
  [ split; [ discriminate | intros ?; exfalso; tauto ] | simpl ].

Lemma missing_nil_iff (m : Metadata) : missing m = [] ↔ requiredFilled m.
Proof.
  unfold missing, requiredFilled, requiredFields. simpl.
  required_field schoolName m.
  required_field branch m.
  required_field semester m.
  required_field academicYear m.
  required_field examType m.
  required_field courseCode m.
  required_field courseName m.
  required_field examDate m.
  required_field startTime m.
  required_field endTime m.
  required_field specializations m.
  split; [tauto | reflexivity].
Qed.

(** C5: the transition tests the eleven required fields and no other; when
    one of them is empty it returns with the one validation message set
    and every other cell (metadata, sections with their questions, active
    tab, active section) as before; when all are filled it is not blocked,
    whatever the other fields hold. *)
Theorem initializeBuilder_validation (ids : nat -> Q) (st : AppState) :
  requiredFields
  = [ "schoolName"; "branch"; "semester"; "academicYear"; "examType";
      "courseCode"; "courseName"; "examDate"; "startTime"; "endTime";
      "specializations" ]
  ∧ (¬ requiredFilled (meta st) →
     initializeBuilder ids st
     = Returns (setValidationError (Some validationMessage) st)
     ∧ meta (state_of (initializeBuilder ids st)) = meta st
     ∧ sections (state_of (initializeBuilder ids st)) = sections st
     ∧ activeTab (state_of (initializeBuilder ids st)) = activeTab st
     ∧ activeSectionId (state_of (initializeBuilder ids st)) = activeSectionId st
     ∧ validationError (state_of (initializeBuilder ids st))
       = Some validationMessage)
  ∧ (requiredFilled (meta st) →
     validationError (state_of (initializeBuilder ids st)) = None
     ∧ activeTab (state_of (initializeBuilder ids st)) = builder
     ∧ meta (state_of (initializeBuilder ids st)) = meta st).
Proof.
  split; [reflexivity |]. split.
  - intros Hno.
    assert (initializeBuilder ids st
            = Returns (setValidationError (Some validationMessage) st)) as ->.
    { unfold initializeBuilder. destruct (missing (meta st)) eqn:Hm; [| reflexivity].
      exfalso. apply Hno. by apply missing_nil_iff. }
    simpl. repeat split; reflexivity.
  - intros Hall. apply missing_nil_iff in Hall. unfold initializeBuilder.
    rewrite Hall.
    destruct (find_section _ _); [simpl; auto |].
    destruct (reconcileAll _ _ _); simpl; auto.
Qed.

Lemma sampleMeta_filled : requiredFilled sampleMeta.
Proof. unfold requiredFilled. simpl. repeat split; discriminate. Qed.

Lemma initializeBuilder_validation_witness :
  (initializeBuilder (fun _ => 0%Q)
     (sampleState (mkMeta "U" "" "" "" "" "" "" "" "" "" "" "" ""))
   = Returns (setValidationError (Some validationMessage)
        (sampleState (mkMeta "U" "" "" "" "" "" "" "" "" "" "" "" ""))))
  ∧ activeTab (state_of (initializeBuilder (fun _ => 0%Q) (sampleState sampleMeta)))
    = builder.
Proof.
  split.
  - apply (initializeBuilder_validation (fun _ => 0%Q)
             (sampleState (mkMeta "U" "" "" "" "" "" "" "" "" "" "" "" ""))).
    unfold requiredFilled. simpl. intros [H _]. by apply H.
  - apply (initializeBuilder_validation (fun _ => 0%Q) (sampleState sampleMeta)).
    exact sampleMeta_filled.
Defined.

(** ** Reconciliation of the question lists *)

Lemma pushQuestions_spec (ids : nat -> Q) (section : PaperSection)
    (needed k : nat) (currentQs : list Question) :
  ∃ news, pushQuestions ids section needed k currentQs
          = ((currentQs ++ news)%list, (k + needed)%nat)
          ∧ length news = needed
          ∧ Forall (isNewQuestion section) news.
Proof.
  revert k currentQs. induction needed as [| n IH]; intros k currentQs; simpl.
  - exists []. rewrite app_nil_r, Nat.add_0_r. by repeat split.
  - destruct (IH (S k) (currentQs ++ [newQuestion (ids k) section])%list)
      as (news & -> & Hlen & Hall).
    exists (newQuestion (ids k) section :: news).
    rewrite <- app_assoc. simpl. split; [f_equal; lia |]. split; [by rewrite Hlen |].
    constructor; [| exact Hall]. by repeat split.
Qed.

Lemma slice0_prefix {A} (xs : list A) (e : Z) :
  ∃ n, (n <= length xs)%nat ∧ slice0 xs e = take n xs
       ∧ ((0 <= e <= Z.of_nat (length xs))%Z → Z.of_nat n = e).
Proof.
  unfold slice0.
  destruct (Z.ltb_spec e 0) as [Hneg | Hpos].
  - exists (Z.to_nat (Z.max (Z.of_nat (length xs) + e) 0)).
    split; [lia |]. split; [reflexivity | lia].
  - exists (Z.to_nat (Z.min e (Z.of_nat (length xs)))).
    split; [lia |]. split; [reflexivity | lia].
Qed.

(** What [reconcile] does to one section, by the three cases of the
    source. *)
Lemma reconcile_spec (ids : nat -> Q) (s : PaperSection) (k : nat) :
  ∃ qs, fst (reconcile ids s k) = set_questions qs s
    ∧ (shorterThanCount s = true →
       ∃ news, qs = (questions s ++ news)%list
               ∧ length news
                 = tripCount (numMinus (toNumber (qCount s))
                                       (lengthOf (questions s)))
               ∧ Forall (isNewQuestion s) news)
    ∧ (longerThanCount s = true →
       ∃ n, (n <= length (questions s))%nat ∧ qs = take n (questions s)
            ∧ qs = slice0 (questions s)
                          (ToIntegerOrInfinity (toNumber (qCount s))))
    ∧ (shorterThanCount s = false → longerThanCount s = false →
       qs = questions s).
Proof.
  unfold reconcile, shorterThanCount, longerThanCount.
  destruct (lessThan (lengthOf (questions s)) (toNumber (qCount s))) eqn:Hlt.
  - destruct (pushQuestions_spec ids s
                (tripCount (numMinus (toNumber (qCount s))
                                     (lengthOf (questions s)))) k
                (questions s)) as (news & -> & Hlen & Hall).
    exists (questions s ++ news)%list. simpl. split; [reflexivity |].
    rewrite (lessThan_asym _ _ Hlt).
    split; [| split; [discriminate | discriminate]].
    intros _. exists news. by repeat split.
  - destruct (lessThan (toNumber (qCount s)) (lengthOf (questions s))) eqn:Hgt.
    + exists (slice0 (questions s) (ToIntegerOrInfinity (toNumber (qCount s)))).
      simpl. split; [reflexivity |].
      split; [discriminate |]. split; [| discriminate].
      intros _.
      destruct (slice0_prefix (questions s)
                  (ToIntegerOrInfinity (toNumber (qCount s))))
        as (n & Hn & Htake & _).
      exists n. by repeat split.
    + exists (questions s). simpl. split; [reflexivity |].
      split; [discriminate |]. split; [discriminate | reflexivity].
Qed.

Lemma reconcileAll_lookup (ids : nat -> Q) (secs : list PaperSection)
    (k : nat) (i : nat) (s : PaperSection) :
  secs !! i = Some s →
  ∃ k', reconcileAll ids secs k !! i = Some (fst (reconcile ids s k')).
Proof.
  revert k i. induction secs as [| s0 secs IH]; intros k i Hi; [done |].
  simpl. destruct (reconcile ids s0 k) as [s0' k0] eqn:Hr.
  destruct i as [| i]; simpl in *.
  - injection Hi as ->. exists k. by rewrite Hr.
  - by apply IH.
Qed.

Lemma reconcileAll_length (ids : nat -> Q) (secs : list PaperSection) (k : nat) :
  length (reconcileAll ids secs k) = length secs.
Proof.
  revert k. induction secs as [| s0 secs IH]; intros k; [done |].
  simpl. destruct (reconcile ids s0 k). simpl. by rewrite IH.
Qed.

Lemma initializeBuilder_sections (ids : nat -> Q) (st : AppState) :
  requiredFilled (meta st) →
  sections (state_of (initializeBuilder ids st))
  = reconcileAll ids (sections st) 0.
Proof.
  intros Hall. apply missing_nil_iff in Hall. unfold initializeBuilder.
  rewrite Hall. destruct (find_section _ _); [reflexivity |].
  destruct (reconcileAll _ _ _); reflexivity.
Qed.

(** With a whole question count that is not negative, the lengths match
    after [reconcile]. *)
Lemma reconcile_length (ids : nat -> Q) (s : PaperSection) (k : nat) (n : Z) :
  holdsWhole (qCount s) n → (0 <= n)%Z →
  Z.of_nat (length (questions (fst (reconcile ids s k)))) = n.
Proof.
  intros Hn Hpos. unfold reconcile, lengthOf.
  rewrite (holdsWhole_toNumber _ n Hn), !lessThan_whole, tripCount_whole,
    ToIntegerOrInfinity_whole.
  destruct (Z.ltb_spec (Z.of_nat (length (questions s))) n) as [Hlt | Hge].
  - destruct (pushQuestions_spec ids s
                (Z.to_nat (n - Z.of_nat (length (questions s)))) k
                (questions s)) as (news & -> & Hlen & _).
    simpl. rewrite length_app, Hlen. lia.
  - destruct (Z.ltb_spec n (Z.of_nat (length (questions s)))) as [Hgt | Hle].
    + simpl. unfold slice0. destruct (Z.ltb_spec n 0); [lia |].
      rewrite length_take. lia.
    + simpl. lia.
Qed.

(** C3 as stated fails: typing 2.5 into the question count of section 2
    of the default sections and opening the builder appends three
    questions to the empty list, one for each of 0, 1 and 2, which are
    below 2.5; the lengths do not match, and the next transition cuts the
    list to two questions. *)
Lemma initializeBuilder_fraction_overshoots :
  ∃ s' s'',
    requiredFilled (meta (typedInto "2.5"))
    ∧ sections (state_of (initializeBuilder countingIds (typedInto "2.5")))
        !! 1%nat = Some s'
    ∧ sections (state_of (initializeBuilder countingIds
                            (state_of (initializeBuilder countingIds
                                         (typedInto "2.5")))))
        !! 1%nat = Some s''
    ∧ qCount s' = Typed "2.5"
    ∧ toNumber (qCount s') = Finite (25 # 10)
    ∧ length (questions s') = 3%nat
    ∧ length (questions s'') = 2%nat
    ∧ ¬ (inject_Z 3 == 25 # 10)%Q
    ∧ ¬ (inject_Z 2 == 25 # 10)%Q.
Proof.
  eexists. eexists.
  split; [unfold requiredFilled; simpl; repeat split; discriminate |].
  split; [vm_compute; reflexivity |].
  split; [vm_compute; reflexivity |].
  repeat split; try (vm_compute; reflexivity); intros H; discriminate H.
Qed.

(** C3, amended: when the required fields are filled, the transition
    keeps the number and the configuration of the sections and, for every
    section: a question list shorter than the question count is extended
    at its end, by one question for every whole number from 0 below the
    difference, each with empty text, the four default options in a
    multiple-choice section and no option otherwise, no image, outcome
    tag CO1 and cognitive tag R (Remember); a longer list is cut to a
    prefix; a list that is neither stays; whenever the question count is
    a whole number that is not negative (a number, or typed in plain
    digits) the list has that length afterwards; and every question found
    afterwards at a position that existed before is the question that was
    there. *)
Theorem initializeBuilder_reconciles (ids : nat -> Q) (st : AppState)
    (i : nat) (s : PaperSection) :
  requiredFilled (meta st) →
  sections st !! i = Some s →
  length (sections (state_of (initializeBuilder ids st))) = length (sections st)
  ∧ ∃ s', sections (state_of (initializeBuilder ids st)) !! i = Some s'
      ∧ s' = set_questions (questions s') s
      ∧ (shorterThanCount s = true →
         ∃ news, questions s' = (questions s ++ news)%list
                 ∧ length news
                   = tripCount (numMinus (toNumber (qCount s))
                                         (lengthOf (questions s)))
                 ∧ Forall (isNewQuestion s) news)
      ∧ (longerThanCount s = true →
         ∃ n, (n <= length (questions s))%nat
              ∧ questions s' = take n (questions s)
              ∧ questions s'
                = slice0 (questions s)
                         (ToIntegerOrInfinity (toNumber (qCount s))))
      ∧ (shorterThanCount s = false → longerThanCount s = false →
         questions s' = questions s)
      ∧ (∀ n, holdsWhole (qCount s) n → (0 <= n)%Z →
              Z.of_nat (length (questions s')) = n)
      ∧ (∀ j q, (j < length (questions s))%nat →
                questions s' !! j = Some q → questions s !! j = Some q).
Proof.
  intros Hall Hi. rewrite (initializeBuilder_sections ids st Hall).
  split; [apply reconcileAll_length |].
  destruct (reconcileAll_lookup ids (sections st) 0 i s Hi) as [k Hk].
  pose proof (reconcile_length ids s k) as Hwhole.
  destruct (reconcile_spec ids s k) as (qs & Hfst & Hgrow & Hcut & Hsame).
  exists (fst (reconcile ids s k)). split; [exact Hk |].
  rewrite Hfst in *. simpl in *. split; [reflexivity |].
  split; [exact Hgrow |]. split; [exact Hcut |]. split; [exact Hsame |].
  split; [exact Hwhole |].
  intros j q Hj Hq.
  destruct (shorterThanCount s) eqn:Hshort.
  - destruct (Hgrow eq_refl) as (news & -> & _ & _).
    by rewrite lookup_app_l in Hq.
  - destruct (longerThanCount s) eqn:Hlong.
    + destruct (Hcut eq_refl) as (n & _ & -> & _).
      apply lookup_take_Some in Hq. tauto.
    + by rewrite (Hsame eq_refl eq_refl) in Hq.
Qed.

Lemma initializeBuilder_reconciles_witness :
  (∃ s', sections (state_of (initializeBuilder countingIds unevenState))
           !! 0%nat = Some s'
         ∧ length (questions s') = 3%nat
         ∧ questions s' !! 0%nat = Some (sampleQuestion 1))
  ∧ (∃ s', sections (state_of (initializeBuilder countingIds unevenState))
             !! 1%nat = Some s'
           ∧ questions s' = [sampleQuestion 2]).
Proof.
  split.
  - destruct (initializeBuilder_reconciles countingIds unevenState 0
                (mkSection 1 "Q1" "Multiple Choice Questions" mcq
                           (Typed "3") (Whole 3) (Whole 1) [sampleQuestion 1]))
      as (_ & s' & Hs' & _ & Hgrow & _ & _ & Hwhole & _).
    + unfold requiredFilled. simpl. repeat split; discriminate.
    + reflexivity.
    + exists s'. split; [exact Hs' |]. split.
      * assert (Z.of_nat (length (questions s')) = 3%Z) as Hlen; [| lia].
        apply Hwhole; [| lia]. simpl. repeat split. discriminate.
      * destruct Hgrow as (news & -> & _); [vm_compute; reflexivity |].
        reflexivity.
  - destruct (initializeBuilder_reconciles countingIds unevenState 1
                (mkSection 2 "Q2" "Short Notes / Answer" subjective
                           (Whole 1) (Whole 1) (Whole 3)
                           [sampleQuestion 2; sampleQuestion 3]))
      as (_ & s' & Hs' & _ & _ & Hcut & _ & Hwhole & _).
    + unfold requiredFilled. simpl. repeat split; discriminate.
    + reflexivity.
    + exists s'. split; [exact Hs' |].
      destruct Hcut as (n & _ & Htake & _); [vm_compute; reflexivity |].
      assert (Z.of_nat (length (questions s')) = 1%Z) as Hlen
        by (apply Hwhole; [reflexivity | lia]).
      rewrite Htake in *.
      destruct n as [| [| n]]; simpl in Hlen; try lia. reflexivity.
Defined.

Lemma set_questions_same (s : PaperSection) : set_questions (questions s) s = s.
Proof. by destruct s. Qed.

Lemma reconcile_fixed (ids : nat -> Q) (s : PaperSection) (k : nat) (n : Z) :
  holdsWhole (qCount s) n → Z.of_nat (length (questions s)) = n →
  reconcile ids s k = (s, k).
Proof.
  intros Hn Heq. unfold reconcile, lengthOf.
  rewrite (holdsWhole_toNumber _ n Hn), !lessThan_whole, Heq, Z.ltb_irrefl.
  by rewrite set_questions_same.
Qed.

Lemma reconcileAll_fixed (ids : nat -> Q) (secs : list PaperSection) (k : nat) :
  Forall fitsCount secs → reconcileAll ids secs k = secs.
Proof.
  intros Hall. revert k.
  induction Hall as [| s secs (n & Hn & Hs) _ IH]; intros k; [done |].
  simpl. rewrite (reconcile_fixed ids s k n Hn Hs). by rewrite IH.
Qed.

Lemma reconcile_qCount (ids : nat -> Q) (s : PaperSection) (k : nat) :
  qCount (fst (reconcile ids s k)) = qCount s.
Proof.
  destruct (reconcile_spec ids s k) as (qs & -> & _). reflexivity.
Qed.

Lemma reconcileAll_matches (ids : nat -> Q) (secs : list PaperSection) (k : nat) :
  Forall (fun s => holdsCount (qCount s)) secs →
  Forall fitsCount (reconcileAll ids secs k).
Proof.
  intros Hall. revert k.
  induction Hall as [| s secs (n & Hpos & Hn) _ IH]; intros k; [constructor |].
  simpl. pose proof (reconcile_length ids s k n Hn Hpos) as Hlen.
  pose proof (reconcile_qCount ids s k) as Hq.
  destruct (reconcile ids s k) as [s' k']. simpl in *.
  constructor; [| apply IH]. exists n. by rewrite Hq.
Qed.

Lemma find_section_head (first : PaperSection) (rest : list PaperSection) :
  find_section (s_id first) (first :: rest) = Some first.
Proof. unfold find_section. simpl. by rewrite bool_decide_eq_true_2. Qed.

(** C4 as stated fails: with the required fields filled, open the builder
    on the default sections, go back and type -1 into the question count
    of section 2, which then has four questions. Each further transition
    drops the last question of that section: after one there are three,
    after two there are two. *)
Lemma initializeBuilder_negative_count_not_idempotent :
  requiredFilled (meta (typedAfterBuild "-1"))
  ∧ (fun s => (qCount s, length (questions s))) <$> sections (typedAfterBuild "-1")
    = [(Whole 6, 6%nat); (Typed "-1", 4%nat)]
  ∧ (fun s => length (questions s))
      <$> sections (state_of (initializeBuilder countingIds (typedAfterBuild "-1")))
    = [6%nat; 3%nat]
  ∧ (fun s => length (questions s))
      <$> sections (state_of (initializeBuilder countingIds
                                (state_of (initializeBuilder countingIds
                                             (typedAfterBuild "-1")))))
    = [6%nat; 2%nat]
  ∧ questions
      <$> sections (state_of (initializeBuilder countingIds
                                (state_of (initializeBuilder countingIds
                                             (typedAfterBuild "-1")))))
    ≠ questions
        <$> sections (state_of (initializeBuilder countingIds
                                  (typedAfterBuild "-1"))).
Proof.
  split; [unfold requiredFilled; simpl; repeat split; discriminate |].
  split; [vm_compute; reflexivity |].
  split; [vm_compute; reflexivity |].
  split; [vm_compute; reflexivity |].
  intros H. apply (f_equal (fmap length)) in H. vm_compute in H. discriminate H.
Qed.

(** C4, amended: when the required fields are filled and every section's
    question count is a whole number that is not negative (a number, or
    typed in plain digits), a second transition right after the first
    changes nothing: the state after two transitions is the state after
    one, and so is the question list of every section, whatever
    identifiers the second transition is offered. *)
Theorem initializeBuilder_idempotent (ids1 ids2 : nat -> Q) (st : AppState) :
  requiredFilled (meta st) →
  Forall (fun s => holdsCount (qCount s)) (sections st) →
  state_of (initializeBuilder ids2 (state_of (initializeBuilder ids1 st)))
  = state_of (initializeBuilder ids1 st)
  ∧ ∀ i, questions <$> sections (state_of (initializeBuilder ids2
                          (state_of (initializeBuilder ids1 st)))) !! i
         = questions <$> sections (state_of (initializeBuilder ids1 st)) !! i.
Proof.
  intros Hfilled Hpos.
  assert (state_of (initializeBuilder ids2 (state_of (initializeBuilder ids1 st)))
          = state_of (initializeBuilder ids1 st)) as Heq; [| by rewrite Heq].
  pose proof (reconcileAll_matches ids1 (sections st) 0 Hpos) as Hmatch.
  pose proof (proj2 (missing_nil_iff (meta st)) Hfilled) as Hmiss.
  unfold initializeBuilder at 2. unfold initializeBuilder at 2. rewrite Hmiss.
  destruct (find_section (activeSectionId st) (reconcileAll ids1 (sections st) 0))
    as [found |] eqn:Hfind.
  - unfold initializeBuilder. simpl. rewrite Hmiss.
    rewrite (reconcileAll_fixed ids2 _ 0 Hmatch), Hfind. reflexivity.
  - destruct (reconcileAll ids1 (sections st) 0) as [| first rest] eqn:Hrec.
    + unfold initializeBuilder. simpl. rewrite Hmiss. reflexivity.
    + unfold initializeBuilder. simpl meta. rewrite Hmiss. simpl sections.
      rewrite (reconcileAll_fixed ids2 _ 0 Hmatch). simpl activeSectionId.
      rewrite find_section_head. reflexivity.
Qed.

Lemma initializeBuilder_idempotent_witness :
  state_of (initializeBuilder (fun _ => 7%Q)
              (state_of (initializeBuilder countingIds unevenState)))
  = state_of (initializeBuilder countingIds unevenState)
  ∧ (fun s => length (questions s))
      <$> sections (state_of (initializeBuilder countingIds unevenState))
    = [3%nat; 1%nat].
Proof.
  split; [| vm_compute; reflexivity].
  apply (initializeBuilder_idempotent countingIds (fun _ => 7%Q) unevenState).
  - unfold requiredFilled. simpl. repeat split; discriminate.
  - repeat constructor.
    + exists 3%Z. split; [lia |]. simpl. repeat split. discriminate.
    + exists 1%Z. split; [lia | reflexivity].
Defined.

(** ** The retrying transport *)

Lemma attemptsFrom_success (env : nat -> FetchOutcome) (fuel i : nat) (v : Js.value) :
  (i <= 3)%nat → attempt (env i) = inr v →
  attemptsFrom env (S fuel) i = ([Fetch i], Resolved v).
Proof.
  intros Hi Hv. simpl. rewrite Hv.
  destruct (Nat.ltb_spec i 4); [reflexivity | lia].
Qed.

Lemma attemptsFrom_retry (env : nat -> FetchOutcome) (fuel i : nat) (err : error) :
  (i < 3)%nat → attempt (env i) = inl err →
  attemptsFrom env (S fuel) i
  = (Fetch i :: Wait (default 0%Z (delays !! i))
       :: fst (attemptsFrom env fuel (S i)),
     snd (attemptsFrom env fuel (S i))).
Proof.
  intros Hi Herr. simpl. rewrite Herr.
  destruct (Nat.ltb_spec i 4); [| lia].
  destruct (Nat.eqb_spec i 3); [lia |].
  by destruct (attemptsFrom env fuel (S i)).
Qed.

Lemma attemptsFrom_exhausted (env : nat -> FetchOutcome) (fuel : nat) (err : error) :
  attempt (env 3%nat) = inl err →
  attemptsFrom env (S fuel) 3 = ([Fetch 3], Rejected err).
Proof. intros Herr. simpl. by rewrite Herr. Qed.

Lemma attempt_not_ok (status : Z) (b : body) :
  ok status = false → attempt (Responds status b) = inl (ApiError status).
Proof. intros Hok. simpl. by rewrite Hok. Qed.

Lemma attempt_unreadable (status : Z) (err : error) :
  ok status = true → attempt (Responds status (Unreadable err)) = inl err.
Proof. intros Hok. simpl. by rewrite Hok. Qed.

Lemma attempt_json (status : Z) (data : Js.value) :
  ok status = true → Js.nullish data = false →
  attempt (Responds status (Json data))
  = inr (Js.or (candidatePath data) (Js.Str "")).
Proof. intros Hok Hnn. simpl. rewrite Hok. unfold candidateText. by rewrite Hnn. Qed.

(** C6 as stated fails: a response with status 200 whose body cannot be
    read as JSON does not end the loop; the second attempt follows after
    one second. *)
Lemma callGemini_success_status_retried :
  ¬ (∀ (env : nat -> FetchOutcome) (status : Z) (b : body),
       env 0%nat = Responds status b → ok status = true →
       ∃ v, callGemini env = ([Fetch 0], Resolved v)).
Proof.
  intros H.
  destruct (H (fun i => match i with
                        | O => Responds 200 (Unreadable (PlatformError "SyntaxError"))
                        | S _ => Responds 200 (Json (replyWith (Js.Str "[]")))
                        end)
              200%Z (Unreadable (PlatformError "SyntaxError"))
              eq_refl eq_refl) as [v Hv].
  vm_compute in Hv. discriminate Hv.
Qed.

(** C6, amended: a call makes at least one and at most four fetches. The
    first attempt whose [try] block completes (a success status, a body
    that reads as JSON and is not [null]) ends the loop with its value;
    before that, each failed attempt (a rejected fetch, a non-success
    status, an unreadable body) is followed by a wait of 1000, 2000 and
    4000 ms before the second, third and fourth attempt; and when the
    fourth attempt fails too, the call rejects with that attempt's own
    error. *)
Theorem callGemini_retry_schedule (env : nat -> FetchOutcome) :
  (1 <= length (List.filter isFetch (fst (callGemini env))) <= 4)%nat
  ∧ (∀ v, attempt (env 0%nat) = inr v →
          callGemini env = ([Fetch 0], Resolved v))
  ∧ (∀ e0 v, attempt (env 0%nat) = inl e0 → attempt (env 1%nat) = inr v →
          callGemini env = ([Fetch 0; Wait 1000; Fetch 1], Resolved v))
  ∧ (∀ e0 e1 v, attempt (env 0%nat) = inl e0 → attempt (env 1%nat) = inl e1 →
          attempt (env 2%nat) = inr v →
          callGemini env
          = ([Fetch 0; Wait 1000; Fetch 1; Wait 2000; Fetch 2], Resolved v))
  ∧ (∀ e0 e1 e2 v, attempt (env 0%nat) = inl e0 → attempt (env 1%nat) = inl e1 →
          attempt (env 2%nat) = inl e2 → attempt (env 3%nat) = inr v →
          callGemini env
          = ([Fetch 0; Wait 1000; Fetch 1; Wait 2000; Fetch 2; Wait 4000; Fetch 3],
             Resolved v))
  ∧ (∀ e0 e1 e2 e3, attempt (env 0%nat) = inl e0 → attempt (env 1%nat) = inl e1 →
          attempt (env 2%nat) = inl e2 → attempt (env 3%nat) = inl e3 →
          callGemini env
          = ([Fetch 0; Wait 1000; Fetch 1; Wait 2000; Fetch 2; Wait 4000; Fetch 3],
             Rejected e3))
  ∧ (∀ status data, ok status = true → Js.nullish data = false →
          attempt (Responds status (Json data))
          = inr (Js.or (candidatePath data) (Js.Str "")))
  ∧ (∀ status b, ok status = false →
          attempt (Responds status b) = inl (ApiError status))
  ∧ (∀ err, attempt (Fails err) = inl err)
  ∧ (∀ status err, ok status = true →
          attempt (Responds status (Unreadable err)) = inl err).
Proof.
  split.
  { unfold callGemini. simpl.
    destruct (attempt (env 0%nat)); [| simpl; lia].
    destruct (attempt (env 1%nat)); [| simpl; lia].
    destruct (attempt (env 2%nat)); [| simpl; lia].
    destruct (attempt (env 3%nat)); simpl; lia. }
  split. { intros v H0. unfold callGemini. simpl. by rewrite H0. }
  split. { intros e0 v H0 H1. unfold callGemini. simpl. by rewrite H0, H1. }
  split. { intros e0 e1 v H0 H1 H2. unfold callGemini. simpl. by rewrite H0, H1, H2. }
  split. { intros e0 e1 e2 v H0 H1 H2 H3. unfold callGemini. simpl.
           by rewrite H0, H1, H2, H3. }
  split. { intros e0 e1 e2 e3 H0 H1 H2 H3. unfold callGemini. simpl.
           by rewrite H0, H1, H2, H3. }
  split; [exact attempt_json |]. split; [exact attempt_not_ok |].
  split; [reflexivity | exact attempt_unreadable].
Qed.

Lemma callGemini_retry_schedule_witness :
  callGemini (fun i => match i with
                       | O => Responds 503 (Unreadable (PlatformError "unread"))
                       | S _ => Responds 200 (Json (replyWith (Js.Str "[]")))
                       end)
  = ([Fetch 0; Wait 1000; Fetch 1], Resolved (Js.Str "[]")).
Proof.
  apply (callGemini_retry_schedule
           (fun i => match i with
                     | O => Responds 503 (Unreadable (PlatformError "unread"))
                     | S _ => Responds 200 (Json (replyWith (Js.Str "[]")))
                     end)) with (e0 := ApiError 503); reflexivity.
Defined.

Lemma ok_iff (status : Z) : ok status = true ↔ (200 <= status <= 299)%Z.
Proof. unfold ok. rewrite andb_true_iff, !Z.leb_le. tauto. Qed.

(** C9 as stated fails: a response with status 200 whose JSON body has no
    candidate text is not an attempt failure; the call resolves at once,
    with the empty string. *)
Lemma callGemini_missing_text_resolves :
  ¬ (∀ (status : Z) (data : Js.value),
       ok status = true → candidatePath data = Js.Undefined →
       ∃ err, attempt (Responds status (Json data)) = inl err)
  ∧ callGemini (fun _ => Responds 200 (Json (Js.Obj [])))
    = ([Fetch 0], Resolved (Js.Str "")).
Proof.
  split; [| reflexivity].
  intros H. destruct (H 200%Z (Js.Obj []) eq_refl eq_refl) as [err Herr].
  discriminate Herr.
Qed.

(** C9, amended: an attempt whose response has a status outside 200..299,
    or a success status with a body that cannot be read as JSON or that is
    the JSON [null], hands an error to the retry policy: on the first
    three attempts the loop waits the attempt's delay and goes on with
    the next attempt, on the fourth the call rejects with that error. A
    success-status response whose JSON body yields no (or an empty)
    candidate text is returned as a success, with the empty string. *)
Theorem attempt_failure_classes (env : nat -> FetchOutcome) (fuel i : nat) :
  (∀ status b, ¬ (200 <= status <= 299)%Z →
     attempt (Responds status b) = inl (ApiError status))
  ∧ (∀ status err, (200 <= status <= 299)%Z →
     attempt (Responds status (Unreadable err)) = inl err)
  ∧ (∀ status, (200 <= status <= 299)%Z →
     attempt (Responds status (Json Js.Null)) = inl TypeError)
  ∧ (∀ status data, (200 <= status <= 299)%Z → Js.nullish data = false →
     Js.truthy (candidatePath data) = false →
     attempt (Responds status (Json data)) = inr (Js.Str ""))
  ∧ (∀ err, (i < 3)%nat → attempt (env i) = inl err →
     attemptsFrom env (S fuel) i
     = (Fetch i :: Wait (default 0%Z (delays !! i))
          :: fst (attemptsFrom env fuel (S i)),
        snd (attemptsFrom env fuel (S i))))
  ∧ (∀ err, attempt (env 3%nat) = inl err →
     attemptsFrom env (S fuel) 3 = ([Fetch 3], Rejected err)).
Proof.
  split.
  { intros status b Hno. apply attempt_not_ok.
    destruct (ok status) eqn:Hok; [| reflexivity].
    apply ok_iff in Hok. contradiction. }
  split.
  { intros status err Hok. apply attempt_unreadable. by apply ok_iff. }
  split.
  { intros status Hok. apply ok_iff in Hok. simpl. by rewrite Hok. }
  split.
  { intros status data Hok Hnn Hfalsy. apply ok_iff in Hok.
    rewrite (attempt_json status data Hok Hnn). unfold Js.or. by rewrite Hfalsy. }
  split.
  { intros err Hi Herr. by apply (attemptsFrom_retry env fuel i err). }
  intros err Herr. by apply (attemptsFrom_exhausted env fuel err).
Qed.

Lemma attempt_failure_classes_witness :
  attempt (Responds 500 (Json (replyWith (Js.Str "x")))) = inl (ApiError 500)
  ∧ attemptsFrom (fun _ => Responds 500 (Unreadable TypeError)) 4 0
    = (Fetch 0 :: Wait 1000
         :: fst (attemptsFrom (fun _ => Responds 500 (Unreadable TypeError)) 3 1),
       snd (attemptsFrom (fun _ => Responds 500 (Unreadable TypeError)) 3 1)).
Proof.
  destruct (attempt_failure_classes
              (fun _ => Responds 500 (Unreadable TypeError)) 3 0)
    as (Hstatus & _ & _ & _ & Hretry & _).
  split.
  - apply Hstatus. lia.
  - apply (Hretry (ApiError 500)); [lia | reflexivity].
Defined.

(** ** Bulk fill *)

(** The updater on a reply that is an array: no property read fails. *)
Lemma mergeSections_array (sectionId : Z) (items : list Js.value)
    (prev : list PaperSection) :
  mergeSections sectionId (Js.Arr items) prev
  = Some ((fun s => if decide (s_id s ≠ sectionId) then s
                    else set_questions
                           (imap (mergeQuestion s (Js.Arr items)) (questions s)) s)
          <$> prev).
Proof.
  unfold mergeSections. apply mapM_Some_2.
  induction prev as [| s prev IH]; simpl; constructor; [| exact IH].
  by case_decide.
Qed.

Lemma mergeQuestion_skip (s : PaperSection) (items : list Js.value)
    (idx : nat) (q : Question) :
  Js.truthy (default Js.Undefined (items !! idx)) = false →
  mergeQuestion s (Js.Arr items) idx q = q.
Proof. intros Hf. unfold mergeQuestion. simpl. by rewrite Hf. Qed.

(** C7 as stated fails: a reply item without a bloom tag does not leave
    the question's tag as it was; the tag becomes R. *)
Lemma mergeQuestion_missing_bloom_reset :
  ¬ (∀ (s : PaperSection) (items : list Js.value) (idx : nat) (q : Question)
       (item : Js.value),
       items !! idx = Some item → Js.truthy item = true →
       Js.get item "bloom" = Js.Undefined →
       bloom (mergeQuestion s (Js.Arr items) idx q) = bloom q).
Proof.
  intros H.
  specialize (H (mkSection 2 "Q2" "Short Notes / Answer" subjective
                           (Whole 4) (Whole 2) (Whole 3) [])
                [Js.Obj [("text", Js.Str "Define a heap.")]] 0%nat
                (mkQuestion 1%Q (Js.Str "") (Js.Arr []) Js.Null
                            (Js.Str "CO3") (Js.Str "AN"))
                (Js.Obj [("text", Js.Str "Define a heap.")])
                eq_refl eq_refl eq_refl).
  discriminate H.
Qed.

(** C7, amended: when the sanitized reply parses as a list, the call
    returns, only the target section changes and only in its questions,
    which keep their number. Question [j] is left as it was when the reply
    has no item [j] or a falsy one (such as [null]); otherwise it keeps
    its id and image, takes the item's text, takes the item's bloom tag or
    else R, the item's outcome tag or else CO1, and in a multiple-choice
    section the item's options or else its own options, in any other
    section the empty option list. *)
Theorem settleMagicFill_merges (JSON_parse : string -> option Js.value)
    (sectionId : Z) (rawText : string) (items : list Js.value)
    (st : AppState) (i : nat) (s : PaperSection) :
  JSON_parse (sanitize rawText) = Some (Js.Arr items) →
  sections st !! i = Some s →
  ∃ st' s',
    settleMagicFill JSON_parse sectionId (Resolved (Js.Str rawText)) st = Returns st'
    ∧ length (sections st') = length (sections st)
    ∧ sections st' !! i = Some s'
    ∧ s' = set_questions (questions s') s
    ∧ (s_id s ≠ sectionId → s' = s)
    ∧ (s_id s = sectionId →
       length (questions s') = length (questions s)
       ∧ ∀ j q, questions s !! j = Some q →
         ∃ q', questions s' !! j = Some q'
           ∧ (items !! j = None → q' = q)
           ∧ (∀ item, items !! j = Some item → Js.truthy item = false → q' = q)
           ∧ (∀ item, items !! j = Some item → Js.truthy item = true →
              q_id q' = q_id q
              ∧ image q' = image q
              ∧ text q' = Js.get item "text"
              ∧ bloom q' = Js.or (Js.get item "bloom") (Js.Str "R")
              ∧ co q' = Js.or (Js.get item "co") (Js.Str "CO1")
              ∧ (type s = mcq →
                 options q' = Js.or (Js.get item "options") (options q))
              ∧ (type s ≠ mcq → options q' = Js.Arr []))).
Proof.
  intros Hparse Hi. unfold settleMagicFill. rewrite Hparse, mergeSections_array.
  eexists. eexists. split; [reflexivity |]. simpl.
  split; [apply length_fmap |].
  split; [by rewrite list_lookup_fmap, Hi |].
  destruct (decide (s_id s ≠ sectionId)) as [Hne | Heq].
  - split; [by rewrite set_questions_same |]. split; [done |].
    intros Heq. contradiction.
  - simpl. split; [reflexivity |]. split; [intros Hne; contradiction |].
    intros _. split; [apply length_imap |].
    intros j q Hq. exists (mergeQuestion s (Js.Arr items) j q).
    split; [by rewrite list_lookup_imap, Hq |].
    split; [| split].
    + intros Hnone. apply mergeQuestion_skip. by rewrite Hnone.
    + intros item Hitem Hf. apply mergeQuestion_skip. by rewrite Hitem.
    + intros item Hitem Ht. unfold mergeQuestion. simpl. rewrite Hitem. simpl.
      rewrite Ht. simpl. repeat split; by case_decide.
Qed.

Lemma settleMagicFill_merges_witness :
  ∃ st' s',
    settleMagicFill sampleParse 1 (Resolved (Js.Str sampleReply)) filledState
    = Returns st'
    ∧ sections st' !! 0%nat = Some s'
    ∧ questions s'
      = [ mkQuestion (inject_Z 1) (Js.Str "What is a heap?") defaultOptions
                     Js.Null (Js.Str "CO1") (Js.Str "R");
          mkQuestion (inject_Z 2) (Js.Str "Second stem") defaultOptions Js.Null
                     (Js.Str "CO2") (Js.Str "U");
          mkQuestion (inject_Z 3) (Js.Str "Third stem") defaultOptions Js.Null
                     (Js.Str "CO4") (Js.Str "E") ]
    ∧ sections st' !! 1%nat = sections filledState !! 1%nat.
Proof.
  destruct (settleMagicFill_merges sampleParse 1 sampleReply
              [Js.Obj [("text", Js.Str "What is a heap?")]; Js.Null]
              filledState 0
              (mkSection 1 "Q1" "Multiple Choice Questions" mcq
                 (Whole 3) (Whole 3) (Whole 1)
                 [ mkQuestion (inject_Z 1) (Js.Str "First stem") defaultOptions
                              Js.Null (Js.Str "CO3") (Js.Str "AN");
                   mkQuestion (inject_Z 2) (Js.Str "Second stem") defaultOptions
                              Js.Null (Js.Str "CO2") (Js.Str "U");
                   mkQuestion (inject_Z 3) (Js.Str "Third stem") defaultOptions
                              Js.Null (Js.Str "CO4") (Js.Str "E") ])
              eq_refl eq_refl)
    as (st' & s' & Hret & _ & Hs' & _).
  exists st', s'. split; [exact Hret |]. split; [exact Hs' |].
  vm_compute in Hret. injection Hret as Hst. subst st'.
  vm_compute in Hs'. injection Hs' as Hs. subst s'.
  split; vm_compute; reflexivity.
Defined.

(** C8: when the sanitized reply text does not parse, the call leaves the
    section list, and with it every question of the target section, as it
    was: whether the reply settles in a later state or the whole call runs
    without interruption; the failure is reported. *)
Theorem executeMagicFill_parse_failure (JSON_parse : string -> option Js.value)
    (sectionId : Z) (env : nat -> FetchOutcome) (rawText : string)
    (st : AppState) :
  snd (callGemini env) = Resolved (Js.Str rawText) →
  JSON_parse (sanitize rawText) = None →
  sections (state_of (executeMagicFill JSON_parse (Some sectionId) env st))
  = sections st
  ∧ ∀ later : AppState,
      sections (state_of (settleMagicFill JSON_parse sectionId
                            (Resolved (Js.Str rawText)) later))
      = sections later
      ∧ alerts (state_of (settleMagicFill JSON_parse sectionId
                            (Resolved (Js.Str rawText)) later))
        = (alerts later ++ [generationFailed])%list.
Proof.
  intros Hreply Hparse.
  assert (∀ later, settleMagicFill JSON_parse sectionId
                     (Resolved (Js.Str rawText)) later
                   = Returns (setPendingMagicSectionId None
                                (setAiLoadingState (false, None)
                                   (alert generationFailed later)))) as Hsettle.
  { intros later. unfold settleMagicFill. by rewrite Hparse. }
  split.
  - unfold executeMagicFill. destruct (find_section _ _); [| reflexivity].
    by rewrite Hreply, Hsettle.
  - intros later. by rewrite Hsettle.
Qed.

Lemma executeMagicFill_parse_failure_witness :
  sections (state_of (executeMagicFill sampleParse (Some 1%Z)
                        (fun _ => Responds 200
                                    (Json (replyWith (Js.Str "Sorry, no list."))))
                        filledState))
  = filledSections
  ∧ alerts (state_of (settleMagicFill sampleParse 1
                        (Resolved (Js.Str "Sorry, no list.")) filledState))
    = [generationFailed].
Proof.
  destruct (executeMagicFill_parse_failure sampleParse 1
              (fun _ => Responds 200 (Json (replyWith (Js.Str "Sorry, no list."))))
              "Sorry, no list." filledState eq_refl eq_refl)
    as [Hsections Hlater].
  split; [exact Hsections |].
  destruct (Hlater filledState) as [_ Halerts]. exact Halerts.
Defined.

(** * Further properties of the handlers *)

(** ** The section setter, continued *)

(** X1: [updateSection] keeps the number of sections, and each section
    keeps its id, its description and its questions; a section whose id is
    not the one given is left exactly as it was. *)
Theorem updateSection_frame (id : Z) (fv : FieldValue)
    (prev : list PaperSection) (i : nat) (s : PaperSection) :
  prev !! i = Some s →
  length (updateSection id fv prev) = length prev
  ∧ ∃ s', updateSection id fv prev !! i = Some s'
          ∧ s_id s' = s_id s ∧ desc s' = desc s ∧ questions s' = questions s
          ∧ (s_id s ≠ id → s' = s).
Proof.
  intros Hi. split; [apply updateSection_length |].
  rewrite (updateSection_lookup id fv prev i s Hi).
  eexists. split; [reflexivity |].
  destruct (decide (s_id s ≠ id)) as [Hne | Heq]; [by repeat split |].
  repeat split; try contradiction;
    unfold updateSection_at; destruct fv; simpl;
    repeat case_decide; repeat case_match; reflexivity.
Qed.

Lemma updateSection_frame_witness :
  ∃ s', updateSection 1 (QCount "9") defaultSections !! 1%nat = Some s'
        ∧ s' = mkSection 2 "Q2" "Short Notes / Answer" subjective
                         (Whole 4) (Whole 2) (Whole 3) [].
Proof.
  destruct (updateSection_frame 1 (QCount "9") defaultSections 1
              (mkSection 2 "Q2" "Short Notes / Answer" subjective
                         (Whole 4) (Whole 2) (Whole 3) [])
              eq_refl) as (_ & s' & Hs' & _ & _ & _ & Hsame).
  exists s'. split; [exact Hs' | apply Hsame; simpl; lia].
Defined.

(** Every mutation except a direct write of the attempt count keeps the
    bound of a section whose question count is a whole number, when a
    newly typed count is in plain digits. *)
Lemma updateSection_at_keeps_bound (fv : FieldValue) (s : PaperSection) (n : Z) :
  (∀ v, fv ≠ AttemptCount v) →
  (∀ v, fv = QCount v → ∃ m, holdsWhole (Typed v) m) →
  holdsWhole (qCount s) n →
  withinCount s = true →
  withinCount (updateSection_at fv s) = true.
Proof.
  intros Hfv Hplain Hn Hle.
  assert (∀ m u, holdsWhole (qCount u) m →
                 withinCount (set_attemptCount (Whole m) u) = true) as Hset.
  { intros m u Hu. unfold withinCount.
    change (atMost (Finite (inject_Z m)) (toNumber (qCount u)) = true).
    rewrite (holdsWhole_toNumber _ m Hu), atMost_whole. lia. }
  unfold updateSection_at.
  destruct (decide (type (assign s fv) = mcq)) as [Hm | Hm].
  - assert (∃ m, holdsWhole (qCount (assign s fv)) m) as [m Hwhole].
    { destruct fv as [v | v | v | v | v]; simpl; eauto. }
    rewrite (holdsWhole_parseInt _ m Hwhole). by apply Hset.
  - destruct fv as [v | v | v | v | v]; try exact Hle.
    + destruct (Hplain v eq_refl) as [m Hwhole].
      rewrite (holdsWhole_parseInt _ m Hwhole).
      change (toNumber (Whole m)) with (Finite (inject_Z m)).
      destruct (lessThan (Finite (inject_Z m)) (toNumber (attemptCount s)))
        eqn:Hlt.
      * by apply Hset.
      * unfold withinCount in *.
        change (atMost (toNumber (attemptCount s)) (toNumber (Typed v)) = true).
        rewrite (holdsWhole_toNumber _ m Hwhole).
        destruct (toNumber (attemptCount s)) as [| a]; [discriminate Hle |].
        by apply atMost_of_not_lessThan.
    + by destruct (Hfv v).
Qed.

(** X2: on a section list where every question count is a whole number
    and every attempt count is within its question count, any mutation
    other than a direct write of the attempt count leaves every attempt
    count within its question count, provided a newly typed question
    count is in plain digits. *)
Theorem updateSection_keeps_bound (id : Z) (fv : FieldValue)
    (prev : list PaperSection) :
  (∀ v, fv ≠ AttemptCount v) →
  (∀ v, fv = QCount v → ∃ m, holdsWhole (Typed v) m) →
  Forall (fun s => ∃ n, holdsWhole (qCount s) n) prev →
  Forall (fun s => withinCount s = true) prev →
  Forall (fun s => withinCount s = true) (updateSection id fv prev).
Proof.
  intros Hfv Hplain Hwhole Hall. unfold updateSection. apply Forall_fmap.
  apply Forall_forall. intros s Hs. simpl.
  rewrite Forall_forall in Hwhole, Hall.
  case_decide; [by apply Hall |].
  destruct (Hwhole s Hs) as [n Hn].
  apply (updateSection_at_keeps_bound fv s n); auto.
Qed.

Lemma updateSection_keeps_bound_witness :
  Forall (fun s => withinCount s = true)
         (updateSection 2 (QCount "1") defaultSections).
Proof.
  apply (updateSection_keeps_bound 2 (QCount "1") defaultSections).
  - intros v. discriminate.
  - intros v [= <-]. exists 1%Z. simpl. repeat split. discriminate.
  - repeat constructor; eexists; simpl; reflexivity.
  - repeat constructor.
Defined.

(** X3: on a section that is not multiple-choice and whose attempt count
    is a number, a question count typed in plain digits is stored as
    typed, and the attempt count becomes the new count when the new count
    is below it and is left as it was otherwise: it is clamped down and
    never raised. *)
Theorem updateSection_qCount_clamps (v : string) (n : Z) (a : Q)
    (s : PaperSection) :
  type s ≠ mcq →
  holdsWhole (Typed v) n →
  toNumber (attemptCount s) = Finite a →
  qCount (updateSection_at (QCount v) s) = Typed v
  ∧ ((inject_Z n < a)%Q → attemptCount (updateSection_at (QCount v) s) = Whole n)
  ∧ ((a <= inject_Z n)%Q →
     attemptCount (updateSection_at (QCount v) s) = attemptCount s).
Proof.
  intros Hty Hn Ha. unfold updateSection_at.
  change (type (assign s (QCount v))) with (type s).
  destruct (decide (type s = mcq)); [contradiction |].
  rewrite (holdsWhole_parseInt _ n Hn), Ha.
  change (toNumber (Whole n)) with (Finite (inject_Z n)). unfold lessThan.
  destruct (Qle_bool a (inject_Z n)) eqn:Hle; cbn [negb].
  - apply Qle_bool_iff in Hle. split; [reflexivity |]. split; [| reflexivity].
    intros Hlt. exfalso. by apply (Qlt_not_le _ _ Hlt).
  - split; [reflexivity |]. split; [reflexivity |].
    intros Hle'. apply Qle_bool_iff in Hle'. congruence.
Qed.

Lemma updateSection_qCount_clamps_witness :
  qCount (updateSection_at (QCount "1")
            (mkSection 2 "Q2" "Short Notes / Answer" subjective
                       (Whole 4) (Whole 2) (Whole 3) [])) = Typed "1"
  ∧ attemptCount (updateSection_at (QCount "1")
            (mkSection 2 "Q2" "Short Notes / Answer" subjective
                       (Whole 4) (Whole 2) (Whole 3) [])) = Whole 1.
Proof.
  destruct (updateSection_qCount_clamps "1" 1 (inject_Z 2)
              (mkSection 2 "Q2" "Short Notes / Answer" subjective
                         (Whole 4) (Whole 2) (Whole 3) []))
    as (Hq & Hdown & _).
  - simpl. discriminate.
  - simpl. repeat split. discriminate.
  - reflexivity.
  - split; [exact Hq | apply Hdown; reflexivity].
Defined.

(** The conditions on the typed count cannot be dropped. An exponent is
    not read by [parseInt]: on section 1 the count 1e3 is a thousand and
    the attempt count becomes 1, and on section 2 the count 1e1 is ten and
    the attempt count 2 is clamped to 1. A cleared field is the empty
    text: [parseInt] gives [NaN], nothing is clamped, and the attempt
    count 2 stays above a question count that is read as 0. *)
Example updateSection_exponent_and_cleared :
  (attemptCount <$> updateSection 1 (QCount "1e3") defaultSections !! 0%nat
   = Some (Whole 1)
   ∧ toNumber (Typed "1e3") = Finite (inject_Z 1000))
  ∧ (attemptCount <$> updateSection 2 (QCount "1e1") defaultSections !! 1%nat
     = Some (Whole 1)
     ∧ toNumber (Typed "1e1") = Finite (inject_Z 10))
  ∧ (attemptCount <$> updateSection 1 (QCount "") defaultSections !! 0%nat
     = Some NoNumber)
  ∧ (updateSection 2 (QCount "") defaultSections !! 1%nat
     = Some (mkSection 2 "Q2" "Short Notes / Answer" subjective
                       (Typed "") (Whole 2) (Whole 3) [])
     ∧ toNumber (Typed "") = Finite (inject_Z 0)
     ∧ withinCount (mkSection 2 "Q2" "Short Notes / Answer" subjective
                              (Typed "") (Whole 2) (Whole 3) []) = false).
Proof. repeat split; vm_compute; reflexivity. Qed.

(** ** Adding and deleting sections, continued *)

Lemma filter_id_absent (id : Z) (secs : list PaperSection) :
  id ∉ (s_id <$> secs) → filter (fun s => s_id s ≠ id) secs = secs.
Proof.
  induction secs as [| s0 secs IH]; intros Hnotin; [done |].
  simpl in Hnotin. apply not_elem_of_cons in Hnotin as [Hne Hnotin].
  rewrite filter_cons_True by congruence. f_equal. by apply IH.
Qed.

Lemma filter_id_present (id : Z) (secs : list PaperSection) (i : nat)
    (s : PaperSection) :
  NoDup (s_id <$> secs) → secs !! i = Some s → s_id s = id →
  filter (fun s => s_id s ≠ id) secs = delete i secs.
Proof.
  revert i. induction secs as [| s0 secs IH]; intros i Hnd Hi Hid; [done |].
  simpl in Hnd. apply NoDup_cons in Hnd as [Hnotin Hnd].
  rewrite filter_cons. destruct i as [| i]; simpl in Hi.
  - injection Hi as ->. destruct (decide (s_id s ≠ id)); [contradiction |].
    simpl. apply filter_id_absent. by rewrite <- Hid.
  - destruct (decide (s_id s0 ≠ id)) as [Hne | Heq].
    + simpl. f_equal. by apply IH.
    + exfalso. apply Hnotin. apply dec_stable in Heq. rewrite Heq, <- Hid.
      apply list_elem_of_fmap. exists s. split; [done |].
      by apply list_elem_of_lookup_2 in Hi.
Qed.

Lemma defaultSections_NoDup : NoDup (s_id <$> defaultSections).
Proof.
  simpl. apply NoDup_cons. split; [| apply NoDup_singleton].
  intros Hin. apply list_elem_of_singleton in Hin. discriminate.
Qed.

(** X4: [deleteSection] refuses to delete when at most one section is
    left; otherwise, with distinct ids, it removes exactly the section
    that has the given id, keeps the others in order, and returns. *)
Theorem deleteSection_removes_one (id : Z) (st : AppState) (i : nat)
    (s : PaperSection) :
  NoDup (s_id <$> sections st) →
  sections st !! i = Some s → s_id s = id →
  ((length (sections st) <= 1)%nat → deleteSection id st = Returns st)
  ∧ ((1 < length (sections st))%nat →
     ∃ st', deleteSection id st = Returns st'
            ∧ sections st' = delete i (sections st)
            ∧ id ∉ (s_id <$> sections st')).
Proof.
  intros Hnd Hi Hid. unfold deleteSection. split.
  - intros Hle. destruct (Nat.ltb_spec 1 (length (sections st))); [lia | done].
  - intros Hlt. destruct (Nat.ltb_spec 1 (length (sections st))); [| lia].
    rewrite (filter_id_present id (sections st) i s Hnd Hi Hid).
    assert (id ∉ s_id <$> delete i (sections st)) as Hgone.
    { rewrite <- (filter_id_present id (sections st) i s Hnd Hi Hid).
      intros Hin. apply list_elem_of_fmap in Hin as (s' & -> & Hs').
      apply list_elem_of_filter in Hs' as [Hne _]. by apply Hne. }
    destruct (delete i (sections st)) as [| first rest] eqn:Hdel.
    + exfalso. apply (f_equal length) in Hdel.
      rewrite length_delete in Hdel by eauto. simpl in Hdel. lia.
    + case_decide; eexists; (split; [reflexivity |]); simpl; by split.
Qed.

Lemma deleteSection_removes_one_witness :
  ∃ st', deleteSection 1 (sampleState sampleMeta) = Returns st'
         ∧ sections st'
           = [mkSection 2 "Q2" "Short Notes / Answer" subjective
                        (Whole 4) (Whole 2) (Whole 3) []].
Proof.
  destruct (deleteSection_removes_one 1 (sampleState sampleMeta) 0
              (mkSection 1 "Q1" "Multiple Choice Questions" mcq
                         (Whole 6) (Whole 6) (Whole 1) []))
    as [_ Hdel].
  - exact defaultSections_NoDup.
  - reflexivity.
  - reflexivity.
  - destruct Hdel as (st' & Hret & Hsec & _); [simpl; lia |].
    exists st'. split; [exact Hret | exact Hsec].
Defined.

Lemma addSection_pointer (st : AppState) :
  activeSectionId st ∈ (s_id <$> sections st) →
  activeSectionId (addSection st) ∈ (s_id <$> sections (addSection st)).
Proof.
  intros Hin. pose proof (addSection_sections st) as Hsec. unfold addSection in *.
  case_decide; simpl in *; rewrite fmap_app; simpl; apply elem_of_app.
  - right. apply list_elem_of_singleton. reflexivity.
  - by left.
Qed.

Lemma deleteSection_pointer (id : Z) (st : AppState) :
  NoDup (s_id <$> sections st) →
  activeSectionId st ∈ (s_id <$> sections st) →
  ∃ st', deleteSection id st = Returns st'
         ∧ activeSectionId st' ∈ (s_id <$> sections st').
Proof.
  intros Hnd Hin. unfold deleteSection.
  destruct (Nat.ltb_spec 1 (length (sections st))) as [Hlt | Hle]; [| eauto].
  destruct (decide (activeSectionId st = id)) as [Heq | Hne].
  - apply list_elem_of_fmap in Hin as (s & Hs & Hsin).
    apply list_elem_of_lookup_1 in Hsin as [i Hi].
    rewrite (filter_id_present id (sections st) i s Hnd Hi) by congruence.
    destruct (delete i (sections st)) as [| first rest] eqn:Hdel.
    + exfalso. apply (f_equal length) in Hdel.
      rewrite length_delete in Hdel by eauto. simpl in Hdel. lia.
    + eexists. split; [reflexivity |]. simpl. apply elem_of_cons. by left.
  - eexists. split; [reflexivity |]. simpl.
    apply list_elem_of_fmap in Hin as (s & Hs & Hsin).
    apply list_elem_of_fmap. exists s. split; [exact Hs |].
    apply list_elem_of_filter. split; [congruence | exact Hsin].
Qed.

Lemma runOps_pointer (ops : list SectionOp) (st : AppState) :
  NoDup (s_id <$> sections st) →
  activeSectionId st ∈ (s_id <$> sections st) →
  NoDup (s_id <$> sections (runOps ops st))
  ∧ activeSectionId (runOps ops st) ∈ (s_id <$> sections (runOps ops st)).
Proof.
  revert st. induction ops as [| op ops IH]; intros st Hnd Hin; [by split |].
  simpl. apply IH.
  - destruct op; [by apply addSection_NoDup | by apply deleteSection_NoDup].
  - destruct op as [| id]; simpl; [by apply addSection_pointer |].
    destruct (deleteSection_pointer id st Hnd Hin) as (st' & -> & Hst'). exact Hst'.
Qed.

(** X5: starting from the default sections with section 1 active, after
    any sequence of additions and deletions the section list is not empty,
    the active section id is the id of an existing section, and a further
    deletion returns without raising. *)
Theorem sections_never_empty (st : AppState) (ops : list SectionOp) (id : Z) :
  let st' := runOps ops (setActiveSectionId 1 (setSections defaultSections st)) in
  sections st' ≠ []
  ∧ activeSectionId st' ∈ (s_id <$> sections st')
  ∧ ∃ st'', deleteSection id st' = Returns st''.
Proof.
  intros st'.
  destruct (runOps_pointer ops (setActiveSectionId 1 (setSections defaultSections st)))
    as [Hnd Hin].
  { exact defaultSections_NoDup. }
  { simpl. apply elem_of_cons. by left. }
  fold st' in Hnd, Hin. split; [| split; [exact Hin |]].
  - intros Hnil. rewrite Hnil in Hin. simpl in Hin. by apply not_elem_of_nil in Hin.
  - destruct (deleteSection_pointer id st' Hnd Hin) as (st'' & Hret & _). eauto.
Qed.

(** ** Marks and the blueprint *)

Lemma totalPaperMarks_blueprint (l1 l2 : list PaperSection) :
  blueprintOf <$> l1 = blueprintOf <$> l2 →
  totalPaperMarks l1 = totalPaperMarks l2.
Proof.
  unfold totalPaperMarks. generalize (Finite 0) as acc. revert l2.
  induction l1 as [| s1 l1 IH]; intros [| s2 l2] acc Heq; try discriminate; [done |].
  assert (attemptCount s1 = attemptCount s2 ∧ marksPerQ s1 = marksPerQ s2
          ∧ blueprintOf <$> l1 = blueprintOf <$> l2) as (Ha & Hm & Hl)
    by (inversion Heq; auto).
  simpl. rewrite Ha, Hm. by apply IH.
Qed.

Lemma reconcileAll_blueprint (ids : nat -> Q) (secs : list PaperSection) (k : nat) :
  blueprintOf <$> reconcileAll ids secs k = blueprintOf <$> secs.
Proof.
  revert k. induction secs as [| s secs IH]; intros k; [done |].
  simpl. destruct (reconcile_spec ids s k) as (qs & Hfst & _).
  destruct (reconcile ids s k) as [s' k']. simpl in *. subst s'.
  by rewrite IH.
Qed.

(** X6: the blueprint-to-builder transition, blocked or not, changes no
    section's id, title, description, type, counts or marks, hence neither
    the total marks nor the exam category. *)
Theorem initializeBuilder_keeps_blueprint (ids : nat -> Q) (st : AppState) :
  blueprintOf <$> sections (state_of (initializeBuilder ids st))
  = blueprintOf <$> sections st
  ∧ totalPaperMarks (sections (state_of (initializeBuilder ids st)))
    = totalPaperMarks (sections st)
  ∧ examCategory (sections (state_of (initializeBuilder ids st)))
    = examCategory (sections st).
Proof.
  assert (blueprintOf <$> sections (state_of (initializeBuilder ids st))
          = blueprintOf <$> sections st) as Hbp.
  { unfold initializeBuilder. destruct (missing (meta st)); [| reflexivity].
    pose proof (reconcileAll_blueprint ids (sections st) 0) as Hrec.
    destruct (find_section _ _); [exact Hrec |].
    destruct (reconcileAll ids (sections st) 0); exact Hrec. }
  split; [exact Hbp |].
  pose proof (totalPaperMarks_blueprint _ _ Hbp) as Htot.
  split; [exact Htot |]. unfold examCategory. by rewrite Htot.
Qed.

Lemma blueprint_ids (l1 l2 : list PaperSection) :
  blueprintOf <$> l1 = blueprintOf <$> l2 → s_id <$> l1 = s_id <$> l2.
Proof.
  revert l2. induction l1 as [| s1 l1 IH]; intros [| s2 l2] Heq;
    try discriminate; [done |].
  assert (s_id s1 = s_id s2 ∧ blueprintOf <$> l1 = blueprintOf <$> l2)
    as (Hs & Hl) by (inversion Heq; auto).
  simpl. rewrite Hs. f_equal. by apply IH.
Qed.

Lemma find_section_None (id : Z) (secs : list PaperSection) :
  find_section id secs = None ↔ id ∉ (s_id <$> secs).
Proof.
  unfold find_section. induction secs as [| s secs IH]; simpl.
  - split; [intros _; apply not_elem_of_nil | done].
  - rewrite not_elem_of_cons. case_bool_decide as Hid.
    + split; [discriminate | intros [Hne _]; congruence].
    + rewrite IH. split; [intros ?; split; [congruence | done] | tauto].
Qed.

(** X7: when the required fields are filled, the transition raises only
    on an empty section list; otherwise it returns on the builder tab
    with an active section id that names an existing section: the previous
    one when it still names a section, the id of the first section when it
    does not. *)
Theorem initializeBuilder_repairs_pointer (ids : nat -> Q) (st : AppState) :
  requiredFilled (meta st) →
  (sections st = [] → ∃ st', initializeBuilder ids st = Throws st')
  ∧ (sections st ≠ [] →
     ∃ st', initializeBuilder ids st = Returns st'
       ∧ activeTab st' = builder
       ∧ activeSectionId st' ∈ (s_id <$> sections st')
       ∧ (activeSectionId st ∈ (s_id <$> sections st) →
          activeSectionId st' = activeSectionId st)
       ∧ (activeSectionId st ∉ (s_id <$> sections st) →
          Some (activeSectionId st') = s_id <$> head (sections st))).
Proof.
  intros Hfilled. apply missing_nil_iff in Hfilled.
  pose proof (blueprint_ids _ _ (reconcileAll_blueprint ids (sections st) 0)) as Hids.
  unfold initializeBuilder. rewrite Hfilled. split.
  - intros Hnil. rewrite Hnil. simpl. eauto.
  - intros Hne.
    destruct (find_section (activeSectionId st) (reconcileAll ids (sections st) 0))
      as [found |] eqn:Hfind.
    + assert (activeSectionId st ∈ s_id <$> sections st) as Hin.
      { rewrite <- Hids. destruct (decide (activeSectionId st ∈
          s_id <$> reconcileAll ids (sections st) 0)) as [? | Hno]; [done |].
        apply find_section_None in Hno. congruence. }
      eexists. split; [reflexivity |]. simpl. rewrite Hids.
      split; [done |]. split; [done |]. split; [done | intros ?; contradiction].
    + apply find_section_None in Hfind. rewrite Hids in Hfind.
      destruct (sections st) as [| s0 rest] eqn:Hsec; [done |].
      destruct (reconcileAll ids (s0 :: rest) 0) as [| first rest'] eqn:Hrec;
        [discriminate Hids |].
      simpl in Hids. injection Hids as Hfirst Hrest.
      eexists. split; [reflexivity |]. simpl. split; [done |].
      split; [apply elem_of_cons; by left |].
      split; [intros ?; contradiction | intros _; by rewrite Hfirst].
Qed.

Lemma initializeBuilder_repairs_pointer_witness :
  ∃ st', initializeBuilder (fun _ => 0%Q)
           (setActiveSectionId 9 (sampleState sampleMeta)) = Returns st'
         ∧ activeSectionId st' = 1%Z.
Proof.
  destruct (initializeBuilder_repairs_pointer (fun _ => 0%Q)
              (setActiveSectionId 9 (sampleState sampleMeta)))
    as [_ Hsome].
  - unfold requiredFilled. simpl. repeat split; discriminate.
  - destruct Hsome as (st' & Hret & _ & _ & _ & Hfirst); [discriminate |].
    exists st'. split; [exact Hret |].
    assert (Some (activeSectionId st') = Some 1%Z) as Heq.
    { apply Hfirst. simpl. intros Hin.
      apply elem_of_cons in Hin as [Hin | Hin]; [discriminate |].
      apply list_elem_of_singleton in Hin. discriminate. }
    by injection Heq.
Defined.

(** ** The transport, continued *)

Lemma attempt_value (r : FetchOutcome) (v : Js.value) :
  attempt r = inr v → v = Js.Str "" ∨ Js.truthy v = true.
Proof.
  destruct r as [err | status [err | data]]; simpl; try discriminate.
  - destruct (ok status); discriminate.
  - destruct (ok status); simpl; [| discriminate].
    unfold candidateText. destruct (Js.nullish data); [discriminate |].
    intros Hv. injection Hv as <-. unfold Js.or.
    destruct (Js.truthy (candidatePath data)) eqn:Ht; auto.
Qed.

(** X8: whatever the service does, a call waits at most 7000 ms in all,
    never resolves with [undefined] (the loop cannot fall through): it
    resolves with a truthy value or the empty string; and it rejects only
    after four fetches and the three waits, with the error of the fourth
    attempt. *)
Theorem callGemini_bounds (env : nat -> FetchOutcome) :
  (0 <= totalWait (fst (callGemini env)) <= 7000)%Z
  ∧ (∀ v, snd (callGemini env) = Resolved v →
          v = Js.Str "" ∨ Js.truthy v = true)
  ∧ snd (callGemini env) ≠ Resolved Js.Undefined
  ∧ (∀ err, snd (callGemini env) = Rejected err →
            fst (callGemini env)
            = [Fetch 0; Wait 1000; Fetch 1; Wait 2000; Fetch 2; Wait 4000; Fetch 3]
            ∧ attempt (env 3%nat) = inl err).
Proof.
  assert (∀ v, snd (callGemini env) = Resolved v →
               v = Js.Str "" ∨ Js.truthy v = true) as Hval.
  { unfold callGemini. simpl. intros v.
    destruct (attempt (env 0%nat)) as [e0 | v0] eqn:H0; simpl;
      [| intros [= <-]; by eapply attempt_value].
    destruct (attempt (env 1%nat)) as [e1 | v1] eqn:H1; simpl;
      [| intros [= <-]; by eapply attempt_value].
    destruct (attempt (env 2%nat)) as [e2 | v2] eqn:H2; simpl;
      [| intros [= <-]; by eapply attempt_value].
    destruct (attempt (env 3%nat)) as [e3 | v3] eqn:H3; simpl;
      [discriminate | intros [= <-]; by eapply attempt_value]. }
  split; [| split; [exact Hval | split]].
  - unfold callGemini. simpl.
    destruct (attempt (env 0%nat)); simpl; [| lia].
    destruct (attempt (env 1%nat)); simpl; [| lia].
    destruct (attempt (env 2%nat)); simpl; [| lia].
    destruct (attempt (env 3%nat)); simpl; lia.
  - intros Hund. destruct (Hval _ Hund) as [? | ?]; discriminate.
  - unfold callGemini. simpl. intros err.
    destruct (attempt (env 0%nat)); simpl; [| discriminate].
    destruct (attempt (env 1%nat)); simpl; [| discriminate].
    destruct (attempt (env 2%nat)); simpl; [| discriminate].
    destruct (attempt (env 3%nat)); simpl; [| discriminate].
    intros [= <-]. by split.
Qed.

(** ** Bulk fill, continued *)

Lemma mergeQuestions_skeleton (s : PaperSection) (generatedData : Js.value)
    (qs : list Question) :
  mergeQuestions s generatedData = Some qs →
  skeletonOf (set_questions qs s) = skeletonOf s.
Proof.
  unfold mergeQuestions, skeletonOf, blueprintOf. simpl.
  destruct (Js.nullish generatedData).
  - destruct (questions s) eqn:Hq; [| discriminate]. by intros [= <-].
  - intros [= <-]. f_equal. apply list_eq. intros j.
    rewrite !list_lookup_fmap, list_lookup_imap.
    destruct (questions s !! j) as [q |]; [| reflexivity]. simpl.
    unfold mergeQuestion. by destruct (Js.truthy _).
Qed.

Lemma mergeSections_skeleton (sectionId : Z) (generatedData : Js.value)
    (prev newSections : list PaperSection) :
  mergeSections sectionId generatedData prev = Some newSections →
  skeletonOf <$> newSections = skeletonOf <$> prev
  ∧ ∀ i s, prev !! i = Some s → s_id s ≠ sectionId → newSections !! i = Some s.
Proof.
  unfold mergeSections. intros Hm. apply mapM_Some_1 in Hm.
  induction Hm as [| s s' prev newSections Hs _ [IH1 IH2]].
  - split; [reflexivity | intros i s Hi; by rewrite lookup_nil in Hi].
  - assert (skeletonOf s' = skeletonOf s ∧ (s_id s ≠ sectionId → s' = s))
      as [Hsk Hsame].
    { destruct (decide (s_id s ≠ sectionId)) as [Hne | Heq].
      - injection Hs as <-. by split.
      - destruct (mergeQuestions s generatedData) as [qs |] eqn:Hq;
          [| discriminate]. simpl in Hs. injection Hs as <-.
        split; [exact (mergeQuestions_skeleton s generatedData qs Hq)
               | intros ?; contradiction]. }
    split; [rewrite !fmap_cons; by rewrite Hsk, IH1 |].
    intros [| i] s1 Hi Hne; simpl in *; [| by apply IH2].
    injection Hi as ->. by rewrite Hsame.
Qed.

Lemma mergeSections_None (sectionId : Z) (generatedData : Js.value)
    (prev : list PaperSection) :
  mergeSections sectionId generatedData prev = None →
  Js.nullish generatedData = true
  ∧ ∃ s, s ∈ prev ∧ s_id s = sectionId ∧ questions s ≠ [].
Proof.
  unfold mergeSections. induction prev as [| s prev IH]; [discriminate |].
  assert (mapM (fun s => if decide (s_id s ≠ sectionId) then Some s
                         else (fun qs => set_questions qs s)
                                <$> mergeQuestions s generatedData) prev = None →
          Js.nullish generatedData = true
          ∧ ∃ s0, s0 ∈ s :: prev ∧ s_id s0 = sectionId ∧ questions s0 ≠ [])
    as Hrest.
  { intros Hnone. destruct (IH Hnone) as (Hnull & s0 & Hin & Hid & Hqs).
    split; [exact Hnull |]. exists s0.
    split; [by apply elem_of_cons; right | done]. }
  simpl.
  destruct (decide (s_id s ≠ sectionId)) as [Hne | Heq]; simpl.
  - destruct (mapM _ prev);
          [intros H; cbv in H; discriminate H | intros _; by apply Hrest].
  - apply dec_stable in Heq. unfold mergeQuestions in *.
    destruct (Js.nullish generatedData) eqn:Hnull.
    + destruct (questions s) as [| q qs] eqn:Hqs; simpl.
      * destruct (mapM _ prev);
          [intros H; cbv in H; discriminate H | intros _; by apply Hrest].
      * intros _. split; [reflexivity |]. exists s.
        split; [by apply elem_of_cons; left |]. split; [exact Heq |].
        by rewrite Hqs.
    + simpl. destruct (mapM _ prev);
          [intros H; cbv in H; discriminate H | intros _; by apply Hrest].
Qed.

(** X9: when the settling of a bulk fill returns, whatever the reply
    holds, the number and the configuration of the sections, the number
    of questions of each, and every question's id and image are as they
    were; sections other than the target are untouched; metadata, tab and
    active section stay; and the loading flag and the pending section are
    cleared. It returns in every case but one: when the reply parses to
    [null] and the target section has a question, the state updater
    raises, outside the [try]. *)
Theorem settleMagicFill_keeps_skeleton (JSON_parse : string -> option Js.value)
    (sectionId : Z) (reply : settled) (st : AppState) :
  (∀ st', settleMagicFill JSON_parse sectionId reply st = Returns st' →
     skeletonOf <$> sections st' = skeletonOf <$> sections st
     ∧ (∀ i s, sections st !! i = Some s → s_id s ≠ sectionId →
               sections st' !! i = Some s)
     ∧ meta st' = meta st ∧ activeTab st' = activeTab st
     ∧ activeSectionId st' = activeSectionId st
     ∧ aiLoadingState st' = (false, None)
     ∧ pendingMagicSectionId st' = None)
  ∧ ((∃ st', settleMagicFill JSON_parse sectionId reply st = Returns st')
     ∨ (∃ st' rawText generatedData s,
          settleMagicFill JSON_parse sectionId reply st = Throws st'
          ∧ reply = Resolved (Js.Str rawText)
          ∧ JSON_parse (sanitize rawText) = Some generatedData
          ∧ Js.nullish generatedData = true
          ∧ s ∈ sections st ∧ s_id s = sectionId ∧ questions s ≠ [])).
Proof.
  unfold settleMagicFill.
  destruct reply as [[| | b | n | rawText | items | props] | err];
    try (split; [intros st' [= <-]; simpl; by repeat split | left; eauto]).
  destruct (JSON_parse (sanitize rawText)) as [generatedData |] eqn:Hparse;
    [| split; [intros st' [= <-]; simpl; by repeat split | left; eauto]].
  destruct (mergeSections sectionId generatedData (sections st))
    as [newSections |] eqn:Hm.
  - destruct (mergeSections_skeleton _ _ _ _ Hm) as [Hsk Hother].
    split; [intros st' [= <-]; simpl; by repeat split | left; eauto].
  - destruct (mergeSections_None _ _ _ Hm) as (Hnull & s & Hin & Hid & Hqs).
    split; [discriminate |]. right. eexists _, rawText, generatedData, s.
    by repeat split.
Qed.

(** X10: when all four attempts fail, a bulk fill on an existing section
    changes no section, clears the loading flag and shows the failure
    alert once. *)
Theorem executeMagicFill_transport_failure (JSON_parse : string -> option Js.value)
    (sectionId : Z) (env : nat -> FetchOutcome) (st : AppState)
    (s : PaperSection) :
  find_section sectionId (sections st) = Some s →
  (∀ i, (i <= 3)%nat → ∃ err, attempt (env i) = inl err) →
  ∃ st', executeMagicFill JSON_parse (Some sectionId) env st = Returns st'
         ∧ sections st' = sections st
         ∧ aiLoadingState st' = (false, None)
         ∧ alerts st' = (alerts st ++ [generationFailed])%list.
Proof.
  intros Hfind Hfail.
  destruct (Hfail 0%nat) as [e0 H0]; [lia |].
  destruct (Hfail 1%nat) as [e1 H1]; [lia |].
  destruct (Hfail 2%nat) as [e2 H2]; [lia |].
  destruct (Hfail 3%nat) as [e3 H3]; [lia |].
  unfold executeMagicFill. rewrite Hfind.
  unfold callGemini. simpl. rewrite H0, H1, H2, H3. simpl.
  eexists. split; [reflexivity |]. by repeat split.
Qed.

Lemma executeMagicFill_transport_failure_witness :
  ∃ st', executeMagicFill (fun _ => None) (Some 2%Z) (fun _ => Responds 429 (Json Js.Null))
           (sampleState sampleMeta) = Returns st'
         ∧ sections st' = defaultSections
         ∧ alerts st' = [generationFailed].
Proof.
  destruct (executeMagicFill_transport_failure (fun _ => None) 2
              (fun _ => Responds 429 (Json Js.Null)) (sampleState sampleMeta)
              (mkSection 2 "Q2" "Short Notes / Answer" subjective
                         (Whole 4) (Whole 2) (Whole 3) []))
    as (st' & Hret & Hsec & _ & Hal).
  - reflexivity.
  - intros i _. exists (ApiError 429). reflexivity.
  - exists st'. split; [exact Hret |]. split; [exact Hsec | exact Hal].
Defined.

(** X11: a success-status response whose JSON body has no candidate text
    is not retried; with a JSON reader that rejects the empty text, as
    [JSON.parse] does, the bulk fill then ends as a reported failure that
    changes no section. *)
Theorem executeMagicFill_missing_text (JSON_parse : string -> option Js.value)
    (sectionId : Z) (env : nat -> FetchOutcome) (st : AppState)
    (s : PaperSection) (status : Z) (data : Js.value) :
  JSON_parse "" = None →
  find_section sectionId (sections st) = Some s →
  env 0%nat = Responds status (Json data) →
  ok status = true → Js.nullish data = false →
  Js.truthy (candidatePath data) = false →
  callGemini env = ([Fetch 0], Resolved (Js.Str ""))
  ∧ ∃ st', executeMagicFill JSON_parse (Some sectionId) env st = Returns st'
           ∧ sections st' = sections st
           ∧ alerts st' = (alerts st ++ [generationFailed])%list.
Proof.
  intros Hparse Hfind Henv Hok Hnn Hfalsy.
  assert (callGemini env = ([Fetch 0], Resolved (Js.Str ""))) as Hcall.
  { unfold callGemini. simpl. rewrite Henv, (attempt_json status data Hok Hnn).
    unfold Js.or. by rewrite Hfalsy. }
  split; [exact Hcall |].
  unfold executeMagicFill. rewrite Hfind, Hcall. unfold settleMagicFill. simpl.
  change (sanitize "") with "". rewrite Hparse.
  eexists. split; [reflexivity |]. by split.
Qed.

Lemma executeMagicFill_missing_text_witness :
  callGemini (fun _ => Responds 200 (Json (Js.Obj [])))
  = ([Fetch 0], Resolved (Js.Str "")).
Proof.
  apply (executeMagicFill_missing_text (fun _ => None) 1
           (fun _ => Responds 200 (Json (Js.Obj []))) (sampleState sampleMeta)
           (mkSection 1 "Q1" "Multiple Choice Questions" mcq
                      (Whole 6) (Whole 6) (Whole 1) [])
           200 (Js.Obj [])); reflexivity.
Defined.

(** ** Builder navigation *)

Lemma findIndexFrom_lookup (secs : list PaperSection) (i : nat)
    (s : PaperSection) (k : Z) :
  NoDup (s_id <$> secs) → secs !! i = Some s →
  findIndexFrom (s_id s) secs k = (k + Z.of_nat i)%Z.
Proof.
  revert i k. induction secs as [| s0 secs IH]; intros i k Hnd Hi; [done |].
  simpl in Hnd. apply NoDup_cons in Hnd as [Hnotin Hnd].
  destruct i as [| i]; simpl in *.
  - injection Hi as ->. rewrite decide_True by done. lia.
  - rewrite decide_False.
    + rewrite (IH i (k + 1)%Z Hnd Hi). lia.
    + intros Heq. apply Hnotin. rewrite Heq. apply list_elem_of_fmap.
      exists s. split; [done |]. by apply list_elem_of_lookup_2 in Hi.
Qed.

Lemma setActiveSectionId_back (a : Z) (st : AppState) :
  setActiveSectionId (activeSectionId st) (setActiveSectionId a st) = st.
Proof. by destruct st. Qed.

(** X12: with distinct section ids and the active section at position
    [i]: Next moves to the section at position [i + 1] and Previous from
    there comes back to the same state; on the last section Next opens the
    preview and keeps the active section; on the first section Previous
    does nothing. *)
Theorem nextSection_previousSection (st : AppState) (i : nat) (s : PaperSection) :
  NoDup (s_id <$> sections st) →
  sections st !! i = Some s →
  activeSectionId st = s_id s →
  (∀ s1, sections st !! S i = Some s1 →
         nextSection st = Returns (setActiveSectionId (s_id s1) st)
         ∧ previousSection (setActiveSectionId (s_id s1) st) = Returns st)
  ∧ (S i = length (sections st) →
     nextSection st = Returns (setActiveTab preview st))
  ∧ (i = 0%nat → previousSection st = Returns st).
Proof.
  intros Hnd Hi Hact.
  assert (findIndex (activeSectionId st) (sections st) = Z.of_nat i) as Hidx.
  { unfold findIndex. rewrite Hact, (findIndexFrom_lookup _ i s 0 Hnd Hi). lia. }
  split; [| split].
  - intros s1 Hs1. pose proof (lookup_lt_Some _ _ _ Hs1) as Hlt. split.
    + unfold nextSection. rewrite Hidx. rewrite decide_False by lia.
      unfold idAt. destruct (Z.ltb_spec (Z.of_nat i + 1) 0); [lia |].
      replace (Z.to_nat (Z.of_nat i + 1)) with (S i) by lia. by rewrite Hs1.
    + unfold previousSection. simpl.
      unfold findIndex. rewrite (findIndexFrom_lookup _ (S i) s1 0 Hnd Hs1).
      destruct (Z.ltb_spec 0 (0 + Z.of_nat (S i))); [| lia].
      unfold idAt. destruct (Z.ltb_spec (0 + Z.of_nat (S i) - 1) 0); [lia |].
      replace (Z.to_nat (0 + Z.of_nat (S i) - 1)) with i by lia.
      rewrite Hi. simpl. rewrite <- Hact. by rewrite setActiveSectionId_back.
  - intros Hlast. unfold nextSection. rewrite Hidx. by rewrite decide_True by lia.
  - intros ->. unfold previousSection. rewrite Hidx. reflexivity.
Qed.

Lemma nextSection_previousSection_witness :
  nextSection (sampleState sampleMeta)
  = Returns (setActiveSectionId 2 (sampleState sampleMeta))
  ∧ previousSection (setActiveSectionId 2 (sampleState sampleMeta))
    = Returns (sampleState sampleMeta).
Proof.
  destruct (nextSection_previousSection (sampleState sampleMeta) 0
              (mkSection 1 "Q1" "Multiple Choice Questions" mcq
                         (Whole 6) (Whole 6) (Whole 1) [])
              defaultSections_NoDup eq_refl eq_refl) as [Hnext _].
  apply (Hnext (mkSection 2 "Q2" "Short Notes / Answer" subjective
                          (Whole 4) (Whole 2) (Whole 3) [])).
  reflexivity.
Defined.

(** ** Times of day *)

Lemma forall_below (N : nat) (P : Z → bool) :
  forallb P (List.map Z.of_nat (seq 0 N)) = true →
  ∀ n, (0 <= n < Z.of_nat N)%Z → P n = true.
Proof.
  intros Hall n Hn. rewrite forallb_forall in Hall. apply Hall.
  apply in_map_iff. exists (Z.to_nat n). split; [lia |].
  apply in_seq. lia.
Qed.

Lemma split_on_none (sep : ascii) (s : string) :
  has_char sep s = false → split_on sep s = [s].
Proof.
  induction s as [| c s IH]; simpl; [done |].
  intros Hno. apply orb_false_iff in Hno as [Hc Hs].
  rewrite Hc, (IH Hs). reflexivity.
Qed.

Lemma split_on_app (sep : ascii) (a b : string) :
  has_char sep a = false →
  split_on sep (a ++ String sep b) = a :: split_on sep b.
Proof.
  induction a as [| c a IH]; simpl.
  - intros _. by rewrite Ascii.eqb_refl.
  - intros Hno. apply orb_false_iff in Hno as [Hc Ha].
    rewrite Hc, (IH Ha). reflexivity.
Qed.

Lemma pad2_facts (n : Z) :
  (0 <= n < 100)%Z →
  Number_ (pad2 n) = Some n ∧ parseInt10 (pad2 n) = Some n
  ∧ has_char ":" (pad2 n) = false ∧ pad2 n ≠ "".
Proof.
  intros Hn.
  assert (forallb pad2_check (List.map Z.of_nat (seq 0 100)) = true) as Hall
    by (vm_compute; reflexivity).
  pose proof (forall_below 100 pad2_check Hall n Hn) as H.
  unfold pad2_check in H. rewrite !andb_true_iff in H.
  destruct H as [[[H1 H2] H3] H4].
  apply bool_decide_eq_true_1 in H1. apply bool_decide_eq_true_1 in H2.
  apply negb_true_iff in H3. apply negb_true_iff in H4.
  repeat split; try done. intros Heq. by rewrite Heq in H4.
Qed.

Lemma timeFields_hhmm (h m : Z) :
  (0 <= h < 100)%Z → (0 <= m < 100)%Z →
  timeFields (hhmm h m) = Some (Int h, Int m).
Proof.
  intros Hh Hm. destruct (pad2_facts h Hh) as (Hnh & _ & Hch & _).
  destruct (pad2_facts m Hm) as (Hnm & _ & Hcm & _).
  unfold timeFields, hhmm.
  change (pad2 h ++ ":" ++ pad2 m) with (pad2 h ++ String ":" (pad2 m)).
  rewrite (split_on_app ":" _ _ Hch), (split_on_none ":" _ Hcm).
  by rewrite Hnh, Hnm.
Qed.

Lemma hhmm_nonempty (h m : Z) : String.eqb (hhmm h m) "" = false.
Proof. unfold hhmm. by destruct (pad2 h). Qed.

(** X13: for an hour from 0 to 23 written with two digits and any minutes
    text without a colon, the 12-hour form shows the hour as a number from
    1 to 12 (0 and 12 both as 12), the minutes text unchanged, and AM
    before noon, PM from noon on. *)
Theorem formatTime12Hour_valid (h : Z) (minutes : string) :
  (0 <= h < 24)%Z → has_char ":" minutes = false →
  formatTime12Hour (pad2 h ++ ":" ++ minutes)
  = pretty (if (h mod 12 =? 0)%Z then 12%Z else (h mod 12)%Z)
    ++ ":" ++ minutes ++ " " ++ (if (h <? 12)%Z then "AM" else "PM").
Proof.
  intros Hh Hno. destruct (pad2_facts h ltac:(lia)) as (_ & Hp & Hch & Hne).
  unfold formatTime12Hour.
  change (pad2 h ++ ":" ++ minutes) with (pad2 h ++ String ":" minutes).
  rewrite (split_on_app ":" _ _ Hch), (split_on_none ":" _ Hno). simpl.
  assert (String.eqb (pad2 h ++ String ":" minutes) "" = false) as ->
    by by destruct (pad2 h).
  rewrite Hp. rewrite Z.rem_mod_nonneg by lia.
  destruct (Z.leb_spec 12 h), (Z.ltb_spec h 12); try lia; reflexivity.
Qed.

Lemma formatTime12Hour_valid_witness :
  formatTime12Hour (pad2 13 ++ ":" ++ "05") = "1:05 PM".
Proof.
  apply (formatTime12Hour_valid 13 "05"); [lia | reflexivity].
Defined.

(** X14: an empty time text displays as the empty text; a text whose hour
    part does not start with a number displays the hour 12 with AM; and a
    two-digit hour with no colon after it displays the word undefined for
    the minutes. *)
Theorem formatTime12Hour_edges (hours minutes : string) (h : Z) :
  formatTime12Hour "" = ""
  ∧ (has_char ":" hours = false → parseInt10 hours = None →
     formatTime12Hour (hours ++ ":" ++ minutes)
     = "12:" ++ default "undefined" (head (split_on ":" minutes)) ++ " AM")
  ∧ ((0 <= h < 24)%Z →
     formatTime12Hour (pad2 h)
     = pretty (if (h mod 12 =? 0)%Z then 12%Z else (h mod 12)%Z)
       ++ ":undefined " ++ (if (h <? 12)%Z then "AM" else "PM")).
Proof.
  split; [reflexivity |]. split.
  - intros Hno Hnan. unfold formatTime12Hour.
    change (hours ++ ":" ++ minutes) with (hours ++ String ":" minutes).
    rewrite (split_on_app ":" _ _ Hno). simpl.
    assert (String.eqb (hours ++ String ":" minutes) "" = false) as ->
      by by destruct hours.
    rewrite Hnan. by destruct (split_on ":" minutes).
  - intros Hh. destruct (pad2_facts h ltac:(lia)) as (_ & Hp & Hch & Hne).
    unfold formatTime12Hour. rewrite (split_on_none ":" _ Hch). simpl.
    assert (String.eqb (pad2 h) "" = false) as -> by by destruct (pad2 h).
    rewrite Hp. rewrite Z.rem_mod_nonneg by lia.
    destruct (Z.leb_spec 12 h), (Z.ltb_spec h 12); try lia; reflexivity.
Qed.

Lemma formatTime12Hour_edges_witness :
  formatTime12Hour ("ab" ++ ":" ++ "30") = "12:30 AM".
Proof.
  destruct (formatTime12Hour_edges "ab" "30" 0) as (_ & Hnan & _).
  apply Hnan; reflexivity.
Defined.

(** ** Durations *)

Lemma durationText_spec (d : Z) :
  (0 <= d < 1440)%Z → durationText d = durationSpec d.
Proof.
  intros Hd.
  assert (forallb duration_check (List.map Z.of_nat (seq 0 1440)) = true) as Hall
    by (vm_compute; reflexivity).
  pose proof (forall_below 1440 duration_check Hall d Hd) as H.
  by apply String.eqb_eq in H.
Qed.

Lemma calculateDurationText_fields (h1 m1 h2 m2 : Z) :
  (0 <= h1 < 100)%Z → (0 <= m1 < 100)%Z → (0 <= h2 < 100)%Z → (0 <= m2 < 100)%Z →
  calculateDurationText (hhmm h1 m1) (hhmm h2 m2)
  = Some (durationText
            (if ((h2 * 60 + m2) - (h1 * 60 + m1) <? 0)%Z
             then ((h2 * 60 + m2) - (h1 * 60 + m1) + 24 * 60)%Z
             else ((h2 * 60 + m2) - (h1 * 60 + m1))%Z)).
Proof.
  intros Hh1 Hm1 Hh2 Hm2. unfold calculateDurationText.
  rewrite !hhmm_nonempty. simpl. by rewrite !timeFields_hhmm by lia.
Qed.

Lemma wrap_day (d : Z) :
  (-1440 < d < 1440)%Z →
  (if (d <? 0)%Z then (d + 24 * 60)%Z else d) = (d mod 1440)%Z.
Proof.
  intros Hd. destruct (Z.ltb_spec d 0).
  - apply Z.mod_unique with (q := (-1)%Z); lia.
  - by rewrite Z.mod_small by lia.
Qed.

(** X15: for two times of day written as HH:MM, the duration text is that
    of the minutes from start to end counted forward on the 24-hour clock:
    empty when they are the same time, hours alone when the minutes are
    zero, minutes alone below one hour, both otherwise; an end before the
    start wraps past midnight. *)
Theorem calculateDurationText_valid (h1 m1 h2 m2 : Z) :
  (0 <= h1 < 24)%Z → (0 <= m1 < 60)%Z → (0 <= h2 < 24)%Z → (0 <= m2 < 60)%Z →
  calculateDurationText (hhmm h1 m1) (hhmm h2 m2)
  = Some (durationSpec (((h2 * 60 + m2) - (h1 * 60 + m1)) mod 1440)%Z).
Proof.
  intros Hh1 Hm1 Hh2 Hm2.
  rewrite calculateDurationText_fields by lia.
  rewrite wrap_day by lia.
  rewrite durationText_spec; [reflexivity |].
  apply Z.mod_pos_bound. lia.
Qed.

Lemma calculateDurationText_valid_witness :
  calculateDurationText (hhmm 23 0) (hhmm 1 0) = Some "2 Hr".
Proof.
  apply (calculateDurationText_valid 23 0 1 0); lia.
Defined.

(** X16: the duration text is empty exactly when the two times of day are
    the same. *)
Theorem calculateDurationText_empty_iff (h1 m1 h2 m2 : Z) :
  (0 <= h1 < 24)%Z → (0 <= m1 < 60)%Z → (0 <= h2 < 24)%Z → (0 <= m2 < 60)%Z →
  calculateDurationText (hhmm h1 m1) (hhmm h2 m2) = Some ""
  ↔ h1 = h2 ∧ m1 = m2.
Proof.
  intros Hh1 Hm1 Hh2 Hm2.
  rewrite calculateDurationText_fields, wrap_day by lia.
  set (d := ((h2 * 60 + m2 - (h1 * 60 + m1)) mod 1440)%Z).
  assert (0 <= d < 1440)%Z as Hd by (apply Z.mod_pos_bound; lia).
  rewrite (durationText_spec d Hd).
  assert (d = 0%Z ↔ h1 = h2 ∧ m1 = m2) as Hzero.
  { unfold d. split.
    - intros H0. apply Z.mod_divide in H0; [| lia].
      destruct H0 as [q Hq]. assert (q = 0%Z) by lia. lia.
    - intros [-> ->]. by replace (h2 * 60 + m2 - (h2 * 60 + m2))%Z with 0%Z by lia. }
  rewrite <- Hzero. unfold durationSpec. split.
  - intros Hs. destruct (Z.eqb_spec d 0) as [? | Hne]; [done |].
    exfalso. injection Hs as Hs.
    destruct (d mod 60 =? 0)%Z.
    + by destruct (pretty (d / 60)%Z).
    + destruct (d <? 60)%Z; [by destruct (pretty d) | by destruct (pretty (d / 60)%Z)].
  - intros ->. reflexivity.
Qed.

Lemma calculateDurationText_empty_iff_witness :
  calculateDurationText (hhmm 9 30) (hhmm 9 30) = Some "".
Proof.
  apply (calculateDurationText_empty_iff 9 30 9 30); lia.
Defined.

Lemma addMinutesToTime_hhmm (h m minutesToAdd : Z) :
  (0 <= h < 24)%Z → (0 <= m < 60)%Z →
  addMinutesToTime (hhmm h m) minutesToAdd
  = Some (hhmm (((h * 60 + (m + minutesToAdd)) / 60) mod 24)
               ((h * 60 + (m + minutesToAdd)) mod 60)).
Proof.
  intros Hh Hm. unfold addMinutesToTime.
  rewrite hhmm_nonempty, timeFields_hhmm by lia. reflexivity.
Qed.

(** X17: choosing a duration when the start time is a time of day HH:MM
    sets the end time, and nothing else, so that the duration text shown
    for the two is the text of the chosen minutes (counted modulo one
    day); with no start time it only shows an alert. The end time is
    computed on civil time without a change of the zone offset. *)
Theorem handleDurationSelect_duration (minutes h m : Z) (st : AppState) :
  (0 <= h < 24)%Z → (0 <= m < 60)%Z →
  (startTime (meta st) = "" →
   handleDurationSelect minutes st
   = Some (alert "Please select a Start Time first." st))
  ∧ (startTime (meta st) = hhmm h m →
     ∃ st', handleDurationSelect minutes st = Some st'
       ∧ meta st' = setEndTime (endTime (meta st')) (meta st)
       ∧ sections st' = sections st ∧ alerts st' = alerts st
       ∧ calculateDurationText (startTime (meta st')) (endTime (meta st'))
         = Some (durationSpec (minutes mod 1440)%Z)).
Proof.
  intros Hh Hm. split.
  - intros Hempty. unfold handleDurationSelect. by rewrite Hempty.
  - intros Hstart. unfold handleDurationSelect.
    rewrite Hstart, hhmm_nonempty, (addMinutesToTime_hhmm h m minutes Hh Hm).
    simpl. eexists. split; [reflexivity |]. simpl.
    split; [reflexivity |]. split; [reflexivity |]. split; [reflexivity |].
    rewrite Hstart.
    set (T := (h * 60 + (m + minutes))%Z).
    assert (0 <= (T / 60) mod 24 < 24)%Z as HbH by (apply Z.mod_pos_bound; lia).
    assert (0 <= T mod 60 < 60)%Z as HbM by (apply Z.mod_pos_bound; lia).
    rewrite calculateDurationText_fields, wrap_day by lia.
    rewrite durationText_spec by (apply Z.mod_pos_bound; lia).
    f_equal. f_equal.
    pose proof (Z.mod_eq T 60 ltac:(lia)) as HM.
    pose proof (Z.mod_eq (T / 60) 24 ltac:(lia)) as HH.
    replace (((T / 60) mod 24) * 60 + T mod 60 - (h * 60 + m))%Z
      with (minutes + (- (T / 60 / 24)) * 1440)%Z by (unfold T in *; lia).
    apply Z.mod_add. lia.
Qed.

Lemma handleDurationSelect_duration_witness :
  ∃ st', handleDurationSelect 90
           (setMeta (mkMeta "U" "S" "B" "5" "AI" "2025-2026" "MST" "C1" "Algo"
                            "2025-11-03" (hhmm 23 30) "" "") (sampleState sampleMeta))
         = Some st'
         ∧ calculateDurationText (startTime (meta st')) (endTime (meta st'))
           = Some (durationSpec (90 mod 1440)%Z).
Proof.
  destruct (handleDurationSelect_duration 90 23 30
              (setMeta (mkMeta "U" "S" "B" "5" "AI" "2025-2026" "MST" "C1" "Algo"
                               "2025-11-03" (hhmm 23 30) "" "")
                       (sampleState sampleMeta))) as [_ Hsel]; [lia | lia |].
  destruct Hsel as (st' & Hret & _ & _ & _ & Hdur); [reflexivity |].
  exists st'. split; [exact Hret | exact Hdur].
Defined.

(** ** Sanitizing a reply *)

Lemma string_app_nil_r (s : string) : s ++ "" = s.
Proof.
  induction s as [| c s IH]; [done |].
  change (String c (s ++ "") = String c s). by rewrite IH.
Qed.

Lemma prefix_nil (u : string) : String.prefix "" u = true.
Proof. by destruct u. Qed.

Lemma prefix_cons (a b : ascii) (p u : string) :
  String.prefix (String a p) (String b u)
  = if Ascii.eqb a b then String.prefix p u else false.
Proof.
  cbn [String.prefix]. destruct (ascii_dec a b) as [-> | Hne].
  - by rewrite Ascii.eqb_refl.
  - apply Ascii.eqb_neq in Hne. by rewrite Hne.
Qed.

Lemma remove_from_keep (pat : string) (c : ascii) (rest : string) :
  String.prefix pat (String c rest) = false →
  Js.remove_from pat 0 (String c rest) = String c (Js.remove_from pat 0 rest).
Proof. intros H. cbn [Js.remove_from]. by rewrite H. Qed.

Lemma remove_from_match (pat : string) (c : ascii) (rest : string) :
  String.prefix pat (String c rest) = true →
  Js.remove_from pat 0 (String c rest)
  = Js.remove_from pat (String.length pat - 1) rest.
Proof. intros H. cbn [Js.remove_from]. by rewrite H. Qed.

Lemma prefix_tick (p : string) (c : ascii) (u : string) :
  Ascii.eqb c "`" = false → String.prefix (String "`" p) (String c u) = false.
Proof. intros Hc. rewrite prefix_cons, Ascii.eqb_sym. by rewrite Hc. Qed.

Lemma remove_from_clean (p t u : string) :
  has_char "`" t = false →
  Js.remove_from (String "`" p) 0 (t ++ u)
  = t ++ Js.remove_from (String "`" p) 0 u.
Proof.
  induction t as [| c t IH]; [done |].
  cbn [has_char]. intros Hno. apply orb_false_iff in Hno as [Hc Ht].
  change (String c t ++ u) with (String c (t ++ u)).
  rewrite remove_from_keep by by apply prefix_tick.
  by rewrite (IH Ht).
Qed.

Lemma prefix_fence_end (p t : string) :
  String.prefix (String "`" p) "```" = false →
  has_char "`" t = false →
  String.prefix (String "`" p) (t ++ "```") = false.
Proof.
  intros Hend Hno. destruct t as [| c t]; [exact Hend |].
  cbn [has_char] in Hno. apply orb_false_iff in Hno as [Hc _].
  change (String c t ++ "```") with (String c (t ++ "```")).
  by apply prefix_tick.
Qed.

Lemma prefix_word_end (p t : string) :
  has_char "`" p = false → String.prefix p t = false →
  String.prefix p (t ++ "```") = false.
Proof.
  revert t. induction p as [| a p IH]; intros t Hp Hpre; [by destruct t |].
  cbn [has_char] in Hp. apply orb_false_iff in Hp as [Ha Hp].
  destruct t as [| c t].
  - change ("" ++ "```") with (String "`" "``"). rewrite prefix_cons. by rewrite Ha.
  - change (String c t ++ "```") with (String c (t ++ "```")).
    rewrite prefix_cons in *. destruct (Ascii.eqb a c); [by apply IH | done].
Qed.

(** X18: a reply without a backtick is only trimmed; a reply wrapped in a
    json code fence, or in a bare fence whose inside does not begin with
    the word json, is reduced to its inside, trimmed. *)
Theorem sanitize_fence (t : string) :
  has_char "`" t = false →
  sanitize t = Js.trim t
  ∧ sanitize ("```json" ++ t ++ "```") = Js.trim t
  ∧ (String.prefix "json" t = false →
     sanitize ("```" ++ t ++ "```") = Js.trim t).
Proof.
  intros Hno.
  assert (∀ p, Js.remove_all (String "`" p) t = t) as Hclean.
  { intros p. unfold Js.remove_all. rewrite <- (string_app_nil_r t) at 1.
    rewrite (remove_from_clean p t "" Hno). apply string_app_nil_r. }
  assert (Js.remove_all "```" ("```" ++ t ++ "```") = t) as Hbare.
  { unfold Js.remove_all.
    change ("```" ++ t ++ "```") with (String "`" (String "`" (String "`" (t ++ "```")))).
    rewrite remove_from_match by (rewrite !prefix_cons, prefix_nil; reflexivity).
    cbn [String.length Nat.sub Js.remove_from].
    rewrite (remove_from_clean "``" t "```" Hno).
    change (Js.remove_from "```" 0 "```") with "". apply string_app_nil_r. }
  unfold sanitize. split; [| split].
  - by rewrite !Hclean.
  - assert (Js.remove_all "```json" ("```json" ++ t ++ "```") = t ++ "```") as ->.
    { unfold Js.remove_all.
      change ("```json" ++ t ++ "```")
        with (String "`" (String "`" (String "`" (String "j" (String "s"
                (String "o" (String "n" (t ++ "```")))))))).
      rewrite remove_from_match by (rewrite !prefix_cons, prefix_nil; reflexivity).
      cbn [String.length Nat.sub Js.remove_from].
      by rewrite (remove_from_clean "``json" t "```" Hno). }
    unfold Js.remove_all. rewrite (remove_from_clean "``" t "```" Hno).
    change (Js.remove_from "```" 0 "```") with "". by rewrite string_app_nil_r.
  - intros Hpre.
    assert (Js.remove_all "```json" ("```" ++ t ++ "```") = "```" ++ t ++ "```") as ->;
      [| by rewrite Hbare].
    unfold Js.remove_all.
    change ("```" ++ t ++ "```") with (String "`" (String "`" (String "`" (t ++ "```")))).
    rewrite remove_from_keep.
    2:{ rewrite !prefix_cons. cbn [Ascii.eqb Bool.eqb].
        by apply prefix_word_end. }
    rewrite remove_from_keep.
    2:{ rewrite !prefix_cons. cbn [Ascii.eqb Bool.eqb].
        by apply prefix_fence_end. }
    rewrite remove_from_keep.
    2:{ rewrite prefix_cons. cbn [Ascii.eqb Bool.eqb].
        by apply prefix_fence_end. }
    by rewrite (remove_from_clean "``json" t "```" Hno).
Qed.

Lemma sanitize_fence_witness :
  sanitize ("```json" ++ " [1] " ++ "```") = Js.trim " [1] ".
Proof.
  destruct (sanitize_fence " [1] " eq_refl) as (_ & Hjson & _). exact Hjson.
Defined.

(** ** The print file name *)

Lemma all_chars_app (P : ascii -> bool) (a b : string) :
  all_chars P (a ++ b) = all_chars P a && all_chars P b.
Proof.
  induction a as [| c a IH]; [done |].
  change (String c a ++ b) with (String c (a ++ b)).
  cbn [all_chars]. by rewrite IH, andb_assoc.
Qed.

Lemma all_chars_impl (P R : ascii -> bool) (s : string) :
  (∀ c, P c = true → R c = true) → all_chars P s = true → all_chars R s = true.
Proof.
  intros Himp. induction s as [| c s IH]; [done |].
  cbn [all_chars]. rewrite !andb_true_iff. intros [Hc Hs]. auto.
Qed.

Lemma all_chars_map (R : ascii -> bool) (f : ascii -> ascii) (s : string) :
  (∀ c, R (f c) = true) → all_chars R (map_chars f s) = true.
Proof.
  intros Hf. induction s as [| c s IH]; [done |].
  cbn [map_chars all_chars]. by rewrite Hf, IH.
Qed.

Lemma all_chars_map_if (P R : ascii -> bool) (f : ascii -> ascii) (s : string) :
  (∀ c, P c = true → R (f c) = true) →
  all_chars P s = true → all_chars R (map_chars f s) = true.
Proof.
  intros Hf. induction s as [| c s IH]; [done |].
  cbn [map_chars all_chars]. rewrite !andb_true_iff. intros [Hc Hs]. auto.
Qed.

(** X19: the print file name is made of letters, digits and underscores
    only, whatever the course name holds, provided the branch and the
    semester hold letters and digits only and the exam type letters,
    digits and spaces only (the branch and the semester are copied as
    they are, and only the spaces of the exam type are replaced). *)
Theorem printFilename_safe (m : Metadata) :
  all_chars is_alnum (branch m) = true →
  all_chars is_alnum (semester m) = true →
  all_chars (fun c => is_alnum c || Ascii.eqb c " ") (examType m) = true →
  all_chars is_safe (printFilename m) = true.
Proof.
  intros Hb Hs Ht. unfold printFilename.
  assert (∀ c, is_alnum c = true → is_safe c = true) as Hsafe
    by (intros c Hc; unfold is_safe; by rewrite Hc).
  rewrite !all_chars_app, !andb_true_iff.
  repeat split; try reflexivity.
  - destruct (String.eqb (branch m) ""); [reflexivity |].
    by apply (all_chars_impl is_alnum).
  - destruct (String.eqb (semester m) ""); [reflexivity |].
    rewrite all_chars_app. apply andb_true_iff. split; [reflexivity |].
    by apply (all_chars_impl is_alnum).
  - destruct (String.eqb (courseName m) ""); [reflexivity |].
    apply all_chars_map. intros c. destruct (is_alnum c) eqn:Hc; [by apply Hsafe | reflexivity].
  - destruct (String.eqb (examType m) ""); [reflexivity |].
    apply (all_chars_map_if (fun c => is_alnum c || Ascii.eqb c " ")); [| exact Ht].
    intros c Hc. destruct (Ascii.eqb c " ") eqn:Hsp; [reflexivity |].
    rewrite orb_false_r in Hc. by apply Hsafe.
Qed.

Lemma printFilename_safe_witness :
  all_chars is_safe
    (printFilename (mkMeta "U" "S" "CSE" "5" "AI" "2025-2026" "CET 1" "CS-501"
                           "Data Structures & Algorithms" "" "" "" "")) = true.
Proof.
  apply (printFilename_safe
           (mkMeta "U" "S" "CSE" "5" "AI" "2025-2026" "CET 1" "CS-501"
                   "Data Structures & Algorithms" "" "" "" "")); reflexivity.
Defined.

(** The branch is copied as it is: a slash in it reaches the file name. *)
Example printFilename_branch_unchanged :
  printFilename (mkMeta "U" "S" "CSE/IT" "5" "AI" "2025-2026" "MST" "CS501"
                        "Maths-II" "" "" "" "")
  = "CSE/IT_SEM5_Maths_II_MST".
Proof. reflexivity. Qed.

(** ** Editing and revising one question *)

Lemma updateQuestion_absent (sectionId : Z) (qIndex : nat)
    (field : QuestionField) (value : Js.value) (prev : list PaperSection) :
  sectionId ∉ (s_id <$> prev) →
  updateQuestion sectionId qIndex field value prev = Some prev.
Proof.
  intros Hnotin. unfold updateQuestion. apply mapM_Some_2.
  induction prev as [| s prev IH]; [constructor |].
  simpl in Hnotin. apply not_elem_of_cons in Hnotin as [Hne Hnotin].
  constructor; [| by apply IH]. rewrite decide_True; [done | congruence].
Qed.

Lemma updateQuestion_target (sectionId : Z) (qIndex : nat)
    (field : QuestionField) (value : Js.value) (prev : list PaperSection)
    (i : nat) (s : PaperSection) (q : Question) :
  NoDup (s_id <$> prev) → prev !! i = Some s → s_id s = sectionId →
  questions s !! qIndex = Some q →
  updateQuestion sectionId qIndex field value prev
  = Some (<[i := set_questions
                   (<[qIndex := assignQuestion q field value]> (questions s)) s]> prev).
Proof.
  intros Hnd Hi Hid Hq. unfold updateQuestion. apply mapM_Some_2.
  revert i Hi. induction prev as [| s0 prev IH]; intros i Hi; [done |].
  simpl in Hnd. apply NoDup_cons in Hnd as [Hnotin Hnd].
  destruct i as [| i]; simpl in Hi.
  - injection Hi as ->. simpl. constructor.
    + rewrite decide_False by (intros Hne; by apply Hne).
      unfold updateQuestion_at. by rewrite Hq.
    + apply mapM_Some_1. apply updateQuestion_absent. by rewrite <- Hid.
  - simpl. constructor; [| by apply IH].
    rewrite decide_True; [done |]. intros Heq. apply Hnotin.
    rewrite Heq, <- Hid. apply list_elem_of_fmap. exists s. split; [done |].
    by apply list_elem_of_lookup_2 in Hi.
Qed.

Lemma find_section_lookup (prev : list PaperSection) (i : nat) (s : PaperSection) :
  NoDup (s_id <$> prev) → prev !! i = Some s →
  find_section (s_id s) prev = Some s.
Proof.
  unfold find_section. revert i. induction prev as [| s0 prev IH]; intros i Hnd Hi; [done |].
  simpl in Hnd. apply NoDup_cons in Hnd as [Hnotin Hnd].
  destruct i as [| i]; simpl in *.
  - injection Hi as ->. by rewrite bool_decide_eq_true_2.
  - rewrite bool_decide_eq_false_2; [by apply (IH i) |].
    intros Heq. apply Hnotin. rewrite Heq. apply list_elem_of_fmap.
    exists s. split; [done |]. by apply list_elem_of_lookup_2 in Hi.
Qed.

(** X20: [updateQuestion] on a section list with distinct ids, at a
    question that exists, replaces exactly the given field of exactly that
    question: the other fields of the question, the other questions of the
    section, the section's configuration and the other sections are left
    as they were. *)
Theorem updateQuestion_frame (sectionId : Z) (qIndex : nat)
    (field : QuestionField) (value : Js.value) (prev : list PaperSection)
    (i : nat) (s : PaperSection) (q : Question) :
  NoDup (s_id <$> prev) → prev !! i = Some s → s_id s = sectionId →
  questions s !! qIndex = Some q →
  ∃ newSections s',
    updateQuestion sectionId qIndex field value prev = Some newSections
    ∧ length newSections = length prev
    ∧ newSections !! i = Some s'
    ∧ blueprintOf s' = blueprintOf s
    ∧ length (questions s') = length (questions s)
    ∧ questions s' !! qIndex = Some (assignQuestion q field value)
    ∧ (∀ j, j ≠ qIndex → questions s' !! j = questions s !! j)
    ∧ (∀ k, k ≠ i → newSections !! k = prev !! k).
Proof.
  intros Hnd Hi Hid Hq.
  rewrite (updateQuestion_target _ _ field value _ _ _ _ Hnd Hi Hid Hq).
  pose proof (lookup_lt_Some _ _ _ Hi) as Hlti.
  pose proof (lookup_lt_Some _ _ _ Hq) as Hltq.
  eexists. eexists. split; [reflexivity |].
  split; [apply length_insert |].
  split; [by apply list_lookup_insert_eq |].
  split; [reflexivity |]. simpl.
  split; [apply length_insert |].
  split; [by apply list_lookup_insert_eq |].
  split.
  - intros j Hj. by apply list_lookup_insert_ne.
  - intros k Hk. by apply list_lookup_insert_ne.
Qed.

Lemma updateQuestion_frame_witness :
  ∃ newSections,
    updateQuestion 2 0 bloom_ (Js.Str "U")
      [mkSection 2 "Q2" "" subjective (Whole 1) (Whole 1) (Whole 3) [sampleQuestion 1]]
    = Some newSections
    ∧ length newSections = 1%nat.
Proof.
  destruct (updateQuestion_frame 2 0 bloom_ (Js.Str "U")
              [mkSection 2 "Q2" "" subjective
                         (Whole 1) (Whole 1) (Whole 3) [sampleQuestion 1]] 0
              (mkSection 2 "Q2" "" subjective
                         (Whole 1) (Whole 1) (Whole 3) [sampleQuestion 1])
              (sampleQuestion 1))
    as (newSections & s' & Hupd & Hlen & _).
  - simpl. apply NoDup_singleton.
  - reflexivity.
  - reflexivity.
  - reflexivity.
  - exists newSections. split; [exact Hupd | exact Hlen].
Defined.

Lemma callGemini_all_fail (env : nat -> FetchOutcome) :
  (∀ i, (i <= 3)%nat → ∃ err, attempt (env i) = inl err) →
  ∃ err, callGemini env
         = ([Fetch 0; Wait 1000; Fetch 1; Wait 2000; Fetch 2; Wait 4000; Fetch 3],
            Rejected err).
Proof.
  intros Hfail.
  destruct (Hfail 0%nat) as [e0 H0]; [lia |].
  destruct (Hfail 1%nat) as [e1 H1]; [lia |].
  destruct (Hfail 2%nat) as [e2 H2]; [lia |].
  destruct (Hfail 3%nat) as [e3 H3]; [lia |].
  exists e3. unfold callGemini. simpl. by rewrite H0, H1, H2, H3.
Qed.

(** X21: a revision changes nothing without a usable reply. For an
    unknown section or a question whose text is empty no request is made
    and the state stays as it is; when all four attempts fail, or when the
    reply for a multiple-choice question does not parse, the sections stay
    as they are, the failure alert is shown and the in-flight mark is
    cleared. *)
Theorem handleImproveQuestion_no_change (JSON_parse : string -> option Js.value)
    (sectionId : Z) (qIndex : nat) (env : nat -> FetchOutcome)
    (b : BuilderState) :
  (find_section sectionId (sections (app b)) = None →
   handleImproveQuestion JSON_parse sectionId qIndex env b = ImproveReturns [] b)
  ∧ (∀ section q,
       find_section sectionId (sections (app b)) = Some section →
       questions section !! qIndex = Some q →
       (Js.truthy (text q) = false →
        handleImproveQuestion JSON_parse sectionId qIndex env b
        = ImproveReturns [] b)
       ∧ (Js.truthy (text q) = true →
          (∀ i, (i <= 3)%nat → ∃ err, attempt (env i) = inl err) →
          handleImproveQuestion JSON_parse sectionId qIndex env b
          = ImproveReturns
              [Fetch 0; Wait 1000; Fetch 1; Wait 2000; Fetch 2; Wait 4000; Fetch 3]
              (mkBuilder (alert improveFailed (app b)) None))
       ∧ (∀ raw, Js.truthy (text q) = true → type section = mcq →
          snd (callGemini env) = Resolved (Js.Str raw) →
          JSON_parse (sanitize raw) = None →
          handleImproveQuestion JSON_parse sectionId qIndex env b
          = ImproveReturns (fst (callGemini env))
              (mkBuilder (alert improveFailed (app b)) None))).
Proof.
  split.
  - intros Hfind. unfold handleImproveQuestion. by rewrite Hfind.
  - intros section q Hfind Hq. unfold handleImproveQuestion.
    rewrite Hfind, Hq. split; [| split].
    + intros Hfalsy. by rewrite Hfalsy.
    + intros Htruthy Hfail. rewrite Htruthy. simpl.
      destruct (callGemini_all_fail env Hfail) as [err ->]. reflexivity.
    + intros raw Htruthy Hmcq Hreply Hparse. rewrite Htruthy. simpl.
      destruct (callGemini env) as [trace reply]. simpl in *. subst reply.
      unfold improveUpdates. rewrite decide_True by done. by rewrite Hparse.
Qed.

Lemma handleImproveQuestion_no_change_witness :
  handleImproveQuestion (fun _ => None) 1 0 (fun _ => Fails TypeError)
    (mkBuilder (sampleState sampleMeta) None)
  = ImproveThrows (mkBuilder (sampleState sampleMeta) None)
  ∧ handleImproveQuestion (fun _ => None) 7 0 (fun _ => Fails TypeError)
      (mkBuilder (sampleState sampleMeta) None)
    = ImproveReturns [] (mkBuilder (sampleState sampleMeta) None).
Proof.
  split; [reflexivity |].
  apply (handleImproveQuestion_no_change (fun _ => None) 7 0
           (fun _ => Fails TypeError) (mkBuilder (sampleState sampleMeta) None)).
  reflexivity.
Defined.

(** X22: on a section that is not multiple-choice, with distinct section
    ids, a reply text revises exactly the text of the target question: it
    becomes the reply with one leading and one trailing double quote and
    all pairs of asterisks removed, then trimmed; every other field,
    question and section is left as it was, no alert is shown and the
    in-flight mark is cleared. *)
Theorem handleImproveQuestion_subjective (JSON_parse : string -> option Js.value)
    (sectionId : Z) (qIndex : nat) (env : nat -> FetchOutcome)
    (b : BuilderState) (i : nat) (s : PaperSection) (q : Question)
    (responseText : string) :
  NoDup (s_id <$> sections (app b)) →
  sections (app b) !! i = Some s → s_id s = sectionId → type s ≠ mcq →
  questions s !! qIndex = Some q → Js.truthy (text q) = true →
  snd (callGemini env) = Resolved (Js.Str responseText) →
  ∃ b', handleImproveQuestion JSON_parse sectionId qIndex env b
        = ImproveReturns (fst (callGemini env)) b'
    ∧ improvingState b' = None
    ∧ alerts (app b') = alerts (app b)
    ∧ meta (app b') = meta (app b)
    ∧ sections (app b')
      = <[i := set_questions
                 (<[qIndex := assignQuestion q text_ (Js.Str (cleanText responseText))]>
                    (questions s)) s]> (sections (app b)).
Proof.
  intros Hnd Hi Hid Hty Hq Htruthy Hreply. unfold handleImproveQuestion.
  rewrite <- Hid, (find_section_lookup _ i s Hnd Hi), Hq, Htruthy. simpl.
  destruct (callGemini env) as [trace reply]. simpl in *. subst reply.
  unfold improveUpdates. rewrite decide_False by done.
  rewrite (updateQuestion_target (s_id s) qIndex text_ _ _ i s q Hnd Hi eq_refl Hq).
  eexists. split; [reflexivity |]. by repeat split.
Qed.

Lemma handleImproveQuestion_subjective_witness :
  ∃ b', handleImproveQuestion (fun _ => None) 2 0
          (fun _ => Responds 200 (Json (replyWith (Js.Str "**What** is a heap? "))))
          (mkBuilder (setSections
                        [mkSection 2 "Q2" "" subjective
                                   (Whole 1) (Whole 1) (Whole 3) [sampleQuestion 1]]
                        (sampleState sampleMeta)) None)
        = ImproveReturns [Fetch 0] b'
        ∧ improvingState b' = None.
Proof.
  destruct (handleImproveQuestion_subjective (fun _ => None) 2 0
              (fun _ => Responds 200 (Json (replyWith (Js.Str "**What** is a heap? "))))
              (mkBuilder (setSections
                            [mkSection 2 "Q2" "" subjective
                                       (Whole 1) (Whole 1) (Whole 3) [sampleQuestion 1]]
                            (sampleState sampleMeta)) None)
              0 (mkSection 2 "Q2" "" subjective
                           (Whole 1) (Whole 1) (Whole 3) [sampleQuestion 1])
              (sampleQuestion 1) "**What** is a heap? ")
    as (b' & Hret & Hnone & _).
  - simpl. apply NoDup_singleton.
  - reflexivity.
  - reflexivity.
  - discriminate.
  - reflexivity.
  - reflexivity.
  - reflexivity.
  - exists b'. split; [exact Hret | exact Hnone].
Defined.

(** X23: on a multiple-choice section, with distinct section ids, a reply
    that parses to a value other than [null] revises exactly the target
    question: its text becomes the reply's text field (undefined when the
    reply has none) and its options become the reply's options when these
    are an array and stay otherwise; id, image and tags stay, and so does
    everything else. A reply that parses to [null] changes nothing and is
    reported as a failure. *)
Theorem handleImproveQuestion_mcq (JSON_parse : string -> option Js.value)
    (sectionId : Z) (qIndex : nat) (env : nat -> FetchOutcome)
    (b : BuilderState) (i : nat) (s : PaperSection) (q : Question)
    (responseText : string) (data : Js.value) :
  NoDup (s_id <$> sections (app b)) →
  sections (app b) !! i = Some s → s_id s = sectionId → type s = mcq →
  questions s !! qIndex = Some q → Js.truthy (text q) = true →
  snd (callGemini env) = Resolved (Js.Str responseText) →
  JSON_parse (sanitize responseText) = Some data →
  (Js.nullish data = true →
   handleImproveQuestion JSON_parse sectionId qIndex env b
   = ImproveReturns (fst (callGemini env))
       (mkBuilder (alert improveFailed (app b)) None))
  ∧ (Js.nullish data = false →
     ∃ b', handleImproveQuestion JSON_parse sectionId qIndex env b
           = ImproveReturns (fst (callGemini env)) b'
       ∧ improvingState b' = None
       ∧ alerts (app b') = alerts (app b)
       ∧ sections (app b')
         = <[i := set_questions
                    (<[qIndex := revisedQuestion data q]> (questions s)) s]>
             (sections (app b))).
Proof.
  intros Hnd Hi Hid Hty Hq Htruthy Hreply Hparse. unfold handleImproveQuestion.
  rewrite <- Hid, (find_section_lookup _ i s Hnd Hi), Hq, Htruthy. simpl.
  destruct (callGemini env) as [trace reply]. simpl in *. subst reply.
  unfold improveUpdates. rewrite decide_True by done. rewrite Hparse.
  split; [intros Hnull; by rewrite Hnull |].
  intros Hnn. rewrite Hnn.
  pose proof (lookup_lt_Some _ _ _ Hi) as Hlti.
  pose proof (lookup_lt_Some _ _ _ Hq) as Hltq.
  rewrite (updateQuestion_target (s_id s) qIndex text_ _ _ i s q Hnd Hi eq_refl Hq).
  destruct (is_array (Js.get data "options")) eqn:Harr.
  - assert (Js.truthy (Js.get data "options") = true) as ->
      by by destruct (Js.get data "options").
    cbn [andb].
    set (q1 := assignQuestion q text_ (Js.get data "text")).
    set (s1 := set_questions (<[qIndex := q1]> (questions s)) s).
    assert (updateQuestion (s_id s) qIndex options_ (Js.get data "options")
              (<[i := s1]> (sections (app b)))
            = Some (<[i := set_questions
                             (<[qIndex := assignQuestion q1 options_
                                            (Js.get data "options")]> (questions s1))
                             s1]> (<[i := s1]> (sections (app b))))) as ->.
    { apply updateQuestion_target.
      - rewrite list_fmap_insert. rewrite list_insert_id; [done |].
        by rewrite list_lookup_fmap, Hi.
      - by apply list_lookup_insert_eq.
      - reflexivity.
      - unfold s1. simpl. by apply list_lookup_insert_eq. }
    eexists. split; [reflexivity |]. simpl. split; [done |]. split; [done |].
    rewrite list_insert_insert_eq. f_equal. unfold s1, set_questions. simpl.
    rewrite list_insert_insert_eq. unfold revisedQuestion, q1. by rewrite Harr.
  - rewrite andb_false_r.
    eexists. split; [reflexivity |]. simpl. split; [done |]. split; [done |].
    unfold revisedQuestion. by rewrite Harr.
Qed.

Lemma handleImproveQuestion_mcq_witness :
  handleImproveQuestion (fun _ => Some Js.Null) 1 0
    (fun _ => Responds 200 (Json (replyWith (Js.Str "null"))))
    (mkBuilder (setSections
                  [mkSection 1 "Q1" "" mcq
                             (Whole 1) (Whole 1) (Whole 1) [sampleQuestion 1]]
                  (sampleState sampleMeta)) None)
  = ImproveReturns [Fetch 0]
      (mkBuilder (alert improveFailed
                    (setSections [mkSection 1 "Q1" "" mcq
                                    (Whole 1) (Whole 1) (Whole 1) [sampleQuestion 1]]
                                 (sampleState sampleMeta))) None).
Proof.
  destruct (handleImproveQuestion_mcq (fun _ => Some Js.Null) 1 0
              (fun _ => Responds 200 (Json (replyWith (Js.Str "null"))))
              (mkBuilder (setSections
                            [mkSection 1 "Q1" "" mcq
                                       (Whole 1) (Whole 1) (Whole 1) [sampleQuestion 1]]
                            (sampleState sampleMeta)) None)
              0 (mkSection 1 "Q1" "" mcq
                           (Whole 1) (Whole 1) (Whole 1) [sampleQuestion 1])
              (sampleQuestion 1) "null" Js.Null) as [Hnull _].
  - simpl. apply NoDup_singleton.
  - reflexivity.
  - reflexivity.
  - reflexivity.
  - reflexivity.
  - reflexivity.
  - reflexivity.
  - reflexivity.
  - apply Hnull. reflexivity.
Defined.

Lemma list_ascii_app (a b : string) :
  list_ascii_of_string (a ++ b)
  = (list_ascii_of_string a ++ list_ascii_of_string b)%list.
Proof.
  induction a as [| c a IH]; [done |].
  change (String c a ++ b) with (String c (a ++ b)).
  cbn [list_ascii_of_string]. by rewrite IH.
Qed.

Lemma has_char_Forall (c : ascii) (s : string) :
  has_char c s = false →
  Forall (fun c' => Ascii.eqb c' c = false) (list_ascii_of_string s).
Proof.
  induction s as [| c' s IH]; [constructor |].
  cbn [has_char list_ascii_of_string]. intros H.
  apply orb_false_iff in H as [Hc Hs]. constructor; auto.
Qed.

Lemma drop_first_if_clean (c : ascii) (l : list ascii) :
  Forall (fun c' => Ascii.eqb c' c = false) l → drop_first_if c l = l.
Proof. intros [| c' l' Hc _]; [done |]. simpl. by rewrite Hc. Qed.

Lemma drop_first_if_head (c : ascii) (l : list ascii) :
  drop_first_if c (c :: l) = l.
Proof. cbn [drop_first_if]. by rewrite Ascii.eqb_refl. Qed.

Lemma strip_quotes_quoted (t : string) :
  strip_quotes (String dquote (t ++ String dquote "")) = t.
Proof.
  unfold strip_quotes.
  change (list_ascii_of_string (String dquote (t ++ String dquote "")))
    with (dquote :: list_ascii_of_string (t ++ String dquote "")).
  rewrite drop_first_if_head, list_ascii_app.
  change (list_ascii_of_string (String dquote "")) with [dquote].
  rewrite rev_app_distr.
  change (rev [dquote] ++ rev (list_ascii_of_string t))%list
    with (dquote :: rev (list_ascii_of_string t)).
  rewrite drop_first_if_head, rev_involutive.
  apply string_of_list_ascii_of_string.
Qed.

Lemma strip_quotes_clean (t : string) :
  has_char dquote t = false → strip_quotes t = t.
Proof.
  intros Hno. apply has_char_Forall in Hno. unfold strip_quotes.
  rewrite (drop_first_if_clean _ _ Hno).
  rewrite (drop_first_if_clean dquote (rev (list_ascii_of_string t)))
    by (apply List.Forall_rev; exact Hno).
  rewrite rev_involutive. apply string_of_list_ascii_of_string.
Qed.

Lemma remove_from_clean_char (c0 : ascii) (p t u : string) :
  has_char c0 t = false →
  Js.remove_from (String c0 p) 0 (t ++ u)
  = t ++ Js.remove_from (String c0 p) 0 u.
Proof.
  induction t as [| c t IH]; [done |].
  cbn [has_char]. intros Hno. apply orb_false_iff in Hno as [Hc Ht].
  change (String c t ++ u) with (String c (t ++ u)).
  rewrite remove_from_keep.
  - by rewrite (IH Ht).
  - rewrite prefix_cons, Ascii.eqb_sym. by rewrite Hc.
Qed.

(** X24: the cleanup of a subjective revision reply. A reply without an
    asterisk that is wrapped in double quotes becomes its inside, trimmed;
    a reply with neither asterisk nor double quote is only trimmed, also
    when it is wrapped in a pair of double asterisks. *)
Theorem cleanText_wrapped (t : string) :
  has_char "*" t = false →
  cleanText (String dquote (t ++ String dquote "")) = Js.trim t
  ∧ (has_char dquote t = false →
     cleanText t = Js.trim t ∧ cleanText ("**" ++ t ++ "**") = Js.trim t).
Proof.
  intros Hstar.
  assert (Js.remove_all "**" t = t) as Hclean.
  { unfold Js.remove_all. rewrite <- (string_app_nil_r t) at 1.
    rewrite (remove_from_clean_char "*" "*" t "" Hstar). apply string_app_nil_r. }
  unfold cleanText. split.
  - by rewrite strip_quotes_quoted, Hclean.
  - intros Hq. split; [by rewrite (strip_quotes_clean t Hq), Hclean |].
    rewrite strip_quotes_clean.
    + unfold Js.remove_all.
      change ("**" ++ t ++ "**") with (String "*" (String "*" (t ++ "**"))).
      rewrite remove_from_match by (rewrite !prefix_cons, prefix_nil; reflexivity).
      cbn [String.length Nat.sub Js.remove_from].
      rewrite (remove_from_clean_char "*" "*" t "**" Hstar).
      change (Js.remove_from "**" 0 "**") with "". by rewrite string_app_nil_r.
    + change ("**" ++ t ++ "**") with (String "*" (String "*" (t ++ "**"))).
      cbn [has_char]. rewrite <- (string_app_nil_r (t ++ "**")).
      assert (∀ a b, has_char dquote (a ++ b) = has_char dquote a || has_char dquote b) as Happ.
      { intros a b. induction a as [| c a IH]; [done |].
        change (String c a ++ b) with (String c (a ++ b)).
        cbn [has_char]. by rewrite IH, orb_assoc. }
      rewrite !Happ, Hq. reflexivity.
Qed.

Lemma cleanText_wrapped_witness :
  cleanText (String dquote ("What is a heap?" ++ String dquote ""))
  = Js.trim "What is a heap?".
Proof.
  destruct (cleanText_wrapped "What is a heap?" eq_refl) as [Hquoted _].
  exact Hquoted.
Defined.

(** The quotes are removed before the trim: a closing quote followed by
    white space stays. *)
Example cleanText_quote_before_space :
  cleanText (String dquote ("Define a heap." ++ String dquote " "))
  = "Define a heap." ++ String dquote "".
Proof. reflexivity. Qed.

(** ** Question identifiers *)

Lemma pushQuestions_ids (ids : nat -> Q) (section : PaperSection)
    (needed k : nat) (currentQs : list Question) :
  pushQuestions ids section needed k currentQs
  = ((currentQs ++ ((fun j => newQuestion (ids j) section) <$> seq k needed))%list,
     (k + needed)%nat).
Proof.
  revert k currentQs. induction needed as [| n IH]; intros k currentQs; simpl.
  - by rewrite app_nil_r, Nat.add_0_r.
  - rewrite IH, <- app_assoc. simpl. f_equal. lia.
Qed.

Lemma reconcile_ids (ids : nat -> Q) (s : PaperSection) (k : nat) :
  ∃ olds n,
    reconcile ids s k
    = (set_questions (olds ++ ((fun j => newQuestion (ids j) s) <$> seq k n))%list s,
       (k + n)%nat)
    ∧ olds `sublist_of` questions s.
Proof.
  unfold reconcile.
  destruct (lessThan (lengthOf (questions s)) (toNumber (qCount s))).
  - rewrite pushQuestions_ids. eexists _, _. split; [reflexivity | done].
  - destruct (lessThan (toNumber (qCount s)) (lengthOf (questions s))).
    + exists (slice0 (questions s) (ToIntegerOrInfinity (toNumber (qCount s)))),
        0%nat.
      simpl. rewrite app_nil_r, Nat.add_0_r. split; [done |].
      unfold slice0. apply sublist_take.
    + exists (questions s), 0%nat. simpl.
      rewrite app_nil_r, Nat.add_0_r. by split.
Qed.

Lemma reconcileAll_ids (ids : nat -> Q) (secs : list PaperSection) (k : nat) :
  (∀ m n, ids m = ids n → m = n) →
  NoDup (q_id <$> allQuestions secs) →
  (∀ q n, q ∈ allQuestions secs → q_id q ≠ ids n) →
  NoDup (q_id <$> allQuestions (reconcileAll ids secs k))
  ∧ ∀ x, x ∈ (q_id <$> allQuestions (reconcileAll ids secs k)) →
         x ∈ (q_id <$> allQuestions secs) ∨ ∃ n, (k <= n)%nat ∧ x = ids n.
Proof.
  intros Hinj. revert k. induction secs as [| s rest IH]; intros k Hnd Hold.
  - simpl. split; [constructor | intros x Hx; by apply not_elem_of_nil in Hx].
  - simpl in Hnd, Hold. rewrite fmap_app in Hnd.
    apply NoDup_app in Hnd as (Hnd_s & Hdisj & Hnd_rest).
    destruct (reconcile_ids ids s k) as (olds & n & Hrec & Hsub).
    cbn [reconcileAll]. rewrite Hrec. cbn [allQuestions questions set_questions].
    destruct (IH (k + n)%nat Hnd_rest) as [IHnd IHin].
    { intros q m Hq. apply Hold. apply elem_of_app. by right. }
    set (news := (fun j => newQuestion (ids j) s) <$> seq k n).
    assert (∀ x, x ∈ (q_id <$> news) → ∃ j, (k <= j < k + n)%nat ∧ x = ids j) as Hnews.
    { intros x Hx. apply list_elem_of_fmap in Hx as (q & -> & Hq).
      apply list_elem_of_fmap in Hq as (j & -> & Hj). apply elem_of_seq in Hj.
      exists j. by split. }
    assert (∀ x, x ∈ (q_id <$> olds) → x ∈ (q_id <$> questions s)) as Holds.
    { intros x Hx. apply list_elem_of_fmap in Hx as (q & -> & Hq).
      apply list_elem_of_fmap. exists q. split; [done |].
      eapply sublist_subseteq; [exact Hsub | exact Hq]. }
    assert (∀ x n, x ∈ (q_id <$> questions s) → x ≠ ids n) as Hold_s.
    { intros x m Hx. apply list_elem_of_fmap in Hx as (q & -> & Hq).
      apply Hold. apply elem_of_app. by left. }
    assert (∀ x n, x ∈ (q_id <$> allQuestions rest) → x ≠ ids n) as Hold_r.
    { intros x m Hx. apply list_elem_of_fmap in Hx as (q & -> & Hq).
      apply Hold. apply elem_of_app. by right. }
    split.
    + rewrite <- app_assoc, !fmap_app. apply NoDup_app. split; [| split].
      * eapply sublist_NoDup; [exact Hnd_s |]. by apply fmap_sublist.
      * intros x Hx Hin. apply Holds in Hx.
        apply elem_of_app in Hin as [Hin | Hin].
        -- apply Hnews in Hin as (j & _ & ->). by apply (Hold_s _ j Hx).
        -- apply IHin in Hin as [Hin | (j & _ & ->)].
           ++ by apply (Hdisj x Hx).
           ++ by apply (Hold_s _ j Hx).
      * apply NoDup_app. split; [| split; [| exact IHnd]].
        -- unfold news. rewrite <- list_fmap_compose.
           apply NoDup_fmap_2_strong; [| apply NoDup_seq].
           intros a b _ _ Hab. simpl in Hab. by apply Hinj.
        -- intros x Hx Hin. apply Hnews in Hx as (j & Hj & ->).
           apply IHin in Hin as [Hin | (j' & Hj' & Heq)].
           ++ by apply (Hold_r _ j Hin).
           ++ apply Hinj in Heq. lia.
    + intros x Hx. rewrite <- app_assoc, !fmap_app in Hx. rewrite fmap_app.
      apply elem_of_app in Hx as [Hx | Hx].
      * left. apply elem_of_app. left. by apply Holds.
      * apply elem_of_app in Hx as [Hx | Hx].
        -- right. apply Hnews in Hx as (j & Hj & ->). exists j. split; [lia | done].
        -- apply IHin in Hx as [Hx | (j & Hj & ->)].
           ++ left. apply elem_of_app. by right.
           ++ right. exists j. split; [lia | done].
Qed.

(** X25: when the required fields are filled, the identifiers drawn during
    the transition are pairwise different and none of them is the id of an
    existing question, and the existing question ids are pairwise
    different, then after the transition the ids of all questions of all
    sections are pairwise different: no drawn identifier is given to two
    questions. *)
Theorem initializeBuilder_fresh_ids (ids : nat -> Q) (st : AppState) :
  requiredFilled (meta st) →
  (∀ m n, ids m = ids n → m = n) →
  NoDup (q_id <$> allQuestions (sections st)) →
  (∀ q n, q ∈ allQuestions (sections st) → q_id q ≠ ids n) →
  NoDup (q_id <$> allQuestions (sections (state_of (initializeBuilder ids st)))).
Proof.
  intros Hfilled Hinj Hnd Hold.
  rewrite (initializeBuilder_sections ids st Hfilled).
  by destruct (reconcileAll_ids ids (sections st) 0 Hinj Hnd Hold).
Qed.

Lemma initializeBuilder_fresh_ids_witness :
  NoDup (q_id <$> allQuestions
           (sections (state_of (initializeBuilder (fun n => inject_Z (Z.of_nat n))
                                  (sampleState sampleMeta))))).
Proof.
  apply (initializeBuilder_fresh_ids (fun n => inject_Z (Z.of_nat n))
           (sampleState sampleMeta)).
  - unfold requiredFilled. simpl. repeat split; discriminate.
  - intros m n Heq. injection Heq as Heq. lia.
  - simpl. constructor.
  - simpl. intros q n Hq. by apply not_elem_of_nil in Hq.
Defined.

(** ** The low-context gate *)

Lemma settleMagicFill_pending (JSON_parse : string -> option Js.value)
    (sectionId : Z) (reply : settled) (st : AppState)
    (pending : option Z) (loading : bool * option Z) :
  settleMagicFill JSON_parse sectionId reply
    (setShowLowContextWarning false
       (setAiLoadingState loading
          (setShowLowContextWarning true (setPendingMagicSectionId pending st))))
  = settleMagicFill JSON_parse sectionId reply
      (setShowLowContextWarning false (setAiLoadingState loading st)).
Proof.
  unfold settleMagicFill.
  destruct reply as [[| | v | n | rawText | items | props] | err]; reflexivity.
Qed.

(** X26: with an empty knowledge bank, starting a bulk fill makes no call:
    it only records the section as pending and shows the warning; and for
    an existing section, proceeding from the warning ends in exactly the
    state that the fill started with a filled knowledge bank ends in.
    For a section that does not exist, proceeding changes nothing, so the
    warning stays. *)
Theorem initiateMagicFill_gate (JSON_parse : string -> option Js.value)
    (knowledgeContext : string) (sectionId : Z) (env : nat -> FetchOutcome)
    (st : AppState) :
  let gated := setShowLowContextWarning true
                 (setPendingMagicSectionId (Some sectionId) st) in
  initiateMagicFill JSON_parse "" sectionId env st = Returns gated
  ∧ sections gated = sections st
  ∧ (knowledgeContext ≠ "" → find_section sectionId (sections st) ≠ None →
     proceedAnyway JSON_parse env gated
     = initiateMagicFill JSON_parse knowledgeContext sectionId env st)
  ∧ (find_section sectionId (sections st) = None →
     proceedAnyway JSON_parse env gated = Returns gated).
Proof.
  intros gated. split; [reflexivity |]. split; [reflexivity |]. split.
  - intros Hk Hfind. unfold initiateMagicFill, proceedAnyway.
    assert (String.eqb knowledgeContext "" = false) as ->
      by by apply String.eqb_neq.
    unfold executeMagicFill. simpl.
    destruct (find_section sectionId (sections st)); [| done].
    apply settleMagicFill_pending.
  - intros Hfind. unfold proceedAnyway, executeMagicFill. simpl. by rewrite Hfind.
Qed.

Lemma initiateMagicFill_gate_witness :
  proceedAnyway (fun _ => None) (fun _ => Fails TypeError)
    (setShowLowContextWarning true
       (setPendingMagicSectionId (Some 1%Z) (sampleState sampleMeta)))
  = initiateMagicFill (fun _ => None) "syllabus" 1 (fun _ => Fails TypeError)
      (sampleState sampleMeta).
Proof.
  apply (initiateMagicFill_gate (fun _ => None) "syllabus" 1
           (fun _ => Fails TypeError) (sampleState sampleMeta));
    discriminate.
Defined.

(** ** Durable state *)

Section PersistenceFacts.

Variable stringifyMeta : Metadata -> string.
Variable parseMeta : string -> option Metadata.
Variable stringifySections : list PaperSection -> string.
Variable parseSections : string -> option (list PaperSection).
Variable stringifyKnowledge : string -> string.
Variable parseKnowledge : string -> option string.
Variable defaultMeta : Metadata.

Lemma loadFromStorage_saved {A : Type} (parse : string -> option A)
    (storage : gmap string string) (key saved : string) (v d : A) :
  storage !! key = Some saved → saved ≠ "" → parse saved = Some v →
  loadFromStorage parse storage key d = v.
Proof.
  intros Hget Hne Hparse. unfold loadFromStorage. rewrite Hget.
  apply String.eqb_neq in Hne. by rewrite Hne, Hparse.
Qed.

Lemma setSections_setMeta_same (st : AppState) :
  setSections (sections st) (setMeta (meta st) st) = st.
Proof. by destruct st. Qed.

Lemma autoSave_lookup (p : Persisted) :
  showRestorePrompt p = false →
  autoSave stringifyMeta stringifySections stringifyKnowledge p !! "qpf_meta"
  = Some (stringifyMeta (meta (p_app p)))
  ∧ autoSave stringifyMeta stringifySections stringifyKnowledge p !! "qpf_sections"
    = Some (stringifySections (sections (p_app p)))
  ∧ autoSave stringifyMeta stringifySections stringifyKnowledge p !! "qpf_knowledge"
    = Some (stringifyKnowledge (knowledgeContext p)).
Proof.
  intros Hprompt. unfold autoSave. rewrite Hprompt.
  split; [| split].
  - rewrite lookup_insert_ne by done. rewrite lookup_insert_ne by done.
    apply lookup_insert_eq.
  - rewrite lookup_insert_ne by done. apply lookup_insert_eq.
  - apply lookup_insert_eq.
Qed.

Lemma restore_after_save (p : Persisted) (prompt : bool) :
  codecFor stringifyMeta parseMeta stringifySections parseSections
    stringifyKnowledge parseKnowledge p → showRestorePrompt p = false →
  handleRestore parseMeta parseSections parseKnowledge defaultMeta
    (mkPersisted (p_app p) (knowledgeContext p) prompt
       (autoSave stringifyMeta stringifySections stringifyKnowledge p))
  = mkPersisted (p_app p) (knowledgeContext p) false
      (autoSave stringifyMeta stringifySections stringifyKnowledge p).
Proof.
  intros (Hm1 & Hm2 & Hs1 & Hs2 & Hk1 & Hk2) Hprompt.
  destruct (autoSave_lookup p Hprompt) as (Lm & Ls & Lk).
  unfold handleRestore. simpl.
  rewrite (loadFromStorage_saved parseMeta _ _ _ _ _ Lm Hm1 Hm2).
  rewrite (loadFromStorage_saved parseSections _ _ _ _ _ Ls Hs1 Hs2).
  rewrite (loadFromStorage_saved parseKnowledge _ _ _ _ _ Lk Hk1 Hk2).
  by rewrite setSections_setMeta_same.
Qed.

(** X27: while the restore prompt is not shown, the auto-save writes the
    metadata, the sections and the knowledge text under their three keys
    and touches no other key; a restore from that store gives back exactly
    the state that was saved. After a discard the store is cleared, but
    the auto-save that follows writes the three keys again from the
    current state. *)
Theorem autoSave_roundtrip (p : Persisted) :
  codecFor stringifyMeta parseMeta stringifySections parseSections
    stringifyKnowledge parseKnowledge p →
  (showRestorePrompt p = false →
   let saved := commitEffects stringifyMeta stringifySections stringifyKnowledge p in
   (∀ key, key ≠ "qpf_meta" → key ≠ "qpf_sections" → key ≠ "qpf_knowledge" →
           localStorage saved !! key = localStorage p !! key)
   ∧ handleRestore parseMeta parseSections parseKnowledge defaultMeta saved = saved)
  ∧ (let discarded := commitEffects stringifyMeta stringifySections stringifyKnowledge
                        (handleDiscard p) in
     dom (localStorage discarded)
     = ({["qpf_meta"; "qpf_sections"; "qpf_knowledge"]} : gset string)
     ∧ handleRestore parseMeta parseSections parseKnowledge defaultMeta discarded
       = discarded).
Proof.
  intros Hcodec. split.
  - intros Hprompt saved. split.
    + intros key H1 H2 H3. unfold saved, commitEffects, autoSave. simpl.
      rewrite Hprompt. by rewrite !lookup_insert_ne by done.
    + unfold saved, commitEffects. rewrite Hprompt.
      rewrite <- Hprompt at 1. by apply restore_after_save.
  - intros discarded. split.
    + unfold discarded, commitEffects, handleDiscard, autoSave. simpl.
      rewrite !dom_insert_L, dom_empty_L. set_solver.
    + unfold discarded, commitEffects.
      change (showRestorePrompt (handleDiscard p)) with false.
      apply (restore_after_save (handleDiscard p) false); [exact Hcodec | reflexivity].
Qed.

(** X28: at start-up the restore check only queues the prompt, so the
    auto-save effects of the same commit still run: whatever the store
    held, the three keys are overwritten from the first render's state,
    and a restore chosen at the prompt gives back that state, not the
    session that had been saved. The prompt is shown exactly when the
    store held a non-empty text under the metadata key. *)
Theorem mountEffects_overwrites (p0 : Persisted) :
  codecFor stringifyMeta parseMeta stringifySections parseSections
    stringifyKnowledge parseKnowledge p0 → showRestorePrompt p0 = false →
  let p1 := mountEffects stringifyMeta stringifySections stringifyKnowledge p0 in
  (showRestorePrompt p1 = true
   ↔ ∃ saved, localStorage p0 !! "qpf_meta" = Some saved ∧ saved ≠ "")
  ∧ localStorage p1 !! "qpf_meta" = Some (stringifyMeta (meta (p_app p0)))
  ∧ p_app (handleRestore parseMeta parseSections parseKnowledge defaultMeta p1)
    = p_app p0
  ∧ knowledgeContext
      (handleRestore parseMeta parseSections parseKnowledge defaultMeta p1)
    = knowledgeContext p0.
Proof.
  intros Hcodec Hprompt p1. split; [| split].
  - unfold p1, mountEffects. simpl. rewrite Hprompt.
    destruct (localStorage p0 !! "qpf_meta") as [saved |] eqn:Hget.
    + destruct (String.eqb_spec saved "") as [-> | Hne]; simpl.
      * split; [discriminate | intros (s & [= <-] & Hs); by destruct Hs].
      * split; [intros _; by exists saved | done].
    + split; [discriminate | intros (s & Hs & _); discriminate].
  - unfold p1, mountEffects. simpl. by destruct (autoSave_lookup p0 Hprompt).
  - unfold p1, mountEffects.
    rewrite (restore_after_save p0 _ Hcodec Hprompt). by split.
Qed.

End PersistenceFacts.

Lemma autoSave_roundtrip_witness :
  handleRestore (fun _ => Some sampleMeta) (fun _ => Some defaultSections)
    (fun _ => Some "") sampleMeta
    (commitEffects (fun _ => "m") (fun _ => "s") (fun _ => "k")
       (mkPersisted (sampleState sampleMeta) "" false ∅))
  = commitEffects (fun _ => "m") (fun _ => "s") (fun _ => "k")
      (mkPersisted (sampleState sampleMeta) "" false ∅).
Proof.
  destruct (autoSave_roundtrip (fun _ => "m") (fun _ => Some sampleMeta)
              (fun _ => "s") (fun _ => Some defaultSections)
              (fun _ => "k") (fun _ => Some "") sampleMeta
              (mkPersisted (sampleState sampleMeta) "" false ∅))
    as [Hsave _].
  - unfold codecFor. simpl. repeat split; discriminate.
  - apply Hsave. reflexivity.
Defined.

Lemma mountEffects_overwrites_witness :
  p_app (handleRestore (fun _ => Some sampleMeta) (fun _ => Some defaultSections)
           (fun _ => Some "") sampleMeta
           (mountEffects (fun _ => "m") (fun _ => "s") (fun _ => "k")
              (mkPersisted (sampleState sampleMeta) "" false
                           {["qpf_meta" := "earlier session"]})))
  = sampleState sampleMeta.
Proof.
  destruct (mountEffects_overwrites (fun _ => "m") (fun _ => Some sampleMeta)
              (fun _ => "s") (fun _ => Some defaultSections)
              (fun _ => "k") (fun _ => Some "") sampleMeta
              (mkPersisted (sampleState sampleMeta) "" false
                           {["qpf_meta" := "earlier session"]}))
    as (_ & _ & Happ & _).
  - unfold codecFor. simpl. repeat split; discriminate.
  - reflexivity.
  - exact Happ.
Defined.

(** ** Mixed text and formulas *)

Lemma string_app_assoc (a b c : string) : (a ++ b) ++ c = a ++ (b ++ c).
Proof.
  induction a as [| x a IH]; [done |].
  change (String x ((a ++ b) ++ c) = String x (a ++ (b ++ c))). by rewrite IH.
Qed.

Lemma string_of_list_app (l1 l2 : list ascii) :
  string_of_list_ascii (l1 ++ l2)%list
  = string_of_list_ascii l1 ++ string_of_list_ascii l2.
Proof.
  induction l1 as [| x l1 IH]; [done |].
  change (String x (string_of_list_ascii (l1 ++ l2)%list)
          = String x (string_of_list_ascii l1 ++ string_of_list_ascii l2)).
  by rewrite IH.
Qed.

Lemma string_of_rev_cons (c : ascii) (cur : list ascii) (s : string) :
  string_of_list_ascii (rev (c :: cur)) ++ s
  = string_of_list_ascii (rev cur) ++ String c s.
Proof.
  change (rev (c :: cur)) with (rev cur ++ [c])%list.
  by rewrite string_of_list_app, string_app_assoc.
Qed.

Lemma split_math_go_join (s : string) (skip : nat) (cur : list ascii) :
  join (split_math_go s skip cur) = string_of_list_ascii (rev cur) ++ s.
Proof.
  revert skip cur. induction s as [| c rest IH]; intros skip cur.
  - reflexivity.
  - cbn [split_math_go]. destruct skip as [| [| k]].
    + destruct (match_math (String c rest)) as [n |].
      * change (join (?x :: ?l)) with (x ++ join l). by rewrite IH.
      * by rewrite IH, string_of_rev_cons.
    + change (join (?x :: ?l)) with (x ++ join l).
      rewrite IH. by rewrite string_of_rev_cons.
    + by rewrite IH, string_of_rev_cons.
Qed.

Lemma match_math_plain (c : ascii) (rest : string) :
  Ascii.eqb c "$" = false → match_math (String c rest) = None.
Proof.
  intros Hc. unfold match_math, match_block, match_inline.
  rewrite Hc. by destruct rest.
Qed.

Lemma split_math_go_plain (t u : string) (cur : list ascii) :
  has_char "$" t = false →
  split_math_go (t ++ u) 0 cur
  = split_math_go u 0 (rev (list_ascii_of_string t) ++ cur)%list.
Proof.
  revert cur. induction t as [| c t IH]; intros cur Hno; [done |].
  cbn [has_char] in Hno. apply orb_false_iff in Hno as [Hc Ht].
  change (String c t ++ u) with (String c (t ++ u)).
  cbn [split_math_go]. rewrite (match_math_plain c _ Hc), (IH _ Ht).
  cbn [list_ascii_of_string rev]. by rewrite <- app_assoc.
Qed.

Lemma split_math_go_match (x : string) (c : ascii) (rest : string) (cur : list ascii) :
  split_math_go (x ++ String c rest) (S (String.length x)) cur
  = string_of_list_ascii (rev (c :: rev (list_ascii_of_string x) ++ cur)%list)
    :: split_math_go rest 0 [].
Proof.
  revert cur. induction x as [| d x IH]; intros cur; [done |].
  change (String d x ++ String c rest) with (String d (x ++ String c rest)).
  cbn [split_math_go String.length]. rewrite IH.
  cbn [list_ascii_of_string rev]. by rewrite <- app_assoc.
Qed.

Lemma dollar_free_run_app (m u : string) :
  has_char "$" m = false →
  dollar_free_run (m ++ String "$" u) = String.length m
  ∧ drop_chars (String.length m) (m ++ String "$" u) = String "$" u.
Proof.
  induction m as [| c m IH]; [done |].
  cbn [has_char]. intros Hno. apply orb_false_iff in Hno as [Hc Hm].
  change (String c m ++ String "$" u) with (String c (m ++ String "$" u)).
  cbn [dollar_free_run drop_chars String.length]. rewrite Hc.
  destruct (IH Hm) as [-> ->]. done.
Qed.

Lemma string_of_list_of_rev_rev (s : string) :
  string_of_list_ascii (rev (rev (list_ascii_of_string s))) = s.
Proof. rewrite rev_involutive. apply string_of_list_ascii_of_string. Qed.

Lemma split_math_plain (t : string) :
  has_char "$" t = false → split_math t = [t].
Proof.
  intros Hno. unfold split_math. rewrite <- (string_app_nil_r t) at 1.
  rewrite (split_math_go_plain t "" [] Hno). cbn [split_math_go].
  by rewrite app_nil_r, string_of_list_of_rev_rev.
Qed.

Lemma split_math_inline (a m b : string) :
  has_char "$" a = false → has_char "$" m = false → m ≠ "" →
  has_char "$" b = false →
  split_math (a ++ String "$" (m ++ String "$" b))
  = [a; String "$" (m ++ String "$" ""); b].
Proof.
  intros Ha Hm Hne Hb. unfold split_math.
  rewrite (split_math_go_plain a _ [] Ha). rewrite app_nil_r.
  destruct (dollar_free_run_app m b Hm) as [Hrun Hdrop].
  assert (match_math (String "$" (m ++ String "$" b)) = Some (String.length m + 2)%nat)
    as Hmatch.
  { unfold match_math.
    assert (match_block (String "$" (m ++ String "$" b)) = None) as ->.
    { destruct m as [| c m']; [done |]. cbn [has_char] in Hm.
      apply orb_false_iff in Hm as [Hc _].
      change (String c m' ++ String "$" b) with (String c (m' ++ String "$" b)).
      unfold match_block. rewrite Hc. by rewrite andb_false_r. }
    unfold match_inline. rewrite Hrun, Hdrop.
    destruct m as [| c m']; [done |].
    rewrite prefix_cons, prefix_nil. reflexivity. }
  cbn [split_math_go]. rewrite Hmatch.
  replace (String.length m + 2 - 1)%nat with (S (String.length m)) by lia.
  rewrite split_math_go_match.
  rewrite <- (string_app_nil_r b) at 1.
  rewrite (split_math_go_plain b "" [] Hb). cbn [split_math_go].
  rewrite app_nil_r, !string_of_list_of_rev_rev.
  f_equal. f_equal.
  replace (rev ("$"%char :: rev (list_ascii_of_string m) ++ ["$"%char])%list)
    with ("$"%char :: list_ascii_of_string m ++ ["$"%char])%list.
  - change (String "$" (string_of_list_ascii (list_ascii_of_string m ++ ["$"%char])%list)
            = String "$" (m ++ "$")).
    by rewrite string_of_list_app, string_of_list_ascii_of_string.
  - change (rev ("$"%char :: rev (list_ascii_of_string m) ++ ["$"%char])%list)
      with (rev (rev (list_ascii_of_string m) ++ ["$"%char]) ++ ["$"%char])%list.
    by rewrite rev_app_distr, rev_involutive.
Qed.

Lemma renderPart_plain (t : string) :
  has_char "$" t = false → renderPart t = Span t.
Proof.
  intros Hno. unfold renderPart. destruct t as [| c t]; [reflexivity |].
  cbn [has_char] in Hno. apply orb_false_iff in Hno as [Hc _].
  rewrite !prefix_cons, (Ascii.eqb_sym "$" c), Hc. reflexivity.
Qed.

Lemma string_length_app (a b : string) :
  String.length (a ++ b) = (String.length a + String.length b)%nat.
Proof.
  induction a as [| c a IH]; [done |].
  change (String c a ++ b) with (String c (a ++ b)).
  cbn [String.length]. by rewrite IH.
Qed.

Lemma substring_prefix (m u : string) :
  String.substring 0 (String.length m) (m ++ u) = m.
Proof.
  induction m as [| c m IH]; [by destruct u |].
  change (String c m ++ u) with (String c (m ++ u)).
  cbn [String.length String.substring]. by rewrite IH.
Qed.

Lemma renderPart_inline (m : string) :
  has_char "$" m = false → m ≠ "" →
  renderPart (String "$" (m ++ String "$" "")) = Katex m false.
Proof.
  intros Hm Hne. unfold renderPart.
  assert (String.prefix "$$" (String "$" (m ++ String "$" "")) = false) as ->.
  { destruct m as [| c m']; [done |]. cbn [has_char] in Hm.
    apply orb_false_iff in Hm as [Hc _].
    change (String c m' ++ String "$" "") with (String c (m' ++ String "$" "")).
    rewrite !prefix_cons, (Ascii.eqb_sym "$" c), Hc. reflexivity. }
  assert (String.prefix "$" (String "$" (m ++ String "$" "")) = true) as ->
    by (rewrite prefix_cons, prefix_nil; reflexivity).
  assert (endsWith "$" (String "$" (m ++ String "$" "")) = true) as ->.
  { unfold endsWith.
    change (list_ascii_of_string (String "$" (m ++ String "$" "")))
      with ("$"%char :: list_ascii_of_string (m ++ String "$" "")).
    rewrite list_ascii_app.
    change (rev ("$"%char :: list_ascii_of_string m ++ list_ascii_of_string "$")%list)
      with (rev (list_ascii_of_string m ++ ["$"%char]) ++ ["$"%char])%list.
    rewrite rev_app_distr.
    change (string_of_list_ascii (rev (list_ascii_of_string "$")))
      with (String "$" "").
    change (string_of_list_ascii ((rev ["$"%char] ++ rev (list_ascii_of_string m)) ++ ["$"%char])%list)
      with (String "$" (string_of_list_ascii (rev (list_ascii_of_string m) ++ ["$"%char])%list)).
    rewrite prefix_cons, prefix_nil. reflexivity. }
  cbn [andb]. f_equal. unfold slice_both.
  cbn [String.length]. rewrite string_length_app. cbn [String.length].
  replace (S (String.length m + 1) - 2 * 1)%nat with (String.length m) by lia.
  cbn [String.substring]. apply substring_prefix.
Qed.

(** X29: the parts that the text is split into, put together again, are
    the text: no character is lost or added. A non-empty text without a
    dollar sign is rendered as one plain span; and a formula between
    single dollar signs, with no dollar sign inside it or in the text
    around it, is rendered as the span before, the inline formula with the
    dollar signs removed, and the span after. *)
Theorem MixedTextRenderer_parts (text a m b : string) :
  join (split_math text) = text
  ∧ (has_char "$" a = false → has_char "$" b = false →
     (a ≠ "" → MixedTextRenderer a = Some [Span a])
     ∧ (has_char "$" m = false → m ≠ "" →
        MixedTextRenderer (a ++ String "$" (m ++ String "$" b))
        = Some [Span a; Katex m false; Span b])).
Proof.
  split.
  - unfold split_math. by rewrite split_math_go_join.
  - intros Ha Hb. split.
    + intros Hne. unfold MixedTextRenderer.
      apply String.eqb_neq in Hne. rewrite Hne.
      rewrite (split_math_plain a Ha). simpl. by rewrite (renderPart_plain a Ha).
    + intros Hm Hne. unfold MixedTextRenderer.
      assert (String.eqb (a ++ String "$" (m ++ String "$" b)) "" = false) as ->
        by by destruct a.
      rewrite (split_math_inline a m b Ha Hm Hne Hb). simpl.
      by rewrite (renderPart_plain a Ha), (renderPart_inline m Hm Hne),
                 (renderPart_plain b Hb).
Qed.

Lemma MixedTextRenderer_parts_witness :
  MixedTextRenderer ("Find " ++ String "$" ("x^2" ++ String "$" " now"))
  = Some [Span "Find "; Katex "x^2" false; Span " now"].
Proof.
  destruct (MixedTextRenderer_parts "" "Find " "x^2" " now") as [_ Hparts].
  destruct (Hparts eq_refl eq_refl) as [_ Hinline].
  apply Hinline; [reflexivity | discriminate].
Defined.

(** A dollar sign that belongs to no formula is still rendered as one:
    the part starts and ends with it. *)
Example MixedTextRenderer_lone_dollar :
  MixedTextRenderer "$" = Some [Katex "" false]
  ∧ MixedTextRenderer "cost $5 and $6"
    = Some [Span "cost "; Katex "5 and " false; Span "6"].
Proof. split; reflexivity. Qed.
